(** * ClaudeForge: a shallow embedding of the session pipeline

    The development follows the Python sources module by module:
    [PyBase] (the pieces of the Python runtime the code leans on),
    [GitHubClient] (github_client.py), [Config] (config.py),
    [ClaudeSession] (claude_session.py), [Notifications]
    (notifications.py) and [Orchestrator] (orchestrator.py).

    Python [str] values are modelled by [string]; the [str] methods below
    are written for ASCII text, characters above 127 being treated as
    letters without case that are neither digits nor white space. *)

From Stdlib Require Import String Ascii List ZArith Lia Bool.
From Stdlib Require Import Decimal DecimalString DecimalZ.
Import ListNotations.
Local Open Scope list_scope.
Local Open Scope string_scope.

(** ** The Python runtime *)

Module PyBase.

(** Exception classes that occur in the sources or in the libraries they
    call.  [CancelledError] and [KeyboardInterrupt] derive from
    [BaseException] only, so [except Exception] does not catch them. *)
Inductive ExnClass :=
| ValueError | KeyError | AttributeError | TypeError | ValidationError
| TimeoutExpired | HTTPStatusError | GitCommandError | OSError
| RuntimeError
| CancelledError | KeyboardInterrupt.

Definition is_Exception (c : ExnClass) : bool :=
  match c with
  | CancelledError | KeyboardInterrupt => false
  | _ => true
  end.

(** An exception object: its class and [str(e)]. *)
Record Exn := mkExn { exn_class : ExnClass; exn_str : string }.

Inductive Result (A : Type) :=
| Ok (a : A)
| Raise (e : Exn).
Arguments Ok {A} a.
Arguments Raise {A} e.

Definition rbind {A B} (r : Result A) (k : A -> Result B) : Result B :=
  match r with
  | Ok a => k a
  | Raise e => Raise e
  end.

(** *** [str.strip(c)] and [str.split(c)] for a one-character argument *)

Fixpoint lstrip (c : ascii) (s : string) : string :=
  match s with
  | EmptyString => EmptyString
  | String a s' => if Ascii.eqb a c then lstrip c s' else s
  end.

Fixpoint rstrip (c : ascii) (s : string) : string :=
  match s with
  | EmptyString => EmptyString
  | String a s' =>
      match rstrip c s' with
      | EmptyString => if Ascii.eqb a c then EmptyString else String a EmptyString
      | r => String a r
      end
  end.

Definition strip (c : ascii) (s : string) : string := rstrip c (lstrip c s).

(** [s.split(c)]: always at least one piece; an empty text gives [['']]. *)
Fixpoint split (c : ascii) (s : string) : list string :=
  match s with
  | EmptyString => [EmptyString]
  | String a s' =>
      if Ascii.eqb a c then EmptyString :: split c s'
      else match split c s' with
           | h :: t => String a h :: t
           | [] => [String a EmptyString]
           end
  end.

(** [sep.join(parts)] *)
Fixpoint join (sep : string) (parts : list string) : string :=
  match parts with
  | [] => EmptyString
  | [p] => p
  | p :: rest => p ++ sep ++ join sep rest
  end.

(** [c not in s] *)
Fixpoint lacks (c : ascii) (s : string) : bool :=
  match s with
  | EmptyString => true
  | String a s' => negb (Ascii.eqb a c) && lacks c s'
  end.

(** *** [int(text)] and [str(number)] *)

(** White space as [str.isspace] sees it on ASCII: TAB, LF, VT, FF, CR, the
    four separators 28..31 and the blank. *)
Definition is_space (a : ascii) : bool :=
  let n := nat_of_ascii a in
  (Nat.leb 9 n && Nat.leb n 13) || (Nat.leb 28 n && Nat.leb n 32).

Fixpoint lstrip_space (s : string) : string :=
  match s with
  | EmptyString => EmptyString
  | String a s' => if is_space a then lstrip_space s' else s
  end.

Fixpoint rstrip_space (s : string) : string :=
  match s with
  | EmptyString => EmptyString
  | String a s' =>
      match rstrip_space s' with
      | EmptyString => if is_space a then EmptyString else String a EmptyString
      | r => String a r
      end
  end.

Definition digit_of_char (a : ascii) : option (uint -> uint) :=
  match a with
  | "0"%char => Some D0 | "1"%char => Some D1 | "2"%char => Some D2
  | "3"%char => Some D3 | "4"%char => Some D4 | "5"%char => Some D5
  | "6"%char => Some D6 | "7"%char => Some D7 | "8"%char => Some D8
  | "9"%char => Some D9
  | _ => None
  end.

(** The digits of a literal, most significant first.  One underscore may
    stand between two digits; [after_digit] tells whether the character
    just read was a digit. *)
Fixpoint digits (after_digit : bool) (s : string) : option uint :=
  match s with
  | EmptyString => if after_digit then Some Nil else None
  | String a s' =>
      match digit_of_char a with
      | Some d => option_map d (digits true s')
      | None =>
          if Ascii.eqb a "_"%char && after_digit then
            match s' with
            | EmptyString => None
            | String b _ =>
                match digit_of_char b with
                | Some _ => digits false s'
                | None => None
                end
            end
          else None
      end
  end.

(** [int(text)] in base ten: surrounding white space, an optional sign,
    then digits.  [None] is the [ValueError] case.  The interpreter's
    configurable cap on the length of a literal
    ([sys.set_int_max_str_digits]) is not part of the model. *)
Definition py_int (text : string) : option Z :=
  let body := rstrip_space (lstrip_space text) in
  match body with
  | String "-"%char r => option_map (fun d => Z.opp (Z.of_uint d)) (digits false r)
  | String "+"%char r => option_map Z.of_uint (digits false r)
  | _ => option_map Z.of_uint (digits false body)
  end.

(** [str(number)] *)
Definition py_str_int (z : Z) : string := NilZero.string_of_int (Z.to_int z).

(** *** [repr(text)] *)

Definition squote : ascii := ascii_of_nat 39.
Definition dquote : ascii := ascii_of_nat 34.
Definition backslash : ascii := ascii_of_nat 92.

Definition hex_char (n : nat) : ascii :=
  match get n "0123456789abcdef" with
  | Some a => a
  | None => "0"%char
  end.

(** One character of [repr(text)] when the text is quoted with [q]. *)
Definition repr_char (q a : ascii) : string :=
  let n := nat_of_ascii a in
  if Ascii.eqb a q || Ascii.eqb a backslash then String backslash (String a EmptyString)
  else if Nat.eqb n 9 then String backslash "t"
  else if Nat.eqb n 10 then String backslash "n"
  else if Nat.eqb n 13 then String backslash "r"
  else if Nat.ltb n 32 || Nat.eqb n 127 then
    String backslash (String "x" (String (hex_char (n / 16)) (String (hex_char (n mod 16)) EmptyString)))
  else String a EmptyString.

Fixpoint repr_body (q : ascii) (s : string) : string :=
  match s with
  | EmptyString => EmptyString
  | String a s' => repr_char q a ++ repr_body q s'
  end.

(** [repr] of a [str]: single quotes, unless the text holds a single quote
    and no double quote. *)
Definition py_repr (s : string) : string :=
  let q := if negb (lacks squote s) && lacks dquote s then dquote else squote in
  String q (repr_body q s ++ String q EmptyString).

(** [str(e)] for the [ValueError] that [int(text)] raises; the interpreter
    formats the text with [%.200R]. *)
Definition int_literal_message (text : string) : string :=
  "invalid literal for int() with base 10: " ++ substring 0 200 (py_repr text).

(** *** Case conversion, [str.replace] on one character, line ends *)

Definition is_upper (a : ascii) : bool :=
  let n := nat_of_ascii a in Nat.leb 65 n && Nat.leb n 90.
Definition is_lower (a : ascii) : bool :=
  let n := nat_of_ascii a in Nat.leb 97 n && Nat.leb n 122.
Definition to_upper (a : ascii) : ascii :=
  if is_lower a then ascii_of_nat (nat_of_ascii a - 32) else a.
Definition to_lower (a : ascii) : ascii :=
  if is_upper a then ascii_of_nat (nat_of_ascii a + 32) else a.

(** [s.upper()] *)
Fixpoint py_upper (s : string) : string :=
  match s with
  | EmptyString => EmptyString
  | String a s' => String (to_upper a) (py_upper s')
  end.

(** [s.title()]: a letter is put in upper case when the character before
    it is no letter, and in lower case otherwise. *)
Fixpoint title_from (previous_is_cased : bool) (s : string) : string :=
  match s with
  | EmptyString => EmptyString
  | String a s' =>
      let cased := is_upper a || is_lower a in
      String (if cased then (if previous_is_cased then to_lower a else to_upper a)
              else a)
             (title_from cased s')
  end.
Definition py_title (s : string) : string := title_from false s.

(** [s.replace(c, by)] for a one-character [c] *)
Fixpoint replace_char (c : ascii) (by_ : string) (s : string) : string :=
  match s with
  | EmptyString => EmptyString
  | String a s' =>
      if Ascii.eqb a c then by_ ++ replace_char c by_ s'
      else String a (replace_char c by_ s')
  end.

Definition LF : ascii := ascii_of_nat 10.
Definition nl : string := String LF EmptyString.

(** [s.strip()] *)
Definition py_strip (s : string) : string := rstrip_space (lstrip_space s).

(** *** JSON values as the code meets them

    Members of the API's answers are read with [.get] and put into
    f-strings; [JOther] stands for an array, an object or a number with a
    fraction, and carries the name of its Python type and its [str()]. *)
Inductive JVal :=
| JNull
| JBool (b : bool)
| JInt (z : Z)
| JStr (s : string)
| JOther (type_name text : string).

Definition JObj := list (string * JVal).

Fixpoint json_get (d : JObj) (key : string) : option JVal :=
  match d with
  | [] => None
  | (k, v) :: rest => if String.eqb k key then Some v else json_get rest key
  end.

(** [d.get(key, default)] *)
Definition get_default (d : JObj) (key : string) (default : JVal) : JVal :=
  match json_get d key with
  | Some v => v
  | None => default
  end.

(** [d[key]] *)
Definition subscript (d : JObj) (key : string) : Result JVal :=
  match json_get d key with
  | Some v => Ok v
  | None => Raise (mkExn KeyError (py_repr key))
  end.

(** [str(v)], which is what an f-string puts in place of [{v}] *)
Definition py_str (v : JVal) : string :=
  match v with
  | JNull => "None"
  | JBool true => "True"
  | JBool false => "False"
  | JInt z => py_str_int z
  | JStr s => s
  | JOther _ text => text
  end.

Definition type_name_of (v : JVal) : string :=
  match v with
  | JNull => "NoneType"
  | JBool _ => "bool"
  | JInt _ => "int"
  | JStr _ => "str"
  | JOther type_name _ => type_name
  end.

(** [sep.join(parts)] on a list whose items need not be text: the first
    item that is no [str] raises [TypeError]. *)
Fixpoint join_items (index : nat) (sep : string) (parts : list JVal) : Result string :=
  match parts with
  | [] => Ok EmptyString
  | v :: rest =>
      match v with
      | JStr p =>
          match rest with
          | [] => Ok p
          | _ => rbind (join_items (S index) sep rest) (fun r => Ok (p ++ sep ++ r))
          end
      | _ =>
          Raise (mkExn TypeError
                   ("sequence item " ++ py_str_int (Z.of_nat index)
                    ++ ": expected str instance, " ++ type_name_of v ++ " found"))
      end
  end.

(** *** Effects

    A computation runs on a state [S] and either returns or raises; what
    it did to the state before raising stays done. *)
Definition M (S A : Type) : Type := S -> Result A * S.

Definition ret {S A} (a : A) : M S A := fun st => (Ok a, st).

Definition bind {S A B} (c : M S A) (k : A -> M S B) : M S B :=
  fun st =>
    match c st with
    | (Ok a, st') => k a st'
    | (Raise e, st') => (Raise e, st')
    end.

Definition raise {S A} (e : Exn) : M S A := fun st => (Raise e, st).

(** A pure step that may raise. *)
Definition lift {S A} (r : Result A) : M S A := fun st => (r, st).

Definition modify {S} (f : S -> S) : M S unit := fun st => (Ok tt, f st).

Definition gets {S A} (f : S -> A) : M S A := fun st => (Ok (f st), st).

(** [try: body / except Exception as e: handler(e)] *)
Definition try_except {S A} (body : M S A) (handler : Exn -> M S A) : M S A :=
  fun st =>
    match body st with
    | (Ok a, st') => (Ok a, st')
    | (Raise e, st') =>
        if is_Exception (exn_class e) then handler e st' else (Raise e, st')
    end.

End PyBase.

Import PyBase.

Notation "x <- c ;; k" := (bind c (fun x => k))
  (at level 61, c at next level, right associativity).
Notation "c ;; k" := (bind c (fun _ => k))
  (at level 61, right associativity).

(** ** github_client.py *)

Module GitHubClient.

Section ParseIssueUrl.

  (** [urlparse(url).path] of the standard library; [urlparse] itself
      raises [ValueError] on some malformed network locations. *)
Variable urlparse_path : string -> Result string.

  (** [GitHubClient.parse_issue_url] *)
Definition parse_issue_url (issue_url : string) : Result (string * string * Z) :=
    rbind (urlparse_path issue_url) (fun path =>
    let path_parts := split "/" (strip "/" path) in
    if Nat.ltb (length path_parts) 4
       || negb (String.eqb (nth 2 path_parts EmptyString) "issues")
    then Raise (mkExn ValueError ("Invalid GitHub issue URL: " ++ issue_url))
    else
      let owner := nth 0 path_parts EmptyString in
      let repo := nth 1 path_parts EmptyString in
      match py_int (nth 3 path_parts EmptyString) with
      | Some issue_number => Ok (owner, repo, issue_number)
      | None =>
          Raise (mkExn ValueError (int_literal_message (nth 3 path_parts EmptyString)))
      end).

End ParseIssueUrl.

(** A reading of [urlparse(url).path] for URLs of the generic shape
    [scheme://netloc/path?query#fragment], used to run examples: the
    scheme ends at the first colon, the network location runs from the two
    slashes to the next slash, question mark or hash, and the path stops at
    the first semicolon, question mark or hash (which is what [urlparse]
    answers when no path segment but the last holds a semicolon). *)
Fixpoint after_colon (s : string) : option string :=
  match s with
  | EmptyString => None
  | String a s' => if Ascii.eqb a ":"%char then Some s' else after_colon s'
  end.

Definition is_path_end (a : ascii) : bool :=
  Ascii.eqb a "?"%char || Ascii.eqb a "#"%char || Ascii.eqb a ";"%char.

Fixpoint until_path_end (s : string) : string :=
  match s with
  | EmptyString => EmptyString
  | String a s' => if is_path_end a then EmptyString else String a (until_path_end s')
  end.

Fixpoint skip_netloc (s : string) : string :=
  match s with
  | EmptyString => EmptyString
  | String a s' =>
      if Ascii.eqb a "/"%char || Ascii.eqb a "?"%char || Ascii.eqb a "#"%char
      then s else skip_netloc s'
  end.

Definition generic_url_path (url : string) : Result string :=
  let rest := match after_colon url with Some r => r | None => url end in
  let rest := match rest with
              | String "/"%char (String "/"%char r) => skip_netloc r
              | _ => rest
              end in
  Ok (until_path_end rest).

End GitHubClient.

(** ** config.py *)

Module Config.

(** Values of a loaded YAML document, as far as the settings schema goes:
    null, booleans, integers, text and mappings. *)
#[local] Set Warnings "-register-all".
Inductive PyVal :=
| VNone
| VBool (b : bool)
| VInt (z : Z)
| VStr (s : string)
| VDict (items : list (string * PyVal)).

(** A [dict] keeps its keys in insertion order. *)
Definition Dict := list (string * PyVal).

Fixpoint dict_get (d : Dict) (key : string) : option PyVal :=
  match d with
  | [] => None
  | (k, v) :: rest => if String.eqb k key then Some v else dict_get rest key
  end.

(** [d[key] = value] *)
Fixpoint dict_set (d : Dict) (key : string) (value : PyVal) : Dict :=
  match d with
  | [] => [(key, value)]
  | (k, v) :: rest =>
      if String.eqb k key then (k, value) :: rest
      else (k, v) :: dict_set rest key value
  end.

(** [merge_dict] was handed a [base] that is no mapping and had to store
    under [key]: the membership test, [.get] or the item assignment raises
    ([TypeError] or [AttributeError]). *)
Inductive MergeError := NotAMapping (base : PyVal) (key : string).

Section MergeLoop.

(** The recursive call of [merge_dict]. *)
Variable merge_rec : PyVal -> PyVal -> MergeError + PyVal.

(** The [for key, value in override.items()] loop, [base] being updated
    in place. *)
Fixpoint merge_items (base : PyVal) (items : list (string * PyVal))
  : MergeError + PyVal :=
  match items with
  | [] => inr base
  | (key, value) :: rest =>
      match value with
      | VNone => merge_items base rest
      | _ =>
          match base with
          | VDict b =>
              match value, dict_get b key with
              | VDict _, Some sub =>
                  match merge_rec sub value with
                  | inr merged => merge_items (VDict (dict_set b key merged)) rest
                  | inl e => inl e
                  end
              | _, _ => merge_items (VDict (dict_set b key value)) rest
              end
          | _ => inl (NotAMapping base key)
          end
      end
  end.

End MergeLoop.

(** [merge_dict(base, override)], the closure of [load_from_file]; it is
    only ever applied to a mapping [override]. *)
Fixpoint merge_dict (base override : PyVal) {struct override} : MergeError + PyVal :=
  match override with
  | VDict items => merge_items merge_dict base items
  | _ => inr base
  end.

(** [os.getenv] *)
Definition Env := string -> option string.

Definition getenv (env : Env) (name : string) : PyVal :=
  match env name with
  | Some s => VStr s
  | None => VNone
  end.

Definition env_overrides (env : Env) : PyVal :=
  VDict
    [ ("claude", VDict [ ("api_key", getenv env "ANTHROPIC_API_KEY");
                         ("model", getenv env "CLAUDE_MODEL") ]);
      ("github", VDict [ ("token", getenv env "GITHUB_TOKEN") ]);
      ("notifications",
        VDict [ ("discord", VDict [ ("webhook_url", getenv env "DISCORD_WEBHOOK_URL");
                                    ("bot_token", getenv env "DISCORD_BOT_TOKEN");
                                    ("channel_id", getenv env "DISCORD_CHANNEL_ID") ]);
                ("email", VDict [ ("smtp_server", getenv env "SMTP_SERVER");
                                  ("username", getenv env "SMTP_USERNAME");
                                  ("password", getenv env "SMTP_PASSWORD");
                                  ("to_email", getenv env "EMAIL_TO") ]) ]) ].

(** *** The settings classes *)

Record ClaudeConfig := {
  api_key : string;
  model : string;
  max_tokens : Z }.

Record GitHubConfig := {
  token : string;
  default_branch : string }.

Record DiscordConfig := {
  discord_enabled : bool;
  webhook_url : option string;
  bot_token : option string;
  channel_id : option string }.

Record EmailConfig := {
  email_enabled : bool;
  smtp_server : option string;
  smtp_port : Z;
  username : option string;
  password : option string;
  to_email : option string }.

Record NotificationConfig := {
  discord : DiscordConfig;
  email : EmailConfig }.

Record DevelopmentConfig := {
  clone_dir : string;
  max_session_time : Z;
  auto_create_pr : bool;
  pr_draft : bool }.

Record LoggingConfig := {
  level : string;
  format : string;
  file : string }.

Record Config := {
  claude : ClaudeConfig;
  github : GitHubConfig;
  notifications : NotificationConfig;
  development : DevelopmentConfig;
  logging : LoggingConfig }.

(** *** Validation by the model classes

    A validation error names the location of every offending field.  A
    field accepts a value of its declared type; pydantic's coercions
    between types, which differ from one release to the next, are not
    modelled and count as rejections.  Keys the class does not declare are
    ignored. *)
Definition Loc := list string.

Inductive Validated (A : Type) :=
| Valid (a : A)
| Invalid (errors : list Loc).
Arguments Valid {A} a.
Arguments Invalid {A} errors.

Definition vap {A B} (f : Validated (A -> B)) (x : Validated A) : Validated B :=
  match f, x with
  | Valid g, Valid a => Valid (g a)
  | Valid _, Invalid e => Invalid e
  | Invalid e, Valid _ => Invalid e
  | Invalid e1, Invalid e2 => Invalid (e1 ++ e2)%list
  end.

(** A field [name: T] without default ([default = None]) or [name: T = x]. *)
Definition field {A} (accept : PyVal -> option A) (loc : Loc) (d : Dict)
  (name : string) (default : option A) : Validated A :=
  match dict_get d name with
  | None =>
      match default with
      | Some x => Valid x
      | None => Invalid [(loc ++ [name])%list]
      end
  | Some v =>
      match accept v with
      | Some x => Valid x
      | None => Invalid [(loc ++ [name])%list]
      end
  end.

Definition as_str (v : PyVal) : option string :=
  match v with VStr s => Some s | _ => None end.
Definition as_int (v : PyVal) : option Z :=
  match v with VInt z => Some z | _ => None end.
Definition as_bool (v : PyVal) : option bool :=
  match v with VBool b => Some b | _ => None end.
(** [Optional[str]] *)
Definition as_opt_str (v : PyVal) : option (option string) :=
  match v with VNone => Some None | VStr s => Some (Some s) | _ => None end.

(** A field whose type is a model class: the input has to be a mapping. *)
Definition submodel {A} (validate : Loc -> Dict -> Validated A) (loc : Loc)
  (d : Dict) (name : string) (default : option A) : Validated A :=
  match dict_get d name with
  | None =>
      match default with
      | Some x => Valid x
      | None => Invalid [(loc ++ [name])%list]
      end
  | Some (VDict sub) => validate (loc ++ [name])%list sub
  | Some _ => Invalid [(loc ++ [name])%list]
  end.

Definition validate_ClaudeConfig (loc : Loc) (d : Dict) : Validated ClaudeConfig :=
  vap (vap (vap (Valid Build_ClaudeConfig)
    (field as_str loc d "api_key" None))
    (field as_str loc d "model" (Some "claude-3-sonnet-20240229")))
    (field as_int loc d "max_tokens" (Some 4000%Z)).

Definition validate_GitHubConfig (loc : Loc) (d : Dict) : Validated GitHubConfig :=
  vap (vap (Valid Build_GitHubConfig)
    (field as_str loc d "token" None))
    (field as_str loc d "default_branch" (Some "main")).

Definition validate_DiscordConfig (loc : Loc) (d : Dict) : Validated DiscordConfig :=
  vap (vap (vap (vap (Valid Build_DiscordConfig)
    (field as_bool loc d "enabled" (Some false)))
    (field as_opt_str loc d "webhook_url" (Some None)))
    (field as_opt_str loc d "bot_token" (Some None)))
    (field as_opt_str loc d "channel_id" (Some None)).

Definition validate_EmailConfig (loc : Loc) (d : Dict) : Validated EmailConfig :=
  vap (vap (vap (vap (vap (vap (Valid Build_EmailConfig)
    (field as_bool loc d "enabled" (Some false)))
    (field as_opt_str loc d "smtp_server" (Some None)))
    (field as_int loc d "smtp_port" (Some 587%Z)))
    (field as_opt_str loc d "username" (Some None)))
    (field as_opt_str loc d "password" (Some None)))
    (field as_opt_str loc d "to_email" (Some None)).

Definition default_DiscordConfig : DiscordConfig :=
  Build_DiscordConfig false None None None.
Definition default_EmailConfig : EmailConfig :=
  Build_EmailConfig false None 587%Z None None None.
Definition default_NotificationConfig : NotificationConfig :=
  Build_NotificationConfig default_DiscordConfig default_EmailConfig.
Definition default_DevelopmentConfig : DevelopmentConfig :=
  Build_DevelopmentConfig "/tmp/claudeforge-repos" 3600%Z true false.
Definition default_LoggingConfig : LoggingConfig :=
  Build_LoggingConfig "INFO"
    "%(asctime)s - %(name)s - %(levelname)s - %(message)s" "claudeforge.log".

Definition validate_NotificationConfig (loc : Loc) (d : Dict)
  : Validated NotificationConfig :=
  vap (vap (Valid Build_NotificationConfig)
    (submodel validate_DiscordConfig loc d "discord" (Some default_DiscordConfig)))
    (submodel validate_EmailConfig loc d "email" (Some default_EmailConfig)).

Definition validate_DevelopmentConfig (loc : Loc) (d : Dict)
  : Validated DevelopmentConfig :=
  vap (vap (vap (vap (Valid Build_DevelopmentConfig)
    (field as_str loc d "clone_dir" (Some "/tmp/claudeforge-repos")))
    (field as_int loc d "max_session_time" (Some 3600%Z)))
    (field as_bool loc d "auto_create_pr" (Some true)))
    (field as_bool loc d "pr_draft" (Some false)).

Definition validate_LoggingConfig (loc : Loc) (d : Dict) : Validated LoggingConfig :=
  vap (vap (vap (Valid Build_LoggingConfig)
    (field as_str loc d "level" (Some "INFO")))
    (field as_str loc d "format"
       (Some "%(asctime)s - %(name)s - %(levelname)s - %(message)s")))
    (field as_str loc d "file" (Some "claudeforge.log")).

(** The constructor call that ends [load_from_file], [config_data] being
    passed as keyword arguments. *)
Definition validate_Config (d : Dict) : Validated Config :=
  vap (vap (vap (vap (vap (Valid Build_Config)
    (submodel validate_ClaudeConfig [] d "claude" None))
    (submodel validate_GitHubConfig [] d "github" None))
    (submodel validate_NotificationConfig [] d "notifications"
       (Some default_NotificationConfig)))
    (submodel validate_DevelopmentConfig [] d "development"
       (Some default_DevelopmentConfig)))
    (submodel validate_LoggingConfig [] d "logging" (Some default_LoggingConfig)).

Inductive LoadOutcome :=
| Loaded (config : Config)
| RaisedValidationError (errors : list Loc)
| RaisedInMerge (e : MergeError)
| RaisedNotAMapping.

(** [Config.load_from_file].  [file] is the document [yaml.safe_load]
    returns, or [None] when no path is given or the path does not exist. *)
Definition load_from_file (file : option PyVal) (env : Env) : LoadOutcome :=
  let config_data := match file with
                     | Some data => data
                     | None => VDict []
                     end in
  match merge_dict config_data (env_overrides env) with
  | inl e => RaisedInMerge e
  | inr (VDict d) =>
      match validate_Config d with
      | Valid config => Loaded config
      | Invalid errors => RaisedValidationError errors
      end
  | inr _ => RaisedNotAMapping
  end.

(** Attribute reads on a [ClaudeConfig] object: the class declares three
    fields, and any other name raises [AttributeError]. *)
Inductive AttrValue := AStr (s : string) | AInt (z : Z).

Definition getattr_ClaudeConfig (c : ClaudeConfig) (name : string) : Result AttrValue :=
  if String.eqb name "api_key" then Ok (AStr (api_key c))
  else if String.eqb name "model" then Ok (AStr (model c))
  else if String.eqb name "max_tokens" then Ok (AInt (max_tokens c))
  else Raise (mkExn AttributeError
                ("'ClaudeConfig' object has no attribute " ++ py_repr name)).

End Config.

(** ** claude_session.py *)

Module ClaudeSession.

(** Truth value of an optional mapping: [None] and the empty mapping are
    false. *)
Definition truthy (d : option JObj) : bool :=
  match d with
  | Some (_ :: _) => true
  | _ => false
  end.

Definition get_of (d : option JObj) (key : string) (default : JVal) : JVal :=
  match d with
  | Some o => get_default o key default
  | None => default
  end.

(** [list.extend] *)
Definition extend {A} (l more : list A) : list A := (l ++ more)%list.

(** [ClaudeSession.create_instruction_prompt] *)
Definition create_instruction_prompt (instruction : string)
  (issue_data repo_data : option JObj) : Result string :=
  let prompt_parts :=
    [ JStr "You are an autonomous software development assistant working on a GitHub repository.";
      JStr EmptyString;
      JStr ("Primary Instruction: " ++ instruction);
      JStr EmptyString ] in
  let prompt_parts :=
    if truthy issue_data then
      extend prompt_parts
        [ JStr "GitHub Issue Context:";
          JStr ("Title: " ++ py_str (get_of issue_data "title" (JStr "N/A")));
          JStr ("Number: #" ++ py_str (get_of issue_data "number" (JStr "N/A")));
          JStr ("State: " ++ py_str (get_of issue_data "state" (JStr "N/A")));
          JStr EmptyString;
          JStr "Issue Description:";
          get_of issue_data "body" (JStr "No description provided.");
          JStr EmptyString ]
    else prompt_parts in
  let prompt_parts :=
    if truthy repo_data then
      extend prompt_parts
        [ JStr "Repository Context:";
          JStr ("Name: " ++ py_str (get_of repo_data "full_name" (JStr "N/A")));
          JStr ("Description: " ++ py_str (get_of repo_data "description" (JStr "N/A")));
          JStr ("Language: " ++ py_str (get_of repo_data "language" (JStr "N/A")));
          JStr ("Default Branch: " ++ py_str (get_of repo_data "default_branch" (JStr "main")));
          JStr EmptyString ]
    else prompt_parts in
  let prompt_parts :=
    extend prompt_parts
      [ JStr "Your Task:";
        JStr "1. Analyze the codebase and understand the current implementation";
        JStr "2. Implement the requested changes or fixes";
        JStr "3. Ensure code quality and follow existing patterns";
        JStr "4. Write or update tests as appropriate";
        JStr "5. Make sure the changes work correctly";
        JStr EmptyString;
        JStr "Work autonomously and systematically. Create a plan and execute it step by step.";
        JStr "Focus on delivering a complete, working solution." ] in
  join_items 0 nl prompt_parts.

(** A directory: [Path(text)] or [parent / name]. *)
Inductive Path :=
| PathOf (text : string)
| Child (parent : Path) (name : string).

(** The arguments of [subprocess.run]. *)
Record SubprocessCall := {
  cmd : list string;
  cwd : Path;
  capture_output : bool;
  text : bool;
  timeout : Z;
  env : list (string * string) }.

Record CompletedProcess := {
  returncode : Z;
  stdout : string;
  stderr : string }.

(** The value handed over as [max_time]: whatever the attribute read
    yielded. *)
Definition str_of_attr (v : Config.AttrValue) : string :=
  match v with
  | Config.AStr s => s
  | Config.AInt z => py_str_int z
  end.

(** [max_time + 60] *)
Definition plus_60 (v : Config.AttrValue) : Result Z :=
  match v with
  | Config.AInt z => Ok (z + 60)%Z
  | Config.AStr _ =>
      Raise (mkExn TypeError
               ("can only concatenate str (not " ++ String dquote "int"
                ++ String dquote ") to str"))
  end.

(** [ClaudeSession.run_claude_code_session].  [run] is [subprocess.run];
    both handlers of the method log and raise again, so whatever is raised
    inside the [try] leaves the method unchanged. *)
Definition run_claude_code_session {S}
  (run : SubprocessCall -> M S CompletedProcess)
  (repo_path : Path) (instruction : string) (max_time : Config.AttrValue)
  : M S CompletedProcess :=
  try_except
    (let cmd := ["claude-code"; "--"; instruction] in
     let env := [ ("CLAUDE_CODE_NON_INTERACTIVE", "1");
                  ("CLAUDE_CODE_TIMEOUT", str_of_attr max_time) ] in
     limit <- lift (plus_60 max_time) ;;
     result <- run {| cmd := cmd; cwd := repo_path; capture_output := true;
                      text := true; timeout := limit; env := env |} ;;
     ret result)
    (fun e => raise e).

(** The default of the [max_time] parameter. *)
Definition default_max_time : Z := 3600.

Record Analysis := {
  a_success : bool;
  return_code : Z;
  a_stdout : string;
  a_stderr : string;
  summary : string;
  changes_made : list string;
  errors : list string }.

(** [ClaudeSession.analyze_session_output] *)
Definition analyze_session_output (result : CompletedProcess) : Analysis :=
  let analysis :=
    {| a_success := Z.eqb (returncode result) 0;
       return_code := returncode result;
       a_stdout := stdout result;
       a_stderr := stderr result;
       summary := EmptyString;
       changes_made := [];
       errors := [] |} in
  if Z.eqb (returncode result) 0 then
    {| a_success := a_success analysis; return_code := return_code analysis;
       a_stdout := a_stdout analysis; a_stderr := a_stderr analysis;
       summary := "Claude Code session completed successfully";
       changes_made := changes_made analysis; errors := errors analysis |}
  else
    {| a_success := a_success analysis; return_code := return_code analysis;
       a_stdout := a_stdout analysis; a_stderr := a_stderr analysis;
       summary := "Claude Code session failed with return code "
                  ++ py_str_int (returncode result);
       changes_made := changes_made analysis;
       errors := (errors analysis ++ [stderr result])%list |}.

End ClaudeSession.

(** ** notifications.py *)

Module Notifications.

(** The [details] mapping: each recognised key is present or absent. *)
Record Details := {
  d_timestamp : option string;
  d_summary : option string;
  d_changes : option (list string);
  d_pr_url : option JVal;
  d_errors : option (list string);
  d_repository : option JVal;
  d_branch : option string }.

Definition no_details : Details :=
  {| d_timestamp := None; d_summary := None; d_changes := None;
     d_pr_url := None; d_errors := None; d_repository := None;
     d_branch := None |}.

Record EmbedField := {
  name : string;
  value : JVal;
  inline : bool }.

Record Embed := {
  title : string;
  color : Z;
  fields : list EmbedField;
  timestamp : string;
  description : option string }.

Record WebhookPayload := {
  content : string;
  embeds : option (list Embed) }.

Record DiscordNotifier := {
  webhook_url : option string;
  bot_token : option string }.

(** [DiscordNotifier.create_session_embed] *)
Definition create_session_embed (status issue_url : string) (details : Details)
  : Embed :=
  let color :=
    if String.eqb status "success" then 65280%Z
    else if String.eqb status "error" then 16711680%Z
    else 16755200%Z in
  let fields :=
    [ {| name := "Issue URL"; value := JStr issue_url; inline := false |};
      {| name := "Status"; value := JStr status; inline := true |} ] in
  let description := d_summary details in
  let fields :=
    match d_changes details with
    | Some (c :: cs) =>
        let changes_text := join nl (firstn 5 (c :: cs)) in
        (fields ++ [ {| name := "Changes Made"; value := JStr changes_text;
                        inline := false |} ])%list
    | _ => fields
    end in
  let fields :=
    match d_pr_url details with
    | Some pr_url =>
        (fields ++ [ {| name := "Pull Request"; value := pr_url;
                        inline := false |} ])%list
    | None => fields
    end in
  {| title := "ClaudeForge Session " ++ py_title status;
     color := color;
     fields := fields;
     timestamp := match d_timestamp details with
                  | Some t => t
                  | None => EmptyString
                  end;
     description := description |}.

Definition is_empty (s : string) : bool :=
  match s with EmptyString => true | _ => false end.

(** [DiscordNotifier.send_webhook_message].  [post] is the HTTP POST
    together with [raise_for_status]. *)
Definition send_webhook_message {S}
  (post : string -> WebhookPayload -> M S unit)
  (self : DiscordNotifier) (message : string) (embed : option Embed) : M S bool :=
  match webhook_url self with
  | None => ret false
  | Some url =>
      if is_empty url then ret false
      else
        try_except
          (let payload :=
             {| content := message;
                embeds := match embed with
                          | Some e => Some [e]
                          | None => None
                          end |} in
           post url payload ;;
           ret true)
          (fun _ => ret false)
  end.

Record EmailNotifier := {
  smtp_server : option string;
  smtp_port : Z;
  username : option string;
  password : option string;
  from_email : option string }.

Definition bullet (x : string) : string := "- " ++ x.

(** [EmailNotifier.create_session_email]: subject, plain body, HTML body *)
Definition create_session_email (status issue_url : string) (details : Details)
  : string * string * string :=
  let subject := "ClaudeForge Session " ++ py_title status ++ " - " ++ issue_url in
  let body_parts :=
    [ "ClaudeForge Session Status: " ++ py_upper status;
      EmptyString;
      "Issue URL: " ++ issue_url;
      EmptyString ] in
  let body_parts :=
    match d_summary details with
    | Some summary => (body_parts ++ ["Summary:"; summary; EmptyString])%list
    | None => body_parts
    end in
  let body_parts :=
    match d_changes details with
    | Some (c :: cs) =>
        (body_parts ++ ["Changes Made:"] ++ map bullet (c :: cs) ++ [EmptyString])%list
    | _ => body_parts
    end in
  let body_parts :=
    match d_pr_url details with
    | Some pr_url =>
        (body_parts ++ [("Pull Request: " ++ py_str pr_url)%string; EmptyString])%list
    | None => body_parts
    end in
  let body_parts :=
    match d_errors details with
    | Some (e :: es) =>
        (body_parts ++ ["Errors:"] ++ map bullet (e :: es) ++ [EmptyString])%list
    | _ => body_parts
    end in
  let body_parts := (body_parts ++ ["Generated by ClaudeForge"])%list in
  let body := join nl body_parts in
  let html_body := replace_char LF "<br>" body in
  (subject, body, html_body).

Record EmailMessage := {
  m_subject : string;
  m_from : option string;
  m_to : string;
  m_plain : string;
  m_html : option string }.

(** [EmailNotifier.send_email].  [smtp] is the SMTP session (connect,
    STARTTLS, login, send). *)
Definition send_email {S}
  (smtp : EmailNotifier -> EmailMessage -> M S unit)
  (self : EmailNotifier) (to_email subject body : string)
  (html_body : option string) : M S bool :=
  try_except
    (let msg :=
       {| m_subject := subject; m_from := from_email self; m_to := to_email;
          m_plain := body;
          m_html := match html_body with
                    | Some h => if is_empty h then None else Some h
                    | None => None
                    end |} in
     smtp self msg ;;
     ret true)
    (fun _ => ret false).

Record NotificationManager := {
  discord : option DiscordNotifier;
  email : option EmailNotifier }.

(** [NotificationManager.__init__] *)
Definition init (config : Config.Config) : NotificationManager :=
  let discord_config := Config.discord (Config.notifications config) in
  let email_config := Config.email (Config.notifications config) in
  {| discord :=
       if Config.discord_enabled discord_config then
         Some {| webhook_url := Config.webhook_url discord_config;
                 bot_token := Config.bot_token discord_config |}
       else None;
     email :=
       if Config.email_enabled email_config then
         Some {| smtp_server := Config.smtp_server email_config;
                 smtp_port := Config.smtp_port email_config;
                 username := Config.username email_config;
                 password := Config.password email_config;
                 from_email := Config.username email_config |}
       else None |}.

(** [NotificationManager.notify_session_status].  For the email channel
    the method builds the message and stops there: the call of
    [send_email] is commented out in the source. *)
Definition notify_session_status {S}
  (post : string -> WebhookPayload -> M S unit)
  (self : NotificationManager) (status issue_url : string) (details : Details)
  : M S unit :=
  match discord self with
  | Some d =>
      let embed := create_session_embed status issue_url details in
      let message := "ClaudeForge session " ++ status ++ " for " ++ issue_url in
      send_webhook_message post d message (Some embed) ;; ret tt
  | None => ret tt
  end ;;
  match email self with
  | Some e =>
      let '(subject, body, html_body) := create_session_email status issue_url details in
      ret tt
  | None => ret tt
  end.

End Notifications.

(** ** orchestrator.py

    A session is one sequential computation: every [await] of the source
    is waited for on the spot, so the coroutines are modelled by ordinary
    calls.  Calls to the logger are left out; they change neither the
    result nor the calls that leave the process. *)

Module Orchestrator.
Import ClaudeSession Notifications.

(** What the code observes of a [datetime]: [isoformat()],
    [int(timestamp())], and the wall-clock reading in microseconds that
    the difference of two values is computed from. *)
Record DateTime := {
  isoformat : string;
  timestamp_int : Z;
  wall_micro : Z }.

(** Calls that leave the process. *)
Inductive Event :=
| EvGetIssue (owner repo : string) (issue_number : Z)
| EvGetRepository (owner repo : string)
| EvMkdir (dir : Path)
| EvCloneRepository (clone_url : JVal) (local_path : Path) (branch : JVal)
| EvCreateBranch (branch_name : string) (base_branch : JVal)
| EvWebhookPost (url : string) (payload : WebhookPayload)
| EvSmtpSend (notifier : EmailNotifier) (msg : EmailMessage)
| EvSubprocessRun (call : SubprocessCall)
| EvIsDirty
| EvUntrackedFiles
| EvGitAdd (pathspec : string)
| EvCommit (message : string)
| EvPushChanges (branch_name : string)
| EvCreatePullRequest (owner repo title body head_branch : string)
    (base_branch : JVal) (draft : bool)
| EvAddCommentToIssue (owner repo : string) (issue_number : Z) (comment : string).

(** The behaviour of everything outside the process during one session.
    The gateway, the working tree and the assistant are each called at most
    once in a session, so their behaviour there is one answer; the clock is
    asked by the number of earlier readings, and a message delivery is
    answered by the calls made so far (the delivery itself first). *)
Record World := {
  w_now : nat -> DateTime;
  w_get_issue : Result JObj;
  w_get_repository : Result JObj;
  w_mkdir : Result unit;
  w_clone_repository : Result unit;
  w_create_branch : Result unit;
  w_post : list Event -> Result unit;
  w_smtp : list Event -> Result unit;
  w_subprocess_run : Result CompletedProcess;
  w_is_dirty : Result bool;
  w_untracked_files : Result (list string);
  w_git_add : Result unit;
  w_commit : Result unit;
  w_push_changes : Result unit;
  w_create_pull_request : Result JObj;
  w_add_comment_to_issue : Result JObj }.

(** The [result] mapping of [run_session]; [None] is an absent key.
    [duration_micro] stands for [duration_seconds], counted in microseconds
    instead of as a float. *)
Record SessionResult := {
  success : bool;
  issue_url : string;
  start_time : string;
  r_instruction : string;
  error : option string;
  details : option Analysis;
  r_branch_name : option string;
  pr_url : option JVal;
  changes_committed : option bool;
  session_analysis : option Analysis;
  message : option string;
  end_time : option string;
  duration_micro : option Z }.

(** The calls made so far (latest first), the number of clock readings,
    the [result] mapping and [self.current_repo_path]. *)
Record St := {
  trace : list Event;
  clock_reads : nat;
  result : SessionResult;
  current_repo_path : option Path }.

Definition Run := M St.

Definition record (ev : Event) (st : St) : St :=
  {| trace := ev :: trace st; clock_reads := clock_reads st;
     result := result st; current_repo_path := current_repo_path st |}.

(** One call to the outside: it is recorded, then answered. *)
Definition call {A} (ev : Event) (answer : Result A) : Run A :=
  fun st => (answer, record ev st).

(** A delivery: answered by the history. *)
Definition deliver (ev : Event) (answer : list Event -> Result unit) : Run unit :=
  fun st => (answer (ev :: trace st), record ev st).

Definition set_result (r : SessionResult) (st : St) : St :=
  {| trace := trace st; clock_reads := clock_reads st;
     result := r; current_repo_path := current_repo_path st |}.

Definition update_result (f : SessionResult -> SessionResult) : Run unit :=
  modify (fun st => set_result (f (result st)) st).

Definition set_current_repo_path (p : Path) : Run unit :=
  modify (fun st =>
    {| trace := trace st; clock_reads := clock_reads st;
       result := result st; current_repo_path := Some p |}).

(** What the session has worked out once the branch exists and the start
    has been announced. *)
Record Prepared := {
  p_owner : string;
  p_repo : string;
  p_issue_number : Z;
  p_repo_data : JObj;
  p_branch_name : string;
  p_repo_path : Path;
  p_full_instruction : string }.

Section Session.

Variable w : World.

(** [urlparse(url).path], see [GitHubClient]. *)
Variable urlparse_path : string -> Result string.

(** Attribute lookup on the object held in [config.claude].  For the class
    that config.py declares it is [Config.getattr_ClaudeConfig]. *)
Variable claude_getattr : Config.ClaudeConfig -> string -> Result Config.AttrValue.

(** [datetime.now()] *)
Definition now : Run DateTime :=
  fun st =>
    (Ok (w_now w (clock_reads st)),
     {| trace := trace st; clock_reads := S (clock_reads st);
        result := result st; current_repo_path := current_repo_path st |}).

Definition post (url : string) (payload : WebhookPayload) : Run unit :=
  deliver (EvWebhookPost url payload) (w_post w).

Definition smtp (notifier : EmailNotifier) (msg : EmailMessage) : Run unit :=
  deliver (EvSmtpSend notifier msg) (w_smtp w).

Definition subprocess_run (c : SubprocessCall) : Run CompletedProcess :=
  call (EvSubprocessRun c) (w_subprocess_run w).

Record ClaudeForgeOrchestrator := {
  config : Config.Config;
  notification_manager : NotificationManager }.

(** [ClaudeForgeOrchestrator.__init__] *)
Definition init (config : Config.Config) : ClaudeForgeOrchestrator :=
  {| config := config; notification_manager := Notifications.init config |}.

Definition notify (self : ClaudeForgeOrchestrator) (status issue_url : string)
  (details : Details) : Run unit :=
  notify_session_status post (notification_manager self) status issue_url details.

(** [not branch_name] *)
Definition no_branch_name (branch_name : option string) : bool :=
  match branch_name with
  | None => true
  | Some b => is_empty b
  end.

Definition robot : string :=
  String (ascii_of_nat 240) (String (ascii_of_nat 159)
    (String (ascii_of_nat 164) (String (ascii_of_nat 150) EmptyString))).

Definition pr_body_text (issue_url instruction : string) (analysis : Analysis)
  (issue_number : Z) : string :=
  nl ++ "## ClaudeForge Automated Changes" ++ nl
  ++ nl
  ++ "**Issue:** " ++ issue_url ++ nl
  ++ "**Instruction:** " ++ instruction ++ nl
  ++ nl
  ++ "### Summary" ++ nl
  ++ summary analysis ++ nl
  ++ nl
  ++ "### Changes Made" ++ nl
  ++ "- Automated implementation using Claude Code" ++ nl
  ++ "- Resolves issue #" ++ py_str_int issue_number ++ nl
  ++ nl
  ++ "---" ++ nl
  ++ "*This pull request was automatically created by ClaudeForge*" ++ nl.

(** Lines 46 to 95: parse, fetch, clone, branch, prompt, start
    notification. *)
Definition prepare (self : ClaudeForgeOrchestrator) (session_start : DateTime)
  (issue_url instruction : string) (branch_name : option string)
  : Run Prepared :=
  parsed <- lift (GitHubClient.parse_issue_url urlparse_path issue_url) ;;
  let '(owner, repo, issue_number) := parsed in
  issue_data <- call (EvGetIssue owner repo issue_number) (w_get_issue w) ;;
  repo_data <- call (EvGetRepository owner repo) (w_get_repository w) ;;
  let branch_name :=
    if no_branch_name branch_name then
      "claudeforge-issue-" ++ py_str_int issue_number ++ "-"
      ++ py_str_int (timestamp_int session_start)
    else match branch_name with Some b => b | None => EmptyString end in
  let clone_dir := PathOf (Config.clone_dir (Config.development (config self))) in
  call (EvMkdir clone_dir) (w_mkdir w) ;;
  let repo_path :=
    Child clone_dir (repo ++ "-" ++ py_str_int (timestamp_int session_start)) in
  set_current_repo_path repo_path ;;
  clone_url <- lift (subscript repo_data "clone_url") ;;
  call (EvCloneRepository clone_url repo_path
          (get_default repo_data "default_branch" (JStr "main")))
       (w_clone_repository w) ;;
  call (EvCreateBranch branch_name
          (get_default repo_data "default_branch" (JStr "main")))
       (w_create_branch w) ;;
  full_instruction <-
    lift (create_instruction_prompt instruction (Some issue_data) (Some repo_data)) ;;
  full_name <- lift (subscript repo_data "full_name") ;;
  notify self "started" issue_url
    {| d_timestamp := Some (isoformat session_start);
       d_summary := Some ("Started working on issue #" ++ py_str_int issue_number
                          ++ ": " ++ py_str (get_default issue_data "title" (JStr "N/A")));
       d_changes := None; d_pr_url := None; d_errors := None;
       d_repository := Some full_name;
       d_branch := Some branch_name |} ;;
  ret {| p_owner := owner; p_repo := repo; p_issue_number := issue_number;
         p_repo_data := repo_data; p_branch_name := branch_name;
         p_repo_path := repo_path; p_full_instruction := full_instruction |}.

(** Lines 138 to 180: the pull request and the comment on the issue. *)
Definition pull_request_step (self : ClaudeForgeOrchestrator)
  (issue_url instruction : string) (p : Prepared) (analysis : Analysis)
  (create_pr draft_pr : bool) : Run JVal :=
  if create_pr && Config.auto_create_pr (Config.development (config self)) then
    let pr_title := "ClaudeForge: " ++ instruction in
    let pr_body :=
      pr_body_text issue_url instruction analysis (p_issue_number p) in
    pr_data <- call (EvCreatePullRequest (p_owner p) (p_repo p) pr_title
                       (py_strip pr_body) (p_branch_name p)
                       (get_default (p_repo_data p) "default_branch" (JStr "main"))
                       draft_pr)
                    (w_create_pull_request w) ;;
    pr_url <- lift (subscript pr_data "html_url") ;;
    call (EvAddCommentToIssue (p_owner p) (p_repo p) (p_issue_number p)
            (robot ++ " ClaudeForge has created a pull request to address this issue: "
             ++ py_str pr_url))
         (w_add_comment_to_issue w) ;;
    ret pr_url
  else ret JNull.

(** [git_repo.is_dirty() or git_repo.untracked_files] *)
Definition has_changes : Run bool :=
  dirty <- call EvIsDirty (w_is_dirty w) ;;
  if dirty : bool then ret true
  else
    untracked <- call EvUntrackedFiles (w_untracked_files w) ;;
    ret (match untracked with [] => false | _ => true end).

(** Lines 126 to 201: commit, push, pull request, success notification. *)
Definition commit_and_publish (self : ClaudeForgeOrchestrator)
  (issue_url instruction : string) (p : Prepared) (analysis : Analysis)
  (create_pr draft_pr : bool) : Run unit :=
  call (EvGitAdd ".") (w_git_add w) ;;
  call (EvCommit ("ClaudeForge: " ++ instruction ++ nl ++ nl
                  ++ "Resolves #" ++ py_str_int (p_issue_number p)))
       (w_commit w) ;;
  call (EvPushChanges (p_branch_name p)) (w_push_changes w) ;;
  pr_url <- pull_request_step self issue_url instruction p analysis
              create_pr draft_pr ;;
  update_result (fun r =>
    {| success := true; issue_url := Orchestrator.issue_url r;
       start_time := start_time r; r_instruction := r_instruction r;
       error := error r; details := details r;
       r_branch_name := Some (p_branch_name p);
       pr_url := Some pr_url;
       changes_committed := Some true;
       session_analysis := Some analysis;
       message := message r; end_time := end_time r;
       duration_micro := duration_micro r |}) ;;
  t <- now ;;
  notify self "success" issue_url
    {| d_timestamp := Some (isoformat t);
       d_summary := Some ("Successfully completed work on issue #"
                          ++ py_str_int (p_issue_number p));
       d_changes := Some (changes_made analysis);
       d_pr_url := Some pr_url;
       d_errors := None;
       d_repository := None;
       d_branch := Some (p_branch_name p) |}.

(** Lines 203 to 218: nothing to commit. *)
Definition no_changes (self : ClaudeForgeOrchestrator) (issue_url : string)
  : Run unit :=
  update_result (fun r =>
    {| success := true; issue_url := Orchestrator.issue_url r;
       start_time := start_time r; r_instruction := r_instruction r;
       error := error r; details := details r;
       r_branch_name := r_branch_name r;
       pr_url := pr_url r;
       changes_committed := Some false;
       session_analysis := session_analysis r;
       message := Some "No changes were made to the repository";
       end_time := end_time r;
       duration_micro := duration_micro r |}) ;;
  t <- now ;;
  notify self "completed" issue_url
    {| d_timestamp := Some (isoformat t);
       d_summary := Some "Session completed but no changes were made";
       d_changes := None; d_pr_url := None; d_errors := None;
       d_repository := None; d_branch := None |}.

(** Lines 124 to 224: what follows a run classified as successful. *)
Definition after_success (self : ClaudeForgeOrchestrator)
  (session_start : DateTime) (issue_url instruction : string) (p : Prepared)
  (analysis : Analysis) (create_pr draft_pr : bool) : Run unit :=
  changed <- has_changes ;;
  (if changed : bool then
     commit_and_publish self issue_url instruction p analysis create_pr draft_pr
   else no_changes self issue_url) ;;
  session_end <- now ;;
  update_result (fun r =>
    {| success := success r; issue_url := Orchestrator.issue_url r;
       start_time := start_time r; r_instruction := r_instruction r;
       error := error r; details := details r;
       r_branch_name := r_branch_name r; pr_url := pr_url r;
       changes_committed := changes_committed r;
       session_analysis := session_analysis r;
       message := message r;
       end_time := Some (isoformat session_end);
       duration_micro := Some (wall_micro session_end - wall_micro session_start)%Z |}).

(** Lines 108 to 122: the run was classified as failed. *)
Definition after_failure (self : ClaudeForgeOrchestrator) (issue_url : string)
  (analysis : Analysis) : Run unit :=
  update_result (fun r =>
    {| success := success r; issue_url := Orchestrator.issue_url r;
       start_time := start_time r; r_instruction := r_instruction r;
       error := Some "Claude Code session failed";
       details := Some analysis;
       r_branch_name := r_branch_name r; pr_url := pr_url r;
       changes_committed := changes_committed r;
       session_analysis := session_analysis r;
       message := message r; end_time := end_time r;
       duration_micro := duration_micro r |}) ;;
  t <- now ;;
  notify self "failed" issue_url
    {| d_timestamp := Some (isoformat t);
       d_summary := Some "Claude Code session failed";
       d_changes := None; d_pr_url := None;
       d_errors := Some (errors analysis);
       d_repository := None; d_branch := None |}.

(** Lines 97 to 224, entered with the value read for the time budget: run
    the assistant, classify, act on the outcome. *)
Definition assistant_phase (self : ClaudeForgeOrchestrator)
  (session_start : DateTime) (issue_url instruction : string) (p : Prepared)
  (max_time : Config.AttrValue) (create_pr draft_pr : bool) : Run unit :=
  claude_result <-
    run_claude_code_session subprocess_run (p_repo_path p)
      (p_full_instruction p) max_time ;;
  let session_analysis := analyze_session_output claude_result in
  if negb (a_success session_analysis) then
    after_failure self issue_url session_analysis
  else
    after_success self session_start issue_url instruction p session_analysis
      create_pr draft_pr.

(** [self.config.claude.timeout], the third argument of the call on lines
    99 to 103. *)
Definition read_budget (self : ClaudeForgeOrchestrator) : Run Config.AttrValue :=
  lift (claude_getattr (Config.claude (config self)) "timeout").

(** Lines 46 to 224: the body of the [try]. *)
Definition session_body (self : ClaudeForgeOrchestrator) (session_start : DateTime)
  (issue_url instruction : string) (branch_name : option string)
  (create_pr draft_pr : bool) : Run unit :=
  p <- prepare self session_start issue_url instruction branch_name ;;
  max_time <- read_budget self ;;
  assistant_phase self session_start issue_url instruction p max_time
    create_pr draft_pr.

(** Lines 226 to 239: the handler of [except Exception as e]. *)
Definition on_exception (self : ClaudeForgeOrchestrator) (issue_url : string)
  (e : Exn) : Run unit :=
  update_result (fun r =>
    {| success := success r; issue_url := Orchestrator.issue_url r;
       start_time := start_time r; r_instruction := r_instruction r;
       error := Some (exn_str e);
       details := details r;
       r_branch_name := r_branch_name r; pr_url := pr_url r;
       changes_committed := changes_committed r;
       session_analysis := session_analysis r;
       message := message r; end_time := end_time r;
       duration_micro := duration_micro r |}) ;;
  t_end <- now ;;
  update_result (fun r =>
    {| success := success r; issue_url := Orchestrator.issue_url r;
       start_time := start_time r; r_instruction := r_instruction r;
       error := error r; details := details r;
       r_branch_name := r_branch_name r; pr_url := pr_url r;
       changes_committed := changes_committed r;
       session_analysis := session_analysis r;
       message := message r; end_time := Some (isoformat t_end);
       duration_micro := duration_micro r |}) ;;
  t <- now ;;
  notify self "error" issue_url
    {| d_timestamp := Some (isoformat t);
       d_summary := Some ("Session failed with error: " ++ exn_str e);
       d_changes := None; d_pr_url := None;
       d_errors := Some [exn_str e];
       d_repository := None; d_branch := None |}.

(** The [result] mapping as line 38 builds it. *)
Definition fresh_result (issue_url instruction : string) (session_start : DateTime)
  : SessionResult :=
  {| success := false; issue_url := issue_url;
     start_time := isoformat session_start;
     r_instruction := instruction;
     error := None; details := None; r_branch_name := None; pr_url := None;
     changes_committed := None; session_analysis := None; message := None;
     end_time := None; duration_micro := None |}.

(** [ClaudeForgeOrchestrator.run_session], as a computation. *)
Definition run_session_steps (self : ClaudeForgeOrchestrator)
  (issue_url instruction : string) (branch_name : option string)
  (create_pr draft_pr : bool) : Run SessionResult :=
  session_start <- now ;;
  update_result (fun _ => fresh_result issue_url instruction session_start) ;;
  try_except
    (session_body self session_start issue_url instruction branch_name
       create_pr draft_pr)
    (on_exception self issue_url) ;;
  gets result.

(** The state a fresh orchestrator starts from. *)
Definition initial : St :=
  {| trace := []; clock_reads := 0;
     result := fresh_result EmptyString EmptyString (w_now w 0);
     current_repo_path := None |}.

(** One call of [run_session] on a fresh orchestrator: what the caller
    gets (a result, or the exception that escaped) and the calls made, the
    latest first. *)
Definition run_session (self : ClaudeForgeOrchestrator)
  (issue_url instruction : string) (branch_name : option string)
  (create_pr draft_pr : bool) : Result SessionResult * list Event :=
  let '(r, st) := run_session_steps self issue_url instruction branch_name
                    create_pr draft_pr initial in
  (r, trace st).

End Session.

End Orchestrator.

(** ** github_client.py: the working copy *)

Module GitHubClientRepo.
Import ClaudeSession.

(** [s.startswith(p)] *)
Definition startswith (s p : string) : bool := String.prefix p s.

(** [s.replace(old, new)] for a non-empty [old]: the occurrences of [old]
    are found from left to right and do not overlap; [skip] counts the
    characters of the occurrence just replaced that are still to be passed
    over. *)
Fixpoint replace_from (old new : string) (skip : nat) (s : string) : string :=
  match s with
  | EmptyString => EmptyString
  | String a s' =>
      match skip with
      | S k => replace_from old new k s'
      | O =>
          if String.prefix old s
          then new ++ replace_from old new (String.length old - 1) s'
          else String a (replace_from old new 0 s')
      end
  end.

Definition replace (s old new : string) : string := replace_from old new 0 s.

(** The URL handed to [Repo.clone_from] (lines 57 to 64). *)
Definition auth_url (token clone_url : string) : string :=
  if startswith clone_url "https://github.com/" then
    replace clone_url "https://github.com/"
      ("https://x-access-token:" ++ token ++ "@github.com/")
  else clone_url.

Section Git.

Variables S Repo : Type.

(** [Repo.clone_from(url, path)] and [repo.git.checkout(branch)] *)
Variable clone_from : string -> Path -> M S Repo.
Variable git_checkout : Repo -> string -> M S unit.

(** [GitHubClient.clone_repository] *)
Definition clone_repository (token clone_url : string) (local_path : Path)
  (branch : string) : M S Repo :=
  repo <- clone_from (auth_url token clone_url) local_path ;;
  try_except (git_checkout repo branch) (fun _ => ret tt) ;;
  ret repo.

End Git.

End GitHubClientRepo.

(** * Sample inputs *)

Module ConfigExamples.
Import Config.

Definition env_of (l : list (string * string)) : Env :=
  fun name =>
    match find (fun kv => String.eqb (fst kv) name) l with
    | Some kv => Some (snd kv)
    | None => None
    end.

(** tests/test_config.py, [test_config_from_env] *)
Definition env_creds_only : Env :=
  env_of [("ANTHROPIC_API_KEY", "test-claude-key"); ("GITHUB_TOKEN", "test-github-token")].

Example load_env_only :
  load_from_file None env_creds_only = RaisedValidationError [["claude"; "model"]].
Proof. reflexivity. Qed.

(** tests/test_config.py, [test_config_env_override] *)
Definition file_both : PyVal :=
  VDict [ ("claude", VDict [("api_key", VStr "file-claude-key")]);
          ("github", VDict [("token", VStr "file-github-token")]) ].

Definition env_api_key : Env := env_of [("ANTHROPIC_API_KEY", "env-claude-key")].


Example load_override :
  exists c, load_from_file (Some file_both) env_api_key
            = Loaded c
            /\ api_key (claude c) = "env-claude-key"
            /\ token (github c) = "file-github-token"
            /\ model (claude c) = "claude-3-sonnet-20240229".
Proof. eexists. split; [reflexivity|]. repeat split. Qed.

End ConfigExamples.

(** ** Sample sessions *)

Module SessionExamples.
Import ClaudeSession Notifications Orchestrator.

Definition sample_time (n : nat) : DateTime :=
  {| isoformat := "2024-01-01T00:00:0" ++ py_str_int (Z.of_nat n);
     timestamp_int := 1704067200;
     wall_micro := Z.of_nat n * 1000000 |}.

Definition issue_json : JObj :=
  [ ("number", JInt 42); ("title", JStr "Fix the parser");
    ("state", JStr "open"); ("body", JStr "It crashes on empty input.") ].

Definition repo_json : JObj :=
  [ ("full_name", JStr "ownerA/repoB"); ("description", JNull);
    ("language", JStr "Python"); ("default_branch", JStr "main");
    ("clone_url", JStr "https://github.com/ownerA/repoB.git") ].

(** Every collaborator answers; the assistant exits with [returncode] and
    leaves a modified file; [push] and [run] can be set to fail. *)
Definition world_with (run : Result CompletedProcess) (push : Result unit) : World :=
  {| w_now := sample_time;
     w_get_issue := Ok issue_json;
     w_get_repository := Ok repo_json;
     w_mkdir := Ok tt;
     w_clone_repository := Ok tt;
     w_create_branch := Ok tt;
     w_post := fun _ => Ok tt;
     w_smtp := fun _ => Ok tt;
     w_subprocess_run := run;
     w_is_dirty := Ok true;
     w_untracked_files := Ok [];
     w_git_add := Ok tt;
     w_commit := Ok tt;
     w_push_changes := push;
     w_create_pull_request := Ok [("html_url", JStr "https://github.com/ownerA/repoB/pull/7")];
     w_add_comment_to_issue := Ok [] |}.

Definition exit_zero : Result CompletedProcess :=
  Ok {| returncode := 0; stdout := "done"; stderr := EmptyString |}.

Definition calm_world : World := world_with exit_zero (Ok tt).



Definition clone_refused : Exn :=
  mkExn GitCommandError "clone failed".

(** Every collaborator answers, except that the clone is refused. *)
Definition world_without_clone : World :=
  {| w_now := sample_time;
     w_get_issue := Ok issue_json;
     w_get_repository := Ok repo_json;
     w_mkdir := Ok tt;
     w_clone_repository := Raise clone_refused;
     w_create_branch := Ok tt;
     w_post := fun _ => Ok tt;
     w_smtp := fun _ => Ok tt;
     w_subprocess_run := exit_zero;
     w_is_dirty := Ok true;
     w_untracked_files := Ok [];
     w_git_add := Ok tt;
     w_commit := Ok tt;
     w_push_changes := Ok tt;
     w_create_pull_request := Ok [("html_url", JStr "https://github.com/ownerA/repoB/pull/7")];
     w_add_comment_to_issue := Ok [] |}.

(** An issue without description, as the API reports it: the [body] is
    null. *)
Definition undescribed_issue : JObj :=
  [ ("number", JInt 42); ("title", JStr "Fix the parser");
    ("state", JStr "open"); ("body", JNull) ].

(** Every collaborator answers; the issue has no description. *)
Definition undescribed_world : World :=
  {| w_now := sample_time;
     w_get_issue := Ok undescribed_issue;
     w_get_repository := Ok repo_json;
     w_mkdir := Ok tt;
     w_clone_repository := Ok tt;
     w_create_branch := Ok tt;
     w_post := fun _ => Ok tt;
     w_smtp := fun _ => Ok tt;
     w_subprocess_run := exit_zero;
     w_is_dirty := Ok true;
     w_untracked_files := Ok [];
     w_git_add := Ok tt;
     w_commit := Ok tt;
     w_push_changes := Ok tt;
     w_create_pull_request := Ok [("html_url", JStr "https://github.com/ownerA/repoB/pull/7")];
     w_add_comment_to_issue := Ok [] |}.

(** Settings with the chat channel enabled. *)
Definition sample_config : Config.Config :=
  {| Config.claude :=
       {| Config.api_key := "key";
          Config.model := "claude-3-sonnet-20240229";
          Config.max_tokens := 4000 |};
     Config.github := {| Config.token := "token"; Config.default_branch := "main" |};
     Config.notifications :=
       {| Config.discord :=
            {| Config.discord_enabled := true;
               Config.webhook_url := Some "https://chat.example/hook";
               Config.bot_token := None;
               Config.channel_id := None |};
          Config.email := Config.default_EmailConfig |};
     Config.development := Config.default_DevelopmentConfig;
     Config.logging := Config.default_LoggingConfig |}.

Definition sample_url : string := "https://github.com/ownerA/repoB/issues/42".

Definition session (w : World)
  (claude_getattr : Config.ClaudeConfig -> string -> Result Config.AttrValue)
  (create_pr : bool) : Result SessionResult * list Event :=
  run_session w GitHubClient.generic_url_path claude_getattr (init sample_config)
    sample_url "fix it" None create_pr false.

End SessionExamples.

(** * Properties *)

Example py_int_42 : py_int "42" = Some 42%Z. Proof. reflexivity. Qed.
Example py_int_neg : py_int " -7 " = Some (-7)%Z. Proof. reflexivity. Qed.
Example py_int_us : py_int "4_2" = Some 42%Z. Proof. reflexivity. Qed.
Example py_int_bad1 : py_int "4__2" = None. Proof. reflexivity. Qed.
Example py_int_bad2 : py_int "42x" = None. Proof. reflexivity. Qed.
Example py_int_bad3 : py_int EmptyString = None. Proof. reflexivity. Qed.
Example py_int_bad4 : py_int "_42" = None. Proof. reflexivity. Qed.
Example py_int_bad5 : py_int "42_" = None. Proof. reflexivity. Qed.
Example py_int_lead0 : py_int "0042" = Some 42%Z. Proof. reflexivity. Qed.
Example py_str_0 : py_str_int 0 = "0". Proof. reflexivity. Qed.
Example py_str_m42 : py_str_int (-42) = "-42". Proof. reflexivity. Qed.
Example split_ex : split "/" "a//b" = ["a"; EmptyString; "b"]. Proof. reflexivity. Qed.
Example strip_ex : strip "/" "//a/b/" = "a/b". Proof. reflexivity. Qed.
Example repr_ex : py_repr "4'2" = String dquote ("4'2" ++ String dquote EmptyString).
Proof. reflexivity. Qed.
Example parse_ex :
  GitHubClient.parse_issue_url GitHubClient.generic_url_path
    "https://host/ownerA/repoB/issues/42" = Ok ("ownerA", "repoB", 42%Z).
Proof. reflexivity. Qed.
Example parse_ex2 :
  GitHubClient.parse_issue_url GitHubClient.generic_url_path
    "https://host/ownerA/repoB/issues/42x" =
  Raise (mkExn ValueError "invalid literal for int() with base 10: '42x'").
Proof. reflexivity. Qed.

(** ** Facts about the string helpers *)

Definition is_digit (a : ascii) : bool :=
  match digit_of_char a with Some _ => true | None => false end.

Fixpoint all_digits (s : string) : bool :=
  match s with
  | EmptyString => true
  | String a s' => is_digit a && all_digits s'
  end.

Lemma string_of_uint_digits d : all_digits (NilEmpty.string_of_uint d) = true.
Proof. induction d; simpl; auto. Qed.

Lemma digit_not_space a : is_digit a = true -> is_space a = false.
Proof.
  unfold is_digit, digit_of_char.
  destruct a as [[] [] [] [] [] [] [] []]; simpl; intros; try discriminate; reflexivity.
Qed.

Lemma digit_not_slash a : is_digit a = true -> Ascii.eqb a "/"%char = false.
Proof.
  unfold is_digit, digit_of_char.
  destruct a as [[] [] [] [] [] [] [] []]; simpl; intros; try discriminate; reflexivity.
Qed.

Lemma all_digits_lacks_slash s : all_digits s = true -> lacks "/"%char s = true.
Proof.
  induction s as [|a s IH]; simpl; auto.
  intros H. apply andb_true_iff in H as [Ha Hs].
  rewrite (digit_not_slash a Ha). simpl. auto.
Qed.

Lemma rstrip_space_digits s : all_digits s = true -> rstrip_space s = s.
Proof.
  induction s as [|a s IH]; simpl; auto.
  intros H. apply andb_true_iff in H as [Ha Hs].
  rewrite (IH Hs). rewrite (digit_not_space a Ha).
  destruct s; reflexivity.
Qed.

Lemma digits_string_of_uint d :
  digits true (NilEmpty.string_of_uint d) = Some d.
Proof. induction d; simpl; rewrite ?IHd; reflexivity. Qed.

Lemma digits_string_of_uint_start d :
  d <> Nil -> digits false (NilEmpty.string_of_uint d) = Some d.
Proof.
  destruct d; simpl; intros H; try congruence;
    rewrite digits_string_of_uint; reflexivity.
Qed.

Lemma py_int_digits d :
  d <> Nil -> py_int (NilEmpty.string_of_uint d) = Some (Z.of_uint d).
Proof.
  intros Hd. unfold py_int.
  assert (Hl : lstrip_space (NilEmpty.string_of_uint d) = NilEmpty.string_of_uint d).
  { destruct d; try congruence; reflexivity. }
  rewrite Hl, (rstrip_space_digits _ (string_of_uint_digits d)).
  pose proof (digits_string_of_uint_start d Hd) as E.
  destruct d; try congruence; simpl NilEmpty.string_of_uint in *;
    cbv iota beta; rewrite E; reflexivity.
Qed.

Lemma py_int_neg_digits d :
  d <> Nil ->
  py_int (String "-"%char (NilEmpty.string_of_uint d)) = Some (- Z.of_uint d)%Z.
Proof.
  intros Hd. unfold py_int.
  change (lstrip_space (String "-"%char (NilEmpty.string_of_uint d)))
    with (String "-"%char (NilEmpty.string_of_uint d)).
  assert (Hr : rstrip_space (String "-"%char (NilEmpty.string_of_uint d))
               = String "-"%char (NilEmpty.string_of_uint d)).
  { simpl. rewrite (rstrip_space_digits _ (string_of_uint_digits d)).
    destruct d; try congruence; reflexivity. }
  rewrite Hr. cbv iota beta.
  rewrite (digits_string_of_uint_start d Hd). reflexivity.
Qed.

(** [int(str(n)) == n] *)
Lemma py_int_str (n : Z) : py_int (py_str_int n) = Some n.
Proof.
  unfold py_str_int.
  rewrite <- (DecimalZ.of_to n) at 2.
  destruct n as [|p|p]; simpl Z.to_int.
  - reflexivity.
  - pose proof (DecimalPos.Unsigned.to_uint_nonnil p) as Hp.
    unfold NilZero.string_of_int, NilZero.string_of_uint.
    destruct (Pos.to_uint p) eqn:E; try congruence;
      rewrite <- E in *; rewrite py_int_digits by assumption; reflexivity.
  - pose proof (DecimalPos.Unsigned.to_uint_nonnil p) as Hp.
    unfold NilZero.string_of_int, NilZero.string_of_uint.
    destruct (Pos.to_uint p) eqn:E; try congruence;
      rewrite <- E in *; rewrite py_int_neg_digits by assumption; reflexivity.
Qed.

Lemma append_assoc (s t u : string) : (s ++ t) ++ u = s ++ (t ++ u).
Proof. induction s as [|a s IH]; simpl; congruence. Qed.

Lemma lacks_app c s t : lacks c (s ++ t) = lacks c s && lacks c t.
Proof.
  induction s as [|a s IH]; simpl; auto.
  rewrite IH. now rewrite andb_assoc.
Qed.

Lemma split_lacks c s : lacks c s = true -> split c s = [s].
Proof.
  induction s as [|a s IH]; simpl; auto.
  intros H. apply andb_true_iff in H as [Ha Hs].
  apply negb_true_iff in Ha. rewrite Ha, (IH Hs). reflexivity.
Qed.

Lemma split_app c s rest :
  lacks c s = true -> split c (s ++ String c rest) = s :: split c rest.
Proof.
  induction s as [|a s IH]; simpl.
  - intros _. now rewrite Ascii.eqb_refl.
  - intros H. apply andb_true_iff in H as [Ha Hs].
    apply negb_true_iff in Ha. rewrite Ha, (IH Hs). reflexivity.
Qed.

Lemma rstrip_lacks c s : lacks c s = true -> rstrip c s = s.
Proof.
  induction s as [|a s IH]; simpl; auto.
  intros H. apply andb_true_iff in H as [Ha Hs].
  apply negb_true_iff in Ha. rewrite (IH Hs), Ha.
  destruct s; reflexivity.
Qed.

Lemma rstrip_app c s t :
  t <> EmptyString -> rstrip c t = t -> rstrip c (s ++ t) = s ++ t.
Proof.
  intros Ht Hr. induction s as [|a s IH]; simpl; auto.
  rewrite IH. destruct (s ++ t) eqn:E; auto.
  destruct s; simpl in E; congruence.
Qed.

Lemma lstrip_keeps c s : s <> EmptyString -> lacks c s = true -> forall t,
  lstrip c (s ++ t) = s ++ t.
Proof.
  intros Hs Hl t. destruct s as [|a s]; [congruence|].
  simpl in *. apply andb_true_iff in Hl as [Ha _].
  apply negb_true_iff in Ha. now rewrite Ha.
Qed.

Lemma py_str_int_lacks_slash n : lacks "/"%char (py_str_int n) = true.
Proof.
  unfold py_str_int. destruct n as [|p|p]; simpl Z.to_int; [reflexivity| |];
    unfold NilZero.string_of_int, NilZero.string_of_uint;
    destruct (Pos.to_uint p) eqn:E; try reflexivity;
    rewrite <- E; simpl; try apply all_digits_lacks_slash;
    apply string_of_uint_digits.
Qed.

Lemma py_str_int_nonempty n : py_str_int n <> EmptyString.
Proof.
  unfold py_str_int. destruct n as [|p|p]; simpl Z.to_int; try discriminate;
    unfold NilZero.string_of_int, NilZero.string_of_uint;
    destruct (Pos.to_uint p); discriminate.
Qed.

(** The path [/owner/repo/issues/number] is cut into exactly its four
    segments. *)
Lemma issue_path_parts owner repo num :
  owner <> EmptyString -> lacks "/"%char owner = true ->
  lacks "/"%char repo = true ->
  num <> EmptyString -> lacks "/"%char num = true ->
  split "/"%char
    (strip "/"%char ("/" ++ owner ++ "/" ++ repo ++ "/issues/" ++ num))
  = [owner; repo; "issues"; num].
Proof.
  intros Ho Hlo Hlr Hn Hln. unfold strip.
  change ("/" ++ owner ++ "/" ++ repo ++ "/issues/" ++ num)
    with (String "/"%char (owner ++ "/" ++ repo ++ "/issues/" ++ num)).
  cbn [lstrip]. rewrite Ascii.eqb_refl.
  rewrite (lstrip_keeps _ _ Ho Hlo).
  assert (E : owner ++ "/" ++ repo ++ "/issues/" ++ num
              = (owner ++ "/" ++ repo ++ "/issues/") ++ num).
  { now rewrite !append_assoc. }
  rewrite E, (rstrip_app _ _ _ Hn (rstrip_lacks _ _ Hln)), <- E.
  change (owner ++ "/" ++ repo ++ "/issues/" ++ num)
    with (owner ++ String "/"%char (repo ++ String "/"%char ("issues" ++ String "/"%char num))).
  rewrite (split_app _ _ _ Hlo), (split_app _ _ _ Hlr).
  rewrite (split_app "/"%char "issues" num eq_refl).
  now rewrite (split_lacks _ _ Hln).
Qed.

(** ** github_client.py: issue references *)

Module GitHubClientFacts.
Import GitHubClient.

Section WithUrlparse.
Variable urlparse_path : string -> Result string.

Lemma parse_issue_url_parts url path a b t rest n :
    urlparse_path url = Ok path ->
    split "/"%char (strip "/"%char path) = a :: b :: "issues" :: t :: rest ->
    py_int t = Some n ->
    parse_issue_url urlparse_path url = Ok (a, b, n).
  Proof.
    intros Hp Hs Hn. unfold parse_issue_url. rewrite Hp. simpl.
    rewrite Hs. simpl. now rewrite Hn.
  Qed.

Lemma parse_issue_url_rejects url path :
    urlparse_path url = Ok path ->
    let parts := split "/"%char (strip "/"%char path) in
    nth_error parts 2 <> Some "issues"
    \/ (forall t, nth_error parts 3 = Some t -> py_int t = None) ->
    exists msg, parse_issue_url urlparse_path url = Raise (mkExn ValueError msg).
  Proof.
    intros Hp parts H. unfold parse_issue_url. rewrite Hp. simpl.
    fold parts.
    destruct parts as [|a [|b [|c [|t rest]]]]; simpl; eauto.
    destruct (String.eqb c "issues") eqn:Ec; simpl; eauto.
    apply String.eqb_eq in Ec. subst c.
    destruct H as [H|H]; [now elim H|].
    rewrite (H t eq_refl). eauto.
  Qed.

End WithUrlparse.

End GitHubClientFacts.

(** ** config.py: the merge of environment overrides *)

Module ConfigFacts.
Import Config.

(** The value found by following the keys of [p] through nested mappings. *)
Fixpoint lookup_path (v : PyVal) (p : list string) : option PyVal :=
  match p with
  | [] => Some v
  | k :: q =>
      match v with
      | VDict d =>
          match dict_get d k with
          | Some x => lookup_path x q
          | None => None
          end
      | _ => None
      end
  end.

(** Number of entries of [items] stored under [k]. *)
Fixpoint key_count (items : Dict) (k : string) : nat :=
  match items with
  | [] => 0
  | (k', _) :: rest => (if String.eqb k' k then 1 else 0) + key_count rest k
  end.

(** The override says nothing about the key at path [p]: on the way down
    every entry for the next key is a mapping, and at the end it is
    [None]. *)
Fixpoint silent (p : list string) (ov : PyVal) : Prop :=
  match p with
  | [] => False
  | k :: q =>
      match ov with
      | VDict items =>
          Forall (fun kv => fst kv = k -> snd kv = VNone \/ silent q (snd kv)) items
      | _ => False
      end
  end.

(** The override holds the text [x] at path [p], each key on the way
    occurring once. *)
Fixpoint supplies (p : list string) (ov : PyVal) (x : string) : Prop :=
  match p with
  | [] => ov = VStr x
  | k :: q =>
      match ov with
      | VDict items =>
          key_count items k = 1
          /\ exists value, dict_get items k = Some value /\ supplies q value x
      | _ => False
      end
  end.

Lemma dict_get_set_same d k v : dict_get (dict_set d k v) k = Some v.
Proof.
  induction d as [|[k' v'] d IH]; simpl.
  - now rewrite String.eqb_refl.
  - destruct (String.eqb k' k) eqn:E; simpl; rewrite E; auto.
Qed.

Lemma dict_get_set_other d k k' v :
  k <> k' -> dict_get (dict_set d k v) k' = dict_get d k'.
Proof.
  intros Hk. induction d as [|[k0 v0] d IH]; simpl.
  - apply String.eqb_neq in Hk. now rewrite Hk.
  - destruct (String.eqb k0 k) eqn:E; simpl.
    + apply String.eqb_eq in E. subst k0.
      apply String.eqb_neq in Hk. now rewrite Hk.
    + now rewrite IH.
Qed.

Lemma merge_dict_VDict base items :
  merge_dict base (VDict items) = merge_items merge_dict base items.
Proof. reflexivity. Qed.

Lemma supplies_lookup p : forall ov x,
  supplies p ov x -> lookup_path ov p = Some (VStr x).
Proof.
  induction p as [|k q IH]; simpl; intros ov x H.
  - now subst.
  - destruct ov; try contradiction.
    destruct H as [_ (value & Hg & Hs)]. rewrite Hg. eauto.
Qed.

Lemma supplies_not_none q value x : supplies q value x -> value <> VNone.
Proof. destruct q; simpl; intros H E; subst; [discriminate|contradiction]. Qed.

Section Loop.
Variable rec : PyVal -> PyVal -> MergeError + PyVal.

(** One turn of the loop on a mapping [b], for an entry that is not
    [None]. *)
Definition turn (b : Dict) (key : string) (value : PyVal) : MergeError + Dict :=
  match value, dict_get b key with
  | VDict _, Some sub =>
      match rec sub value with
      | inr merged => inr (dict_set b key merged)
      | inl e => inl e
      end
  | _, _ => inr (dict_set b key value)
  end.

Lemma merge_items_cons b key value rest :
  merge_items rec (VDict b) ((key, value) :: rest) =
  match value with
  | VNone => merge_items rec (VDict b) rest
  | _ => match turn b key value with
         | inr b1 => merge_items rec (VDict b1) rest
         | inl e => inl e
         end
  end.
Proof.
  unfold turn. simpl.
  destruct value; try reflexivity.
  destruct (dict_get b key); try reflexivity.
  destruct (rec p (VDict items)); reflexivity.
Qed.

Lemma turn_other b key value b1 k :
  turn b key value = inr b1 -> key <> k -> dict_get b1 k = dict_get b k.
Proof.
  unfold turn. intros H Hk.
  destruct value; try (injection H as <-; now apply dict_get_set_other).
  destruct (dict_get b key).
  - destruct (rec p (VDict items)); [discriminate|].
    injection H as <-. now apply dict_get_set_other.
  - injection H as <-. now apply dict_get_set_other.
Qed.

(** Keys the override does not mention keep their value. *)
Lemma merge_items_untouched k items : forall b m,
  key_count items k = 0 ->
  merge_items rec (VDict b) items = inr m ->
  exists b', m = VDict b' /\ dict_get b' k = dict_get b k.
Proof.
  induction items as [|[key value] rest IH]; intros b m Hc Hm.
  - simpl in Hm. injection Hm as <-. eauto.
  - simpl in Hc. destruct (String.eqb key k) eqn:E; [discriminate|].
    apply String.eqb_neq in E. simpl in Hc.
    rewrite merge_items_cons in Hm.
    assert (Hgo : forall b1, turn b key value = inr b1 ->
                  merge_items rec (VDict b1) rest = inr m ->
                  exists b', m = VDict b' /\ dict_get b' k = dict_get b k).
    { intros b1 Ht Hm1. destruct (IH b1 m Hc Hm1) as (b' & -> & Hg).
      exists b'. split; auto. rewrite Hg. eapply turn_other; eauto. }
    destruct value; try (now apply IH);
      destruct (turn b key _) eqn:Ht; try discriminate; eauto.
Qed.

End Loop.

Lemma silent_leaf q value :
  silent q value -> exists items, value = VDict items.
Proof. destruct q; simpl; [contradiction|]. destruct value; try contradiction; eauto. Qed.

Lemma merge_items_not_mapping rec base items m :
  merge_items rec base items = inr m ->
  (exists b, base = VDict b) \/ m = base.
Proof.
  revert base. induction items as [|[key value] rest IH]; intros base Hm.
  - simpl in Hm. injection Hm as <-. now right.
  - destruct base; try (now left; eauto);
      simpl in Hm; destruct value; try discriminate; now apply IH.
Qed.

(** A key about which the override is silent keeps the value of the file. *)
Lemma merge_preserves p : forall ov base m v,
  silent p ov ->
  merge_dict base ov = inr m ->
  lookup_path base p = Some v ->
  lookup_path m p = Some v.
Proof.
  induction p as [|k q IHp]; intros ov base m v Hs Hm Hl; [contradiction|].
  simpl in Hs. destruct ov as [| | | |items]; try contradiction.
  rewrite merge_dict_VDict in Hm.
  simpl in Hl. destruct base as [| | | |b]; try discriminate.
  destruct (dict_get b k) as [x|] eqn:Hx; [|discriminate].
  enough (H : exists b' x', m = VDict b' /\ dict_get b' k = Some x'
                            /\ lookup_path x' q = Some v).
  { destruct H as (b' & x' & -> & Hg & Hq). simpl. now rewrite Hg. }
  revert b x Hs Hx Hl Hm.
  induction items as [|[key value] rest IH]; intros b x Hs Hx Hl Hm.
  - simpl in Hm. injection Hm as <-. eauto.
  - inversion Hs as [|? ? Hhd Htl]; subst. simpl in Hhd.
    rewrite merge_items_cons in Hm.
    assert (Hgo : forall b1, turn merge_dict b key value = inr b1 ->
                  value <> VNone ->
                  merge_items merge_dict (VDict b1) rest = inr m ->
                  exists b' x', m = VDict b' /\ dict_get b' k = Some x'
                                /\ lookup_path x' q = Some v).
    { intros b1 Ht Hv Hm1.
      destruct (String.eqb_spec key k) as [->|Hne].
      - destruct (Hhd eq_refl) as [E|Hsil]; [contradiction|].
        destruct (silent_leaf _ _ Hsil) as (its & ->).
        unfold turn in Ht. rewrite Hx in Ht.
        destruct (merge_dict x (VDict its)) as [|mg] eqn:Hmg; [discriminate|].
        injection Ht as <-.
        eapply (IH _ mg); eauto using dict_get_set_same.
      - assert (Hg1 : dict_get b1 k = Some x)
          by (rewrite (turn_other _ _ _ _ _ k Ht Hne); exact Hx).
        eapply (IH b1 x); eauto. }
    destruct value;
      try (destruct (turn merge_dict b key _) eqn:Ht; [discriminate|];
           eapply Hgo; eauto; discriminate).
    eapply IH; eauto.
Qed.

(** A text the override supplies ends up in the merged mapping. *)
Lemma merge_supplied p : forall ov base m x,
  p <> [] ->
  supplies p ov x ->
  merge_dict base ov = inr m ->
  lookup_path m p = Some (VStr x).
Proof.
  induction p as [|k q IHp]; intros ov base m x Hp Hs Hm; [congruence|].
  simpl in Hs. destruct ov as [| | | |items]; try contradiction.
  destruct Hs as (Hc & value & Hg & Hsq).
  rewrite merge_dict_VDict in Hm.
  enough (H : exists b' x', m = VDict b' /\ dict_get b' k = Some x'
                            /\ lookup_path x' q = Some (VStr x)).
  { destruct H as (b' & x' & -> & Hg' & Hq). simpl. now rewrite Hg'. }
  pose proof (supplies_not_none _ _ _ Hsq) as Hnn.
  revert base Hc Hg Hm.
  induction items as [|[key v0] rest IH]; intros base Hc Hg Hm; [discriminate|].
  simpl in Hc, Hg.
  destruct (String.eqb key k) eqn:E.
  - apply String.eqb_eq in E. subst key. injection Hg as ->.
    injection Hc as Hc.
    destruct base as [| | | |b];
      try (simpl in Hm; destruct value; try discriminate; congruence).
    rewrite merge_items_cons in Hm.
    assert (Hgo : forall b1, turn merge_dict b k value = inr b1 ->
                  merge_items merge_dict (VDict b1) rest = inr m ->
                  exists b' x', m = VDict b' /\ dict_get b' k = Some x'
                                /\ lookup_path x' q = Some (VStr x)).
    { intros b1 Ht Hm1.
      destruct (merge_items_untouched _ k rest b1 m Hc Hm1) as (b' & -> & Hb').
      exists b'. unfold turn in Ht.
      destruct value as [| | | |its]; try congruence;
        try (injection Ht as <-; eexists; split; [reflexivity|];
             rewrite Hb', dict_get_set_same; split; [reflexivity|];
             now apply supplies_lookup).
      destruct (dict_get b k) as [sub|].
      - destruct (merge_dict sub (VDict its)) as [|mg] eqn:Hmg; [discriminate|].
        injection Ht as <-. exists mg. split; [reflexivity|].
        rewrite Hb', dict_get_set_same. split; [reflexivity|].
        destruct q as [|k' q']; [simpl in Hsq; discriminate|].
        eapply IHp; eauto. discriminate.
      - injection Ht as <-. eexists. split; [reflexivity|].
        rewrite Hb', dict_get_set_same. split; [reflexivity|].
        now apply supplies_lookup. }
    destruct value; try congruence;
      destruct (turn merge_dict b k _) eqn:Ht; try discriminate; eauto.
  - simpl in Hc.
    destruct base as [| | | |b];
      try (simpl in Hm; destruct v0; try discriminate; now apply (IH _ Hc Hg Hm)).
    rewrite merge_items_cons in Hm.
    destruct v0; try (now apply (IH _ Hc Hg Hm));
      destruct (turn merge_dict b key _) eqn:Ht; try discriminate;
      now apply (IH _ Hc Hg Hm).
Qed.

(** *** The keys that have an environment variable *)

Inductive EnvKey :=
| ANTHROPIC_API_KEY | CLAUDE_MODEL | GITHUB_TOKEN
| DISCORD_WEBHOOK_URL | DISCORD_BOT_TOKEN | DISCORD_CHANNEL_ID
| SMTP_SERVER | SMTP_USERNAME | SMTP_PASSWORD | EMAIL_TO.

Definition env_var (k : EnvKey) : string :=
  match k with
  | ANTHROPIC_API_KEY => "ANTHROPIC_API_KEY"
  | CLAUDE_MODEL => "CLAUDE_MODEL"
  | GITHUB_TOKEN => "GITHUB_TOKEN"
  | DISCORD_WEBHOOK_URL => "DISCORD_WEBHOOK_URL"
  | DISCORD_BOT_TOKEN => "DISCORD_BOT_TOKEN"
  | DISCORD_CHANNEL_ID => "DISCORD_CHANNEL_ID"
  | SMTP_SERVER => "SMTP_SERVER"
  | SMTP_USERNAME => "SMTP_USERNAME"
  | SMTP_PASSWORD => "SMTP_PASSWORD"
  | EMAIL_TO => "EMAIL_TO"
  end.

(** Where [env_overrides] puts the variable. *)
Definition key_path (k : EnvKey) : list string :=
  match k with
  | ANTHROPIC_API_KEY => ["claude"; "api_key"]
  | CLAUDE_MODEL => ["claude"; "model"]
  | GITHUB_TOKEN => ["github"; "token"]
  | DISCORD_WEBHOOK_URL => ["notifications"; "discord"; "webhook_url"]
  | DISCORD_BOT_TOKEN => ["notifications"; "discord"; "bot_token"]
  | DISCORD_CHANNEL_ID => ["notifications"; "discord"; "channel_id"]
  | SMTP_SERVER => ["notifications"; "email"; "smtp_server"]
  | SMTP_USERNAME => ["notifications"; "email"; "username"]
  | SMTP_PASSWORD => ["notifications"; "email"; "password"]
  | EMAIL_TO => ["notifications"; "email"; "to_email"]
  end.

(** The field of the settings object the key is validated into. *)
Definition resolved (c : Config) (k : EnvKey) : option string :=
  match k with
  | ANTHROPIC_API_KEY => Some (api_key (claude c))
  | CLAUDE_MODEL => Some (model (claude c))
  | GITHUB_TOKEN => Some (token (github c))
  | DISCORD_WEBHOOK_URL => webhook_url (discord (notifications c))
  | DISCORD_BOT_TOKEN => bot_token (discord (notifications c))
  | DISCORD_CHANNEL_ID => channel_id (discord (notifications c))
  | SMTP_SERVER => smtp_server (email (notifications c))
  | SMTP_USERNAME => username (email (notifications c))
  | SMTP_PASSWORD => password (email (notifications c))
  | EMAIL_TO => to_email (email (notifications c))
  end.

Lemma supplies_env env k e :
  env (env_var k) = Some e -> supplies (key_path k) (env_overrides env) e.
Proof.
  intros H. destruct k; simpl in *; unfold getenv; rewrite H;
    repeat (split || eexists).
Qed.

Ltac silent_entries :=
  repeat (apply Forall_cons || apply Forall_nil);
  simpl; let Hk := fresh "Hk" in intros Hk; try discriminate Hk.

Lemma silent_env env k :
  env (env_var k) = None -> silent (key_path k) (env_overrides env).
Proof.
  intros H. destruct k; simpl in *; silent_entries;
    try (left; unfold getenv; rewrite H; reflexivity);
    right; simpl; silent_entries;
    try (left; unfold getenv; rewrite H; reflexivity);
    right; simpl; silent_entries;
    left; unfold getenv; rewrite H; reflexivity.
Qed.

Lemma vap_valid {A B} (f : Validated (A -> B)) (x : Validated A) (b : B) :
  vap f x = Valid b -> exists g a, f = Valid g /\ x = Valid a /\ b = g a.
Proof. destruct f, x; simpl; intros [= <-]; eauto. Qed.

Ltac vinv H :=
  let g := fresh "g" in let a := fresh "a" in
  let Hx := fresh "Hfield" in
  apply vap_valid in H; destruct H as (g & a & H & Hx & ->).

Lemma field_found {A} (accept : PyVal -> option A) loc d name default v x :
  dict_get d name = Some v ->
  field accept loc d name default = Valid x ->
  accept v = Some x.
Proof.
  unfold field. intros ->. destruct (accept v); intros [= <-]; reflexivity.
Qed.

Lemma submodel_found {A} (validate : Loc -> Dict -> Validated A) loc d name default sub x :
  dict_get d name = Some (VDict sub) ->
  submodel validate loc d name default = Valid x ->
  validate (loc ++ [name])%list sub = Valid x.
Proof. unfold submodel. now intros ->. Qed.

Ltac vinv_all H := repeat vinv H; injection H as <-.

Ltac open_lookup Hl :=
  repeat match type of Hl with
  | match dict_get ?d ?k with _ => _ end = Some _ =>
      let E := fresh "Eget" in
      destruct (dict_get d k) as [[| | | |?sub]|] eqn:E;
      simpl in Hl; try discriminate Hl
  end.

(** What validation stores for a key whose merged value is a text. *)
Lemma validated_text d c k s :
  validate_Config d = Valid c ->
  lookup_path (VDict d) (key_path k) = Some (VStr s) ->
  resolved c k = Some s.
Proof.
  intros Hv Hl. unfold validate_Config in Hv. vinv_all Hv.
  destruct k; simpl in Hl; open_lookup Hl; injection Hl as ->; simpl;
    repeat match goal with
    | E : dict_get ?d ?n = Some (VDict ?sub),
      H : submodel _ _ ?d ?n _ = Valid _ |- _ =>
        apply (submodel_found _ _ _ _ _ _ _ E) in H
    | H : validate_ClaudeConfig _ _ = Valid _ |- _ =>
        unfold validate_ClaudeConfig in H; vinv_all H
    | H : validate_GitHubConfig _ _ = Valid _ |- _ =>
        unfold validate_GitHubConfig in H; vinv_all H
    | H : validate_NotificationConfig _ _ = Valid _ |- _ =>
        unfold validate_NotificationConfig in H; vinv_all H
    | H : validate_DiscordConfig _ _ = Valid _ |- _ =>
        unfold validate_DiscordConfig in H; vinv_all H
    | H : validate_EmailConfig _ _ = Valid _ |- _ =>
        unfold validate_EmailConfig in H; vinv_all H
    end;
    repeat match goal with
    | E : dict_get ?d ?n = Some (VStr _), H : field _ _ ?d ?n _ = Valid _ |- _ =>
        apply (field_found _ _ _ _ _ _ _ E) in H; simpl in H; injection H as <-
    end;
    reflexivity.
Qed.

End ConfigFacts.

(** ** claude_session.py: the prompt *)

Module ClaudeSessionFacts.
Import ClaudeSession.

(** The text of a block of lines, each followed by a line end. *)
Fixpoint line_block (lines : list string) : string :=
  match lines with
  | [] => EmptyString
  | l :: rest => l ++ nl ++ line_block rest
  end.

(** The fixed preamble and the instruction line. *)
Definition preamble_text (instruction : string) : string :=
  line_block
    [ "You are an autonomous software development assistant working on a GitHub repository.";
      EmptyString;
      "Primary Instruction: " ++ instruction;
      EmptyString ].

(** The issue block; nothing when the issue context is left out. *)
Definition issue_text (issue_data : option JObj) : string :=
  if truthy issue_data then
    line_block
      [ "GitHub Issue Context:";
        "Title: " ++ py_str (get_of issue_data "title" (JStr "N/A"));
        "Number: #" ++ py_str (get_of issue_data "number" (JStr "N/A"));
        "State: " ++ py_str (get_of issue_data "state" (JStr "N/A"));
        EmptyString;
        "Issue Description:";
        py_str (get_of issue_data "body" (JStr "No description provided."));
        EmptyString ]
  else EmptyString.

(** The repository block; nothing when the repository context is left
    out. *)
Definition repo_text (repo_data : option JObj) : string :=
  if truthy repo_data then
    line_block
      [ "Repository Context:";
        "Name: " ++ py_str (get_of repo_data "full_name" (JStr "N/A"));
        "Description: " ++ py_str (get_of repo_data "description" (JStr "N/A"));
        "Language: " ++ py_str (get_of repo_data "language" (JStr "N/A"));
        "Default Branch: " ++ py_str (get_of repo_data "default_branch" (JStr "main"));
        EmptyString ]
  else EmptyString.

(** The fixed task checklist. *)
Definition checklist_text : string :=
  join nl
    [ "Your Task:";
      "1. Analyze the codebase and understand the current implementation";
      "2. Implement the requested changes or fixes";
      "3. Ensure code quality and follow existing patterns";
      "4. Write or update tests as appropriate";
      "5. Make sure the changes work correctly";
      EmptyString;
      "Work autonomously and systematically. Create a plan and execute it step by step.";
      "Focus on delivering a complete, working solution." ].

(** The issue's [body], when the block is written, is a text. *)
Definition body_is_text (issue_data : option JObj) : Prop :=
  truthy issue_data = true ->
  exists s, get_of issue_data "body" (JStr "No description provided.") = JStr s.

Lemma prompt_text instruction issue_data repo_data :
  body_is_text issue_data ->
  create_instruction_prompt instruction issue_data repo_data
  = Ok (preamble_text instruction ++ issue_text issue_data
        ++ repo_text repo_data ++ checklist_text).
Proof.
  intros Hb. unfold create_instruction_prompt, issue_text, repo_text, preamble_text.
  destruct (truthy issue_data) eqn:Ei.
  - destruct (Hb Ei) as (body & Hbody). rewrite Hbody.
    destruct (truthy repo_data); cbn -[append nl checklist_text];
      rewrite ?append_assoc; reflexivity.
  - destruct (truthy repo_data); cbn -[append nl checklist_text];
      rewrite ?append_assoc; reflexivity.
Qed.

(** A body that is no text makes the join raise. *)
Lemma prompt_body_not_text instruction issue_data repo_data :
  truthy issue_data = true ->
  (forall s, get_of issue_data "body" (JStr "No description provided.") <> JStr s) ->
  exists msg,
    create_instruction_prompt instruction issue_data repo_data
    = Raise (mkExn TypeError msg).
Proof.
  intros Ht Hn. unfold create_instruction_prompt. rewrite Ht.
  destruct (get_of issue_data "body" (JStr "No description provided.")) eqn:E;
    try (now elim (Hn s));
    destruct (truthy repo_data); cbn; eauto.
Qed.

Lemma get_default_found d key v default :
  json_get d key = Some v -> get_default d key default = v.
Proof. intros H. unfold get_default. now rewrite H. Qed.

(** What [join] says about the item in place of the issue description. *)
Definition body_message (body : JVal) : string :=
  "sequence item 10: expected str instance, " ++ type_name_of body ++ " found".

Lemma prompt_body_raises instruction issue_data repo_data body :
  json_get issue_data "body" = Some body ->
  (forall s, body <> JStr s) ->
  create_instruction_prompt instruction (Some issue_data) repo_data
  = Raise (mkExn TypeError (body_message body)).
Proof.
  intros Hb Hn. unfold create_instruction_prompt.
  destruct issue_data as [|kv rest]; [discriminate Hb|].
  cbn [truthy get_of].
  rewrite (get_default_found _ _ _ (JStr "No description provided.") Hb).
  unfold extend.
  destruct (truthy repo_data);
    destruct body; try (exfalso; eapply Hn; reflexivity); reflexivity.
Qed.

Lemma body_is_text_none : body_is_text None.
Proof. intros H. discriminate H. Qed.

End ClaudeSessionFacts.

(** ** notifications.py and orchestrator.py: how a session runs *)

Module OrchestratorFacts.
Import ClaudeSession Notifications Orchestrator.

Definition set_trace (tr : list Event) (st : St) : St :=
  {| trace := tr; clock_reads := clock_reads st;
     result := result st; current_repo_path := current_repo_path st |}.

Definition tick (st : St) : St :=
  {| trace := trace st; clock_reads := S (clock_reads st);
     result := result st; current_repo_path := current_repo_path st |}.

(** What the chat channel is sent for a status. *)
Definition webhook_payload (status issue_url : string) (details : Details)
  : WebhookPayload :=
  {| content := "ClaudeForge session " ++ status ++ " for " ++ issue_url;
     embeds := Some [create_session_embed status issue_url details] |}.

(** The webhook the manager delivers to: the chat channel is enabled and
    has a non-empty URL. *)
Definition webhook_of (mgr : NotificationManager) : option string :=
  match discord mgr with
  | Some d =>
      match webhook_url d with
      | Some url => if is_empty url then None else Some url
      | None => None
      end
  | None => None
  end.

(** The calls on record after one notification. *)
Definition delivered (mgr : NotificationManager) (status issue_url : string)
  (details : Details) (tr : list Event) : list Event :=
  match webhook_of mgr with
  | Some url => EvWebhookPost url (webhook_payload status issue_url details) :: tr
  | None => tr
  end.

Section Facts.

Variable w : World.
Variable urlparse_path : string -> Result string.
Variable claude_getattr : Config.ClaudeConfig -> string -> Result Config.AttrValue.

(** Every exception a webhook delivery raises derives from [Exception]. *)
Definition post_ordinary : Prop :=
  forall h e, w_post w h = Raise e -> is_Exception (exn_class e) = true.

(** What [notify_session_status] hands back: a delivery failure is
    swallowed unless it does not derive from [Exception]. *)
Definition notify_answer (mgr : NotificationManager) (status issue_url : string)
  (details : Details) (tr : list Event) : Result unit :=
  match webhook_of mgr with
  | Some url =>
      match w_post w (delivered mgr status issue_url details tr) with
      | Ok _ => Ok tt
      | Raise e => if is_Exception (exn_class e) then Ok tt else Raise e
      end
  | None => Ok tt
  end.

Lemma notify_session_status_eq mgr status issue_url details st :
  notify_session_status (post w) mgr status issue_url details st
  = (notify_answer mgr status issue_url details (trace st),
     set_trace (delivered mgr status issue_url details (trace st)) st).
Proof.
  destruct st as [tr n r p].
  unfold notify_session_status, notify_answer, delivered, webhook_of,
    send_webhook_message, set_trace.
  destruct (discord mgr) as [d|]; simpl.
  - destruct (webhook_url d) as [url|]; simpl.
    + destruct (is_empty url) eqn:Eu; simpl.
      * unfold bind, ret. simpl. destruct (email mgr); reflexivity.
      * unfold bind, ret, try_except, post, deliver, record, webhook_payload. simpl.
        destruct (w_post w _) as [[]|e]; simpl;
          [|destruct (is_Exception (exn_class e)); simpl];
          destruct (email mgr); reflexivity.
    + unfold bind, ret. simpl. destruct (email mgr); reflexivity.
  - unfold bind, ret. simpl. destruct (email mgr); reflexivity.
Qed.

Lemma notify_eq self status issue_url details st :
  notify w self status issue_url details st
  = (notify_answer (notification_manager self) status issue_url details (trace st),
     set_trace (delivered (notification_manager self) status issue_url details
                  (trace st)) st).
Proof. apply notify_session_status_eq. Qed.

Lemma notify_answer_ordinary mgr status issue_url details tr :
  post_ordinary -> notify_answer mgr status issue_url details tr = Ok tt.
Proof.
  intros Hp. unfold notify_answer.
  destruct (webhook_of mgr); auto.
  destruct (w_post w _) as [[]|e] eqn:E; auto.
  now rewrite (Hp _ _ E).
Qed.

(** *** An effect discipline for computations

    [frame P c]: the calls [c] makes satisfy [P] and [c] leaves the result
    mapping alone.  [emits P c]: the calls [c] makes satisfy [P].
    [fails_early c]: if [c] raises, the result mapping is as before.
    [never_raises c]: [c] returns. *)

Definition grows (P : Event -> Prop) (st st' : St) : Prop :=
  exists evs, trace st' = (evs ++ trace st)%list /\ Forall P evs.

Definition frame (P : Event -> Prop) {A} (c : Run A) : Prop :=
  forall st r st', c st = (r, st') -> grows P st st' /\ result st' = result st.

Definition emits (P : Event -> Prop) {A} (c : Run A) : Prop :=
  forall st r st', c st = (r, st') -> grows P st st'.

Definition fails_early {A} (c : Run A) : Prop :=
  forall st e st', c st = (Raise e, st') -> result st' = result st.

Definition never_raises {A} (c : Run A) : Prop :=
  forall st, exists a st', c st = (Ok a, st').

Lemma grows_refl P st : grows P st st.
Proof. exists []. split; [reflexivity|constructor]. Qed.

Lemma grows_trans P st1 st2 st3 :
  grows P st1 st2 -> grows P st2 st3 -> grows P st1 st3.
Proof.
  intros (e1 & H1 & F1) (e2 & H2 & F2). exists (e2 ++ e1)%list. split.
  - rewrite H2, H1. now rewrite app_assoc.
  - apply Forall_app. now split.
Qed.

Lemma grows_record (P : Event -> Prop) ev st : P ev -> grows P st (record ev st).
Proof. intros H. exists [ev]. split; [reflexivity|]. now constructor. Qed.

Lemma grows_Forall P st st' :
  grows P st st' -> Forall P (trace st) -> Forall P (trace st').
Proof. intros (evs & -> & F) H. apply Forall_app. now split. Qed.

Lemma frame_emits P {A} (c : Run A) : frame P c -> emits P c.
Proof. intros H st r st' E. now destruct (H _ _ _ E). Qed.

Lemma frame_fails_early P {A} (c : Run A) : frame P c -> fails_early c.
Proof. intros H st e st' E. now destruct (H _ _ _ E). Qed.

Lemma never_raises_fails_early {A} (c : Run A) : never_raises c -> fails_early c.
Proof.
  intros H st e st' E. destruct (H st) as (a & st1 & E1). congruence.
Qed.

(** Rules for [frame]. *)

Lemma frame_ret P {A} (a : A) : frame P (ret (S := St) a).
Proof. intros st r st' [= <- <-]. split; [apply grows_refl|reflexivity]. Qed.

Lemma frame_lift P {A} (x : Result A) : frame P (lift (S := St) x).
Proof. intros st r st' [= <- <-]. split; [apply grows_refl|reflexivity]. Qed.

Lemma frame_raise P {A} (e : Exn) : frame P (raise (S := St) (A := A) e).
Proof. intros st r st' [= <- <-]. split; [apply grows_refl|reflexivity]. Qed.

Lemma frame_gets P {A} (f : St -> A) : frame P (gets f).
Proof. intros st r st' [= <- <-]. split; [apply grows_refl|reflexivity]. Qed.

Lemma frame_now P : frame P (now w).
Proof.
  intros st r st' [= <- <-]. split; [|reflexivity].
  exists []. split; [reflexivity|constructor].
Qed.

Lemma frame_set_current_repo_path P p : frame P (set_current_repo_path p).
Proof.
  intros st r st' [= <- <-]. split; [|reflexivity].
  exists []. split; [reflexivity|constructor].
Qed.

Lemma frame_call (P : Event -> Prop) {A} ev (answer : Result A) :
  P ev -> frame P (call ev answer).
Proof.
  intros H st r st' [= <- <-]. split; [now apply grows_record|reflexivity].
Qed.

Lemma frame_bind P {A B} (c : Run A) (k : A -> Run B) :
  frame P c -> (forall a, frame P (k a)) -> frame P (bind c k).
Proof.
  intros Hc Hk st r st' E. unfold bind in E.
  destruct (c st) as [[a|e] st1] eqn:Ec.
  - destruct (Hc _ _ _ Ec) as [G1 R1]. destruct (Hk a _ _ _ E) as [G2 R2].
    split; [eapply grows_trans; eauto|congruence].
  - injection E as <- <-. eauto.
Qed.

Lemma frame_try_except P {A} (body : Run A) (handler : Exn -> Run A) :
  frame P body -> (forall e, frame P (handler e)) -> frame P (try_except body handler).
Proof.
  intros Hb Hh st r st' E. unfold try_except in E.
  destruct (body st) as [[a|e] st1] eqn:Eb.
  - injection E as <- <-. eauto.
  - destruct (Hb _ _ _ Eb) as [G1 R1].
    destruct (is_Exception (exn_class e)).
    + destruct (Hh e _ _ _ E) as [G2 R2].
      split; [eapply grows_trans; eauto|congruence].
    + injection E as <- <-. eauto.
Qed.

Lemma frame_notify (P : Event -> Prop) self status issue_url details :
  (forall url p, P (EvWebhookPost url p)) ->
  frame P (notify w self status issue_url details).
Proof.
  intros HP st r st' E. rewrite notify_eq in E. injection E as <- <-.
  split; [|reflexivity]. unfold delivered.
  destruct (webhook_of _).
  - eexists [_]. split; [reflexivity|]. constructor; auto.
  - exists []. split; [reflexivity|constructor].
Qed.

(** Rules for [emits]. *)

Lemma emits_update_result P f : emits P (update_result f).
Proof. intros st r st' [= <- <-]. exists []. split; [reflexivity|constructor]. Qed.

Lemma emits_bind P {A B} (c : Run A) (k : A -> Run B) :
  emits P c -> (forall a, emits P (k a)) -> emits P (bind c k).
Proof.
  intros Hc Hk st r st' E. unfold bind in E.
  destruct (c st) as [[a|e] st1] eqn:Ec.
  - eapply grows_trans; [exact (Hc _ _ _ Ec)|exact (Hk a _ _ _ E)].
  - injection E as <- <-. exact (Hc _ _ _ Ec).
Qed.

Lemma emits_try_except P {A} (body : Run A) (handler : Exn -> Run A) :
  emits P body -> (forall e, emits P (handler e)) -> emits P (try_except body handler).
Proof.
  intros Hb Hh st r st' E. unfold try_except in E.
  destruct (body st) as [[a|e] st1] eqn:Eb.
  - injection E as <- <-. exact (Hb _ _ _ Eb).
  - destruct (is_Exception (exn_class e)).
    + eapply grows_trans; [exact (Hb _ _ _ Eb)|exact (Hh e _ _ _ E)].
    + injection E as <- <-. exact (Hb _ _ _ Eb).
Qed.

(** Rules for [never_raises]. *)

Lemma never_raises_ret {A} (a : A) : never_raises (ret (S := St) a).
Proof. intros st. unfold ret. eauto. Qed.

Lemma never_raises_now : never_raises (now w).
Proof. intros st. unfold now. eauto. Qed.

Lemma never_raises_update_result f : never_raises (update_result f).
Proof. intros st. unfold update_result, modify. eauto. Qed.

Lemma never_raises_bind {A B} (c : Run A) (k : A -> Run B) :
  never_raises c -> (forall a, never_raises (k a)) -> never_raises (bind c k).
Proof.
  intros Hc Hk st. unfold bind.
  destruct (Hc st) as (a & st1 & ->). apply Hk.
Qed.

Lemma never_raises_notify self status issue_url details :
  post_ordinary -> never_raises (notify w self status issue_url details).
Proof.
  intros Hp st. rewrite notify_eq, notify_answer_ordinary by assumption. eauto.
Qed.

(** Rules for [fails_early]. *)

Lemma fails_early_bind_frame P {A B} (c : Run A) (k : A -> Run B) :
  frame P c -> (forall a, fails_early (k a)) -> fails_early (bind c k).
Proof.
  intros Hc Hk st e st' E. unfold bind in E.
  destruct (c st) as [[a|e1] st1] eqn:Ec.
  - destruct (Hc _ _ _ Ec) as [_ R1]. rewrite (Hk a _ _ _ E). exact R1.
  - injection E as <- <-. now destruct (Hc _ _ _ Ec).
Qed.

Lemma fails_early_bind_total {A B} (c : Run A) (k : A -> Run B) :
  fails_early c -> (forall a, never_raises (k a)) -> fails_early (bind c k).
Proof.
  intros Hc Hk st e st' E. unfold bind in E.
  destruct (c st) as [[a|e1] st1] eqn:Ec.
  - destruct (Hk a st1) as (b & st2 & E2). congruence.
  - injection E as <- <-. eauto.
Qed.

(** *** The phases of a session *)

Definition is_setup_event (ev : Event) : Prop :=
  match ev with
  | EvGetIssue _ _ _ | EvGetRepository _ _ | EvMkdir _
  | EvCloneRepository _ _ _ | EvCreateBranch _ _ | EvWebhookPost _ _ => True
  | _ => False
  end.

Definition is_post (ev : Event) : Prop :=
  match ev with
  | EvWebhookPost _ _ => True
  | _ => False
  end.

Ltac walk_frame :=
  repeat match goal with
  | |- forall _, _ => intro
  | |- frame _ (notify _ _ _ _ _) => apply frame_notify
  | |- frame _ (ret _) => apply frame_ret
  | |- frame _ (lift _) => apply frame_lift
  | |- frame _ (raise _) => apply frame_raise
  | |- frame _ (gets _) => apply frame_gets
  | |- frame _ (now _) => apply frame_now
  | |- frame _ (set_current_repo_path _) => apply frame_set_current_repo_path
  | |- frame _ (call _ _) => apply frame_call
  | |- frame _ (try_except _ _) => apply frame_try_except
  | |- frame _ (bind _ _) => apply frame_bind
  | |- frame _ (match ?x with _ => _ end) => destruct x
  end.

Lemma frame_prepare (P : Event -> Prop) self session_start issue_url instruction
  branch_name :
  (forall ev, is_setup_event ev -> P ev) ->
  frame P (prepare w urlparse_path self session_start issue_url instruction
             branch_name).
Proof.
  intros HP. unfold prepare. cbv zeta. walk_frame; apply HP; exact I.
Qed.

Lemma frame_run_claude_code_session (P : Event -> Prop) repo_path instruction
  max_time :
  (forall c, P (EvSubprocessRun c)) ->
  frame P (run_claude_code_session (subprocess_run w) repo_path instruction
             max_time).
Proof.
  intros HP. unfold run_claude_code_session, subprocess_run. cbv zeta.
  walk_frame; apply HP.
Qed.

Lemma frame_has_changes (P : Event -> Prop) :
  P EvIsDirty -> P EvUntrackedFiles -> frame P (has_changes w).
Proof. intros H1 H2. unfold has_changes. walk_frame; assumption. Qed.

Lemma frame_pull_request_step (P : Event -> Prop) self issue_url instruction p
  analysis create_pr draft_pr :
  (forall o r t b h base d, P (EvCreatePullRequest o r t b h base d)) ->
  (forall o r n c, P (EvAddCommentToIssue o r n c)) ->
  frame P (pull_request_step w self issue_url instruction p analysis
             create_pr draft_pr).
Proof.
  intros H1 H2. unfold pull_request_step. cbv zeta. walk_frame; auto.
Qed.

Ltac walk_emits :=
  repeat match goal with
  | |- forall _, _ => intro
  | |- emits _ (notify _ _ _ _ _) => apply frame_emits; apply frame_notify
  | |- emits _ (now _) => apply frame_emits; apply frame_now
  | |- emits _ (update_result _) => apply emits_update_result
  | |- emits _ (ret _) => apply frame_emits; apply frame_ret
  | |- emits _ (lift _) => apply frame_emits; apply frame_lift
  | |- emits _ (call _ _) => apply frame_emits; apply frame_call
  | |- emits _ (try_except _ _) => apply emits_try_except
  | |- emits _ (bind _ _) => apply emits_bind
  | |- emits _ (match ?x with _ => _ end) => destruct x
  end.

Lemma emits_after_failure (P : Event -> Prop) self issue_url analysis :
  (forall ev, is_post ev -> P ev) ->
  emits P (after_failure w self issue_url analysis).
Proof.
  intros HP. unfold after_failure. walk_emits; apply HP; exact I.
Qed.

Lemma emits_no_changes (P : Event -> Prop) self issue_url :
  (forall ev, is_post ev -> P ev) ->
  emits P (no_changes w self issue_url).
Proof.
  intros HP. unfold no_changes. walk_emits; apply HP; exact I.
Qed.

Lemma emits_on_exception (P : Event -> Prop) self issue_url e :
  (forall ev, is_post ev -> P ev) ->
  emits P (on_exception w self issue_url e).
Proof.
  intros HP. unfold on_exception. walk_emits; apply HP; exact I.
Qed.

(** Under [post_ordinary] the closing steps of every branch return. *)

Ltac walk_total Hp :=
  repeat match goal with
  | |- forall _, _ => intro
  | |- never_raises (notify _ _ _ _ _) => apply (never_raises_notify _ _ _ _ Hp)
  | |- never_raises (ret _) => apply never_raises_ret
  | |- never_raises (now _) => apply never_raises_now
  | |- never_raises (update_result _) => apply never_raises_update_result
  | |- never_raises (bind _ _) => apply never_raises_bind
  end.

Lemma never_raises_after_failure self issue_url analysis :
  post_ordinary -> never_raises (after_failure w self issue_url analysis).
Proof. intros Hp. unfold after_failure. walk_total Hp. Qed.

Lemma never_raises_no_changes self issue_url :
  post_ordinary -> never_raises (no_changes w self issue_url).
Proof. intros Hp. unfold no_changes. walk_total Hp. Qed.

Lemma never_raises_on_exception self issue_url e :
  post_ordinary -> never_raises (on_exception w self issue_url e).
Proof. intros Hp. unfold on_exception. walk_total Hp. Qed.

Definition any_event (ev : Event) : Prop := True.

Ltac frame_any :=
  match goal with
  | |- frame _ (prepare _ _ _ _ _ _ _) => apply frame_prepare
  | |- frame _ (run_claude_code_session _ _ _ _) => apply frame_run_claude_code_session
  | |- frame _ (has_changes _) => apply frame_has_changes
  | |- frame _ (pull_request_step _ _ _ _ _ _ _ _) => apply frame_pull_request_step
  | |- frame _ (call _ _) => apply frame_call
  | |- frame _ (now _) => apply frame_now
  | |- frame _ (notify _ _ _ _ _) => apply frame_notify
  | |- frame _ (lift _) => apply frame_lift
  end; intros; exact I.

Lemma fails_early_commit_and_publish self issue_url instruction p analysis
  create_pr draft_pr :
  post_ordinary ->
  fails_early (commit_and_publish w self issue_url instruction p analysis
                 create_pr draft_pr).
Proof.
  intros Hp. unfold commit_and_publish.
  repeat (apply (fails_early_bind_frame any_event); [frame_any|intro]).
  apply never_raises_fails_early. walk_total Hp.
Qed.

Lemma fails_early_after_success self session_start issue_url instruction p
  analysis create_pr draft_pr :
  post_ordinary ->
  fails_early (after_success w self session_start issue_url instruction p
                 analysis create_pr draft_pr).
Proof.
  intros Hp. unfold after_success.
  apply (fails_early_bind_frame any_event); [frame_any|intros changed].
  apply fails_early_bind_total; [|walk_total Hp].
  destruct changed.
  - now apply fails_early_commit_and_publish.
  - apply never_raises_fails_early. now apply never_raises_no_changes.
Qed.

Lemma fails_early_assistant_phase self session_start issue_url instruction p
  max_time create_pr draft_pr :
  post_ordinary ->
  fails_early (assistant_phase w self session_start issue_url instruction p
                 max_time create_pr draft_pr).
Proof.
  intros Hp. unfold assistant_phase.
  apply (fails_early_bind_frame any_event); [frame_any|intros result].
  cbv zeta. destruct (negb _).
  - apply never_raises_fails_early. now apply never_raises_after_failure.
  - now apply fails_early_after_success.
Qed.

(** If the body of the [try] raises, the result mapping is still the one
    it started with. *)
Lemma fails_early_session_body self session_start issue_url instruction
  branch_name create_pr draft_pr :
  post_ordinary ->
  fails_early (session_body w urlparse_path claude_getattr self session_start
                 issue_url instruction branch_name create_pr draft_pr).
Proof.
  intros Hp. unfold session_body, read_budget.
  apply (fails_early_bind_frame any_event); [frame_any|intros p].
  apply (fails_early_bind_frame any_event); [frame_any|intros max_time].
  now apply fails_early_assistant_phase.
Qed.

(** *** The whole of [run_session] *)

(** The state on entering the [try]: one clock reading made, the result
    mapping freshly built. *)
Definition entered (issue_url instruction : string) : St :=
  set_result (fresh_result issue_url instruction (w_now w 0)) (tick (initial w)).

Lemma run_session_unfold self issue_url instruction branch_name create_pr draft_pr :
  run_session w urlparse_path claude_getattr self issue_url instruction
    branch_name create_pr draft_pr
  = match try_except
            (session_body w urlparse_path claude_getattr self (w_now w 0)
               issue_url instruction branch_name create_pr draft_pr)
            (on_exception w self issue_url)
            (entered issue_url instruction) with
    | (Ok _, st) => (Ok (result st), trace st)
    | (Raise e, st) => (Raise e, trace st)
    end.
Proof.
  unfold run_session, run_session_steps, bind, now, update_result, modify, gets.
  simpl. fold (entered issue_url instruction).
  destruct (try_except _ _ _) as [[[]|e] st]; reflexivity.
Qed.

(** The error notification of the handler. *)
Definition error_details (t : DateTime) (e : Exn) : Details :=
  {| d_timestamp := Some (isoformat t);
     d_summary := Some ("Session failed with error: " ++ exn_str e);
     d_changes := None; d_pr_url := None;
     d_errors := Some [exn_str e];
     d_repository := None; d_branch := None |}.

(** The result mapping once the handler has run. *)
Definition with_error (e : Exn) (t_end : DateTime) (r : SessionResult)
  : SessionResult :=
  {| success := success r; issue_url := Orchestrator.issue_url r;
     start_time := start_time r; r_instruction := r_instruction r;
     error := Some (exn_str e);
     details := details r;
     r_branch_name := r_branch_name r; pr_url := pr_url r;
     changes_committed := changes_committed r;
     session_analysis := session_analysis r;
     message := message r; end_time := Some (isoformat t_end);
     duration_micro := duration_micro r |}.

Lemma on_exception_eq self issue_url e st :
  post_ordinary ->
  on_exception w self issue_url e st
  = (Ok tt,
     {| trace := delivered (notification_manager self) "error" issue_url
                   (error_details (w_now w (S (clock_reads st))) e) (trace st);
        clock_reads := S (S (clock_reads st));
        result := with_error e (w_now w (clock_reads st)) (result st);
        current_repo_path := current_repo_path st |}).
Proof.
  intros Hp. destruct st as [tr n r p].
  unfold on_exception, bind, update_result, modify, now. simpl.
  rewrite notify_eq, notify_answer_ordinary by assumption. reflexivity.
Qed.

(** The call the runner makes for an integer budget: the hard limit is the
    budget plus sixty seconds. *)
Definition assistant_call (repo_path : Path) (instruction : string) (max_time : Z)
  : SubprocessCall :=
  {| cmd := ["claude-code"; "--"; instruction];
     cwd := repo_path; capture_output := true; text := true;
     timeout := (max_time + 60)%Z;
     env := [ ("CLAUDE_CODE_NON_INTERACTIVE", "1");
              ("CLAUDE_CODE_TIMEOUT", py_str_int max_time) ] |}.

Lemma run_claude_code_session_int repo_path instruction max_time st :
  run_claude_code_session (subprocess_run w) repo_path instruction
    (Config.AInt max_time) st
  = (w_subprocess_run w,
     record (EvSubprocessRun (assistant_call repo_path instruction max_time)) st).
Proof.
  unfold run_claude_code_session, try_except, bind, lift, subprocess_run, call,
    ret, raise, assistant_call. simpl.
  destruct (w_subprocess_run w) as [cp|e]; [reflexivity|].
  destruct (is_Exception (exn_class e)); reflexivity.
Qed.

Lemma run_claude_code_session_str repo_path instruction s st :
  exists e,
    run_claude_code_session (subprocess_run w) repo_path instruction
      (Config.AStr s) st = (Raise e, st)
    /\ exn_class e = TypeError.
Proof.
  unfold run_claude_code_session, try_except, bind, lift. simpl.
  eexists. split; reflexivity.
Qed.

(** What the caller gets when the body of the [try] raises an exception
    that derives from [Exception]. *)
Lemma run_session_caught self issue_url instruction branch_name create_pr
  draft_pr e st :
  post_ordinary ->
  session_body w urlparse_path claude_getattr self (w_now w 0) issue_url
    instruction branch_name create_pr draft_pr (entered issue_url instruction)
  = (Raise e, st) ->
  is_Exception (exn_class e) = true ->
  run_session w urlparse_path claude_getattr self issue_url instruction
    branch_name create_pr draft_pr
  = (Ok (with_error e (w_now w (clock_reads st))
           (fresh_result issue_url instruction (w_now w 0))),
     delivered (notification_manager self) "error" issue_url
       (error_details (w_now w (S (clock_reads st))) e) (trace st)).
Proof.
  intros Hp Hb He.
  pose proof (fails_early_session_body _ _ _ _ _ _ _ Hp _ _ _ Hb) as Hr.
  rewrite run_session_unfold. unfold try_except. rewrite Hb, He.
  rewrite on_exception_eq by assumption. simpl. now rewrite Hr.
Qed.

(** *** When a pull request is attempted *)

(** The assistant exits with code zero. *)
Definition assistant_succeeds : Prop :=
  exists cp, w_subprocess_run w = Ok cp /\ returncode cp = 0%Z.

(** The working tree is dirty or has untracked files. *)
Definition tree_has_diff : Prop :=
  w_is_dirty w = Ok true
  \/ (w_is_dirty w = Ok false /\ exists f fs, w_untracked_files w = Ok (f :: fs)).

(** Staging, commit and push go through. *)
Definition publishes : Prop :=
  w_git_add w = Ok tt /\ w_commit w = Ok tt /\ w_push_changes w = Ok tt.

Definition is_pull_request (ev : Event) : Prop :=
  match ev with
  | EvCreatePullRequest _ _ _ _ _ _ _ => True
  | _ => False
  end.

(** A pull-request call is only made if [Q] holds. *)
Definition pr_only_if (Q : Prop) (ev : Event) : Prop := is_pull_request ev -> Q.

Definition returns {A} (c : Run A) (a : A) : Prop :=
  exists st st', c st = (Ok a, st').

Lemma emits_bind_path P {A B} (c : Run A) (k : A -> Run B) :
  emits P c -> (forall a, returns c a -> emits P (k a)) -> emits P (bind c k).
Proof.
  intros Hc Hk st r st' E. unfold bind in E.
  destruct (c st) as [[a|e] st1] eqn:Ec.
  - eapply grows_trans; [exact (Hc _ _ _ Ec)|].
    refine (Hk a _ _ _ _ E). now exists st, st1.
  - injection E as <- <-. exact (Hc _ _ _ Ec).
Qed.

Lemma emits_call (P : Event -> Prop) {A} ev (answer : Result A) :
  P ev -> emits P (call ev answer).
Proof. intros H. apply frame_emits. now apply frame_call. Qed.

Lemma returns_call {A} ev (answer : Result A) a :
  returns (call ev answer) a -> answer = Ok a.
Proof. intros (st & st' & E). unfold call in E. congruence. Qed.

Lemma returns_run_claude_code_session repo_path instruction max_time cp :
  returns (run_claude_code_session (subprocess_run w) repo_path instruction
             max_time) cp ->
  w_subprocess_run w = Ok cp.
Proof.
  intros (st & st' & E). destruct max_time as [s|t].
  - destruct (run_claude_code_session_str repo_path instruction s st) as (e & E' & _).
    congruence.
  - rewrite run_claude_code_session_int in E. congruence.
Qed.

Lemma returns_has_changes : returns (has_changes w) true -> tree_has_diff.
Proof.
  intros (st & st' & E). unfold has_changes, bind, call, ret in E.
  unfold tree_has_diff.
  destruct (w_is_dirty w) as [[|]|]; try discriminate; auto.
  right. split; auto.
  destruct (w_untracked_files w) as [[|f fs]|]; try discriminate; eauto.
Qed.

Lemma a_success_zero cp :
  a_success (analyze_session_output cp) = true -> returncode cp = 0%Z.
Proof.
  unfold analyze_session_output.
  destruct (Z.eqb (returncode cp) 0) eqn:E; simpl; [|discriminate].
  intros _. now apply Z.eqb_eq.
Qed.

Lemma emits_post_only (Q : Prop) :
  forall ev, is_post ev -> pr_only_if Q ev.
Proof. intros [] H; try contradiction. intros []. Qed.

(** From the invocation of the assistant on, a pull request is only
    attempted after a successful run, a diff, a push that went through, and
    with both flags set. *)
Lemma assistant_phase_pr_only_if self session_start issue_url instruction p
  max_time create_pr draft_pr :
  emits (pr_only_if (assistant_succeeds /\ tree_has_diff /\ publishes
                     /\ create_pr = true
                     /\ Config.auto_create_pr (Config.development (config self)) = true))
    (assistant_phase w self session_start issue_url instruction p
       max_time create_pr draft_pr).
Proof.
  unfold assistant_phase.
  apply emits_bind_path.
  { apply frame_emits. apply frame_run_claude_code_session. intros c []. }
  intros cp Hcp. apply returns_run_claude_code_session in Hcp. cbv zeta.
  destruct (negb (a_success (analyze_session_output cp))) eqn:Es.
  { apply emits_after_failure. apply emits_post_only. }
  apply negb_false_iff, a_success_zero in Es.
  unfold after_success.
  apply emits_bind_path.
  { apply frame_emits. apply frame_has_changes; intros []. }
  intros changed Hch. apply emits_bind; [|walk_emits].
  destruct changed; [|apply emits_no_changes; apply emits_post_only].
  apply returns_has_changes in Hch.
  unfold commit_and_publish.
  apply emits_bind_path; [apply emits_call; intros []|].
  intros [] Hadd. apply returns_call in Hadd.
  apply emits_bind_path; [apply emits_call; intros []|].
  intros [] Hcommit. apply returns_call in Hcommit.
  apply emits_bind_path; [apply emits_call; intros []|].
  intros [] Hpush. apply returns_call in Hpush.
  apply emits_bind; [|walk_emits; unfold pr_only_if; simpl; contradiction].
  unfold pull_request_step.
  destruct create_pr; simpl;
    [|apply frame_emits; apply frame_ret].
  destruct (Config.auto_create_pr _) eqn:Ea;
    [|apply frame_emits; apply frame_ret].
  cbv zeta. apply frame_emits. walk_frame.
  - intros _. unfold assistant_succeeds, publishes. eauto 10.
  - intros [].
Qed.







Lemma a_success_of_zero cp :
  returncode cp = 0%Z -> a_success (analyze_session_output cp) = true.
Proof. intros H. unfold analyze_session_output. rewrite H. reflexivity. Qed.




(** *** Which exceptions can leave the body *)

Definition ordinary {A} (r : Result A) : Prop :=
  forall e, r = Raise e -> is_Exception (exn_class e) = true.

(** Every exception raised outside the process, by [urlparse] or by the
    attribute lookup derives from [Exception]. *)
Definition world_ordinary : Prop :=
  ordinary (w_get_issue w) /\ ordinary (w_get_repository w)
  /\ ordinary (w_mkdir w) /\ ordinary (w_clone_repository w)
  /\ ordinary (w_create_branch w) /\ post_ordinary
  /\ ordinary (w_subprocess_run w) /\ ordinary (w_is_dirty w)
  /\ ordinary (w_untracked_files w) /\ ordinary (w_git_add w)
  /\ ordinary (w_commit w) /\ ordinary (w_push_changes w)
  /\ ordinary (w_create_pull_request w) /\ ordinary (w_add_comment_to_issue w)
  /\ (forall url, ordinary (urlparse_path url))
  /\ (forall c name, ordinary (claude_getattr c name)).

Definition raises_ordinary {A} (c : Run A) : Prop :=
  forall st e st', c st = (Raise e, st') -> is_Exception (exn_class e) = true.

Lemma never_raises_ordinary {A} (c : Run A) : never_raises c -> raises_ordinary c.
Proof. intros H st e st' E. destruct (H st) as (a & st1 & E1). congruence. Qed.

Lemma raises_ordinary_ret {A} (a : A) : raises_ordinary (ret (S := St) a).
Proof. intros st e st' E. discriminate. Qed.

Lemma raises_ordinary_set_current_repo_path p :
  raises_ordinary (set_current_repo_path p).
Proof. intros st e st' E. discriminate. Qed.

Lemma raises_ordinary_lift {A} (r : Result A) :
  ordinary r -> raises_ordinary (lift (S := St) r).
Proof. intros H st e st' [= -> _]. now apply H. Qed.

Lemma raises_ordinary_call {A} ev (answer : Result A) :
  ordinary answer -> raises_ordinary (call ev answer).
Proof. intros H st e st' [= -> _]. now apply H. Qed.

Lemma raises_ordinary_raise {A} e :
  is_Exception (exn_class e) = true -> raises_ordinary (raise (S := St) (A := A) e).
Proof. intros H st e' st' [= <- _]. exact H. Qed.

Lemma raises_ordinary_bind {A B} (c : Run A) (k : A -> Run B) :
  raises_ordinary c -> (forall a, raises_ordinary (k a)) ->
  raises_ordinary (bind c k).
Proof.
  intros Hc Hk st e st' E. unfold bind in E.
  destruct (c st) as [[a|e1] st1] eqn:Ec.
  - exact (Hk a _ _ _ E).
  - injection E as <- <-. exact (Hc _ _ _ Ec).
Qed.

Lemma raises_ordinary_try_except {A} (body : Run A) (handler : Exn -> Run A) :
  raises_ordinary body -> (forall e, raises_ordinary (handler e)) ->
  raises_ordinary (try_except body handler).
Proof.
  intros Hb Hh st e st' E. unfold try_except in E.
  destruct (body st) as [[a|e1] st1] eqn:Eb; [discriminate|].
  destruct (is_Exception (exn_class e1)) eqn:E1.
  - exact (Hh e1 _ _ _ E).
  - injection E as <- <-. exact (Hb _ _ _ Eb).
Qed.

Lemma ordinary_rbind {A B} (r : Result A) (k : A -> Result B) :
  ordinary r -> (forall a, ordinary (k a)) -> ordinary (rbind r k).
Proof.
  intros Hr Hk e. destruct r as [a|e1]; simpl.
  - apply Hk.
  - intros [= <-]. now apply Hr.
Qed.

Lemma ordinary_parse_issue_url issue_url :
  (forall url, ordinary (urlparse_path url)) ->
  ordinary (GitHubClient.parse_issue_url urlparse_path issue_url).
Proof.
  intros Hu. unfold GitHubClient.parse_issue_url.
  apply ordinary_rbind; [apply Hu|]. intros path. cbv zeta.
  destruct (_ || _); [intros e [= <-]; reflexivity|].
  destruct (py_int _); intros e; [discriminate|intros [= <-]; reflexivity].
Qed.

Lemma ordinary_subscript d key : ordinary (subscript d key).
Proof.
  unfold subscript. destruct (json_get d key); intros e;
    [discriminate|intros [= <-]; reflexivity].
Qed.

Lemma ordinary_join_items sep parts : forall index,
  ordinary (join_items index sep parts).
Proof.
  induction parts as [|v rest IH]; intros index e; simpl; [discriminate|].
  destruct v; try (intros [= <-]; reflexivity).
  destruct rest as [|v' rest']; [discriminate|].
  apply ordinary_rbind; [apply IH|]. intros a e'. discriminate.
Qed.

Lemma ordinary_create_instruction_prompt instruction issue_data repo_data :
  ordinary (create_instruction_prompt instruction issue_data repo_data).
Proof. unfold create_instruction_prompt. cbv zeta. apply ordinary_join_items. Qed.

Lemma ordinary_plus_60 max_time : ordinary (plus_60 max_time).
Proof.
  destruct max_time; intros e; simpl; [intros [= <-]; reflexivity|discriminate].
Qed.

Lemma raises_ordinary_run_claude_code_session repo_path instruction max_time :
  ordinary (w_subprocess_run w) ->
  raises_ordinary (run_claude_code_session (subprocess_run w) repo_path
                     instruction max_time).
Proof.
  intros H st e st' E. destruct max_time as [s|t].
  - destruct (run_claude_code_session_str repo_path instruction s st)
      as (e' & E' & Hc).
    rewrite E' in E. injection E as <- <-. now rewrite Hc.
  - rewrite run_claude_code_session_int in E. injection E as E _. now apply H.
Qed.

Ltac walk_ordinary Hp :=
  repeat match goal with
  | |- forall _, _ => intro
  | |- raises_ordinary (run_claude_code_session _ _ _ _) =>
      apply raises_ordinary_run_claude_code_session
  | |- raises_ordinary (notify _ _ _ _ _) =>
      apply never_raises_ordinary; apply (never_raises_notify _ _ _ _ Hp)
  | |- raises_ordinary (now _) => apply never_raises_ordinary; apply never_raises_now
  | |- raises_ordinary (update_result _) =>
      apply never_raises_ordinary; apply never_raises_update_result
  | |- raises_ordinary (ret _) => apply raises_ordinary_ret
  | |- raises_ordinary (set_current_repo_path _) =>
      apply raises_ordinary_set_current_repo_path
  | |- raises_ordinary (lift _) => apply raises_ordinary_lift
  | |- raises_ordinary (call _ _) => apply raises_ordinary_call
  | |- raises_ordinary (raise _) => apply raises_ordinary_raise
  | |- raises_ordinary (try_except _ _) => apply raises_ordinary_try_except
  | |- raises_ordinary (bind _ _) => apply raises_ordinary_bind
  | |- raises_ordinary (match ?x with _ => _ end) => destruct x
  end.

(** In an ordinary world the body of the [try] only raises exceptions that
    the handler catches. *)
Lemma raises_ordinary_session_body self session_start issue_url instruction
  branch_name create_pr draft_pr :
  world_ordinary ->
  raises_ordinary (session_body w urlparse_path claude_getattr self session_start
                     issue_url instruction branch_name create_pr draft_pr).
Proof.
  intros (H1 & H2 & H3 & H4 & H5 & Hp & H7 & H8 & H9 & H10 & H11 & H12 & H13
          & H14 & Hu & Hg).
  unfold session_body, prepare, read_budget, assistant_phase,
    after_failure, after_success,
    has_changes, commit_and_publish, no_changes, pull_request_step.
  cbv zeta.
  walk_ordinary Hp;
    auto using ordinary_parse_issue_url, ordinary_subscript,
      ordinary_create_instruction_prompt, ordinary_plus_60.
Qed.

(** *** From the phases to the session *)


Lemma session_body_budget_raises self session_start issue_url instruction
  branch_name create_pr draft_pr st p st1 e :
  prepare w urlparse_path self session_start issue_url instruction branch_name st
  = (Ok p, st1) ->
  claude_getattr (Config.claude (config self)) "timeout" = Raise e ->
  session_body w urlparse_path claude_getattr self session_start issue_url
    instruction branch_name create_pr draft_pr st
  = (Raise e, st1).
Proof.
  intros Hprep Hread. unfold session_body, bind, read_budget, lift.
  now rewrite Hprep, Hread.
Qed.

(** A property of the calls of the body and of webhook posts holds of all
    calls of the session. *)
Lemma run_session_trace (P : Event -> Prop) self issue_url instruction
  branch_name create_pr draft_pr :
  emits P (session_body w urlparse_path claude_getattr self (w_now w 0) issue_url
             instruction branch_name create_pr draft_pr) ->
  (forall ev, is_post ev -> P ev) ->
  Forall P (snd (run_session w urlparse_path claude_getattr self issue_url
                   instruction branch_name create_pr draft_pr)).
Proof.
  intros Hbody Hpost. rewrite run_session_unfold.
  destruct (try_except _ _ _) as [r st] eqn:E.
  assert (G : grows P (entered issue_url instruction) st).
  { revert E. apply emits_try_except; auto.
    intros e. now apply emits_on_exception. }
  assert (F : Forall P (trace st)).
  { eapply grows_Forall; [exact G|]. constructor. }
  destruct r; exact F.
Qed.

Lemma emits_session_body_pr_only_if self session_start issue_url instruction
  branch_name create_pr draft_pr :
  emits (pr_only_if (assistant_succeeds /\ tree_has_diff /\ publishes
                     /\ create_pr = true
                     /\ Config.auto_create_pr (Config.development (config self)) = true))
    (session_body w urlparse_path claude_getattr self session_start issue_url
       instruction branch_name create_pr draft_pr).
Proof.
  unfold session_body, read_budget.
  apply emits_bind.
  { apply frame_emits. apply frame_prepare. intros [] H; try contradiction;
      intros []. }
  intros p. apply emits_bind; [apply frame_emits; apply frame_lift|].
  intros max_time. apply assistant_phase_pr_only_if.
Qed.


(** The body never invokes the assistant when the budget read raises. *)
Definition not_assistant (ev : Event) : Prop :=
  match ev with
  | EvSubprocessRun _ => False
  | _ => True
  end.

Lemma emits_session_body_budget_raises self session_start issue_url instruction
  branch_name create_pr draft_pr :
  (forall c, exists e, claude_getattr c "timeout" = Raise e) ->
  emits not_assistant
    (session_body w urlparse_path claude_getattr self session_start issue_url
       instruction branch_name create_pr draft_pr).
Proof.
  intros Hraise. unfold session_body, read_budget.
  apply emits_bind.
  { apply frame_emits. apply frame_prepare. intros [] H; try contradiction;
      exact I. }
  intros p. apply emits_bind_path; [apply frame_emits; apply frame_lift|].
  intros max_time (st & st' & E). unfold lift in E.
  destruct (Hraise (Config.claude (config self))) as (e & He). congruence.
Qed.

End Facts.

End OrchestratorFacts.

(** * The claims *)

Section IssueReferenceClaims.
Import GitHubClient GitHubClientFacts.

(** C8.  [parse_issue_url] returns exactly [(owner, repo, number)] for every
    URL whose path is [/owner/repo/issues/number] (segments without a slash,
    a non-empty owner, the number written as [str] writes it), and raises
    [ValueError], the code's invalid-reference error, whenever the third
    path segment is not [issues] or the fourth is missing or is not an
    integer literal. *)
Theorem parse_issue_url_roundtrip :
  forall (urlparse_path : string -> Result string) (url path : string),
    urlparse_path url = Ok path ->
    (forall owner repo n,
        path = "/" ++ owner ++ "/" ++ repo ++ "/issues/" ++ py_str_int n ->
        owner <> EmptyString ->
        lacks "/"%char owner = true -> lacks "/"%char repo = true ->
        parse_issue_url urlparse_path url = Ok (owner, repo, n))
    /\ (nth_error (split "/"%char (strip "/"%char path)) 2 <> Some "issues"
        \/ (forall t, nth_error (split "/"%char (strip "/"%char path)) 3 = Some t ->
                      py_int t = None) ->
        exists msg,
          parse_issue_url urlparse_path url = Raise (mkExn ValueError msg)).
Proof.
  intros urlparse_path url path Hp. split.
  - intros owner repo n -> Ho Hlo Hlr.
    eapply parse_issue_url_parts; [exact Hp| |apply py_int_str].
    apply issue_path_parts; auto using py_str_int_nonempty, py_str_int_lacks_slash.
  - intros H. eapply parse_issue_url_rejects; eauto.
Qed.

Lemma parse_issue_url_roundtrip_witness :
  parse_issue_url generic_url_path "https://host/ownerA/repoB/issues/42"
    = Ok ("ownerA", "repoB", 42%Z)
  /\ (exists msg,
        parse_issue_url generic_url_path "https://host/ownerA/repoB/pull/42"
        = Raise (mkExn ValueError msg))
  /\ (exists msg,
        parse_issue_url generic_url_path "https://host/ownerA/repoB/issues/fortytwo"
        = Raise (mkExn ValueError msg)).
Proof.
  split; [|split].
  - apply (proj1 (parse_issue_url_roundtrip generic_url_path
                    "https://host/ownerA/repoB/issues/42"
                    "/ownerA/repoB/issues/42" eq_refl) "ownerA" "repoB" 42%Z);
      [reflexivity|discriminate|reflexivity|reflexivity].
  - apply (proj2 (parse_issue_url_roundtrip generic_url_path
                    "https://host/ownerA/repoB/pull/42"
                    "/ownerA/repoB/pull/42" eq_refl)).
    left. simpl. discriminate.
  - apply (proj2 (parse_issue_url_roundtrip generic_url_path
                    "https://host/ownerA/repoB/issues/fortytwo"
                    "/ownerA/repoB/issues/fortytwo" eq_refl)).
    right. simpl. intros t [= <-]. reflexivity.
Defined.

(** C10.  Whenever the path has at least four segments, the third being
    [issues] and the fourth an integer literal, [parse_issue_url] succeeds
    with the first, second and fourth segment: whatever segments follow are
    not looked at, and a negative literal is accepted like any other. *)
Theorem parse_issue_url_first_four :
  forall (urlparse_path : string -> Result string) (url path : string)
         (a b t : string) (rest : list string) (n : Z),
    urlparse_path url = Ok path ->
    split "/"%char (strip "/"%char path) = a :: b :: "issues" :: t :: rest ->
    py_int t = Some n ->
    parse_issue_url urlparse_path url = Ok (a, b, n).
Proof. intros. eapply parse_issue_url_parts; eauto. Qed.

Lemma parse_issue_url_first_four_witness :
  parse_issue_url generic_url_path "https://github.com/o/r/issues/42/comments"
    = Ok ("o", "r", 42%Z)
  /\ parse_issue_url generic_url_path "https://github.com/o/r/issues/-7"
    = Ok ("o", "r", (-7)%Z).
Proof.
  split.
  - apply (parse_issue_url_first_four generic_url_path
             "https://github.com/o/r/issues/42/comments"
             "/o/r/issues/42/comments" "o" "r" "42" ["comments"] 42%Z);
      reflexivity.
  - apply (parse_issue_url_first_four generic_url_path
             "https://github.com/o/r/issues/-7"
             "/o/r/issues/-7" "o" "r" "-7" [] (-7)%Z);
      reflexivity.
Defined.

End IssueReferenceClaims.

Section ConfigurationClaims.
Import Config ConfigFacts.




End ConfigurationClaims.

Section ConfigurationDefaults.
Import Config ConfigExamples.

(** A file that has a [github] section only. *)
Definition file_github_only : PyVal :=
  VDict [ ("github", VDict [("token", VStr "file-github-token")]) ].

(** C5.  With both credentials in the environment and no configuration
    file (the case of [test_config_from_env]), or with a file that lacks
    the [claude] section, [merge_dict] stores the override mapping as it
    is, [model: None] included, and validation rejects the [None]: the
    load fails although no required field is missing.  With [CLAUDE_MODEL]
    set as well the load succeeds and the other fields take their
    defaults. *)
Theorem load_from_file_env_only :
  merge_dict (VDict []) (env_overrides env_creds_only)
  = inr (VDict
      [ ("claude", VDict [ ("api_key", VStr "test-claude-key"); ("model", VNone) ]);
        ("github", VDict [ ("token", VStr "test-github-token") ]);
        ("notifications",
          VDict [ ("discord", VDict [ ("webhook_url", VNone); ("bot_token", VNone);
                                      ("channel_id", VNone) ]);
                  ("email", VDict [ ("smtp_server", VNone); ("username", VNone);
                                    ("password", VNone); ("to_email", VNone) ]) ]) ])
  /\ load_from_file None env_creds_only = RaisedValidationError [["claude"; "model"]]
  /\ load_from_file (Some file_github_only)
       (env_of [("ANTHROPIC_API_KEY", "test-claude-key")])
     = RaisedValidationError [["claude"; "model"]]
  /\ load_from_file None
       (env_of [ ("ANTHROPIC_API_KEY", "test-claude-key");
                 ("GITHUB_TOKEN", "test-github-token");
                 ("CLAUDE_MODEL", "claude-3-opus-20240229") ])
     = Loaded
         {| claude := {| api_key := "test-claude-key";
                         model := "claude-3-opus-20240229";
                         max_tokens := 4000 |};
            github := {| token := "test-github-token"; default_branch := "main" |};
            notifications := default_NotificationConfig;
            development := default_DevelopmentConfig;
            logging := default_LoggingConfig |}.
Proof. repeat split. Qed.

End ConfigurationDefaults.

Section PromptClaims.
Import ClaudeSession ClaudeSessionFacts.

(** C9.  [create_instruction_prompt] does not return a text for every
    issue context.  The issue description is put among the lines as it is,
    so an issue whose [body] is present but is no text (the API reports an
    issue without description with a null body) makes the closing [join]
    raise [TypeError], whatever the instruction and the repository context
    are; the same call without the issue context returns the preamble, the
    repository block and the checklist. *)
Theorem create_instruction_prompt_body_not_text :
  forall (instruction : string) (issue_data : JObj) (repo_data : option JObj)
         (body : JVal),
    json_get issue_data "body" = Some body ->
    (forall s, body <> JStr s) ->
    create_instruction_prompt instruction (Some issue_data) repo_data
    = Raise (mkExn TypeError (body_message body))
    /\ create_instruction_prompt instruction None repo_data
       = Ok (preamble_text instruction ++ repo_text repo_data ++ checklist_text).
Proof.
  intros instruction issue_data repo_data body Hb Hn.
  split.
  - now apply prompt_body_raises.
  - exact (prompt_text instruction None repo_data body_is_text_none).
Qed.

Lemma create_instruction_prompt_body_not_text_witness :
  create_instruction_prompt "fix it" (Some SessionExamples.undescribed_issue) None
  = Raise (mkExn TypeError
             "sequence item 10: expected str instance, NoneType found")
  /\ create_instruction_prompt "fix it" None None
     = Ok (preamble_text "fix it" ++ repo_text None ++ checklist_text).
Proof.
  apply (create_instruction_prompt_body_not_text "fix it"
           SessionExamples.undescribed_issue None JNull eq_refl).
  intros s H. discriminate H.
Defined.

End PromptClaims.

Section NotificationClaims.
Import ClaudeSession Notifications Orchestrator OrchestratorFacts.

Definition is_smtp (ev : Event) : Prop :=
  match ev with
  | EvSmtpSend _ _ => True
  | _ => False
  end.

(** A manager whose only enabled channel is email, fully configured. *)
Definition email_only : NotificationManager :=
  {| discord := None;
     email := Some {| smtp_server := Some "smtp.example.org"; smtp_port := 587;
                      username := Some "forge@example.org";
                      password := Some "secret";
                      from_email := Some "forge@example.org" |} |}.

(** A manager whose chat channel is enabled without a webhook URL. *)
Definition chat_without_url : NotificationManager :=
  {| discord := Some {| webhook_url := None; bot_token := Some "bot" |};
     email := None |}.

Definition five_changes : Details :=
  {| d_timestamp := Some "2024-01-01T00:00:00";
     d_summary := Some "done";
     d_changes := Some ["a"; "b"; "c"; "d"; "e"; "f"; "g"];
     d_pr_url := None; d_errors := None; d_repository := None;
     d_branch := None |}.

(** C7, as amended.  [notify_session_status] renders the embed and makes
    one webhook delivery exactly when the chat channel is enabled and has a
    non-empty webhook URL; the embed lists at most the first five changes.
    A failure of that delivery is swallowed unless the exception does not
    derive from [Exception].  For the email channel the subject and the
    plain and HTML bodies are rendered, the HTML body being the plain one
    with [<br>] for each line end, and no email delivery is made: the calls
    on record after the notification are those before it plus at most the
    webhook post. *)
Theorem notify_session_status_channels :
  forall (w : World) (mgr : NotificationManager) (status issue_url : string)
         (details : Details) (st : St),
    notify_session_status (post w) mgr status issue_url details st
    = (notify_answer w mgr status issue_url details (trace st),
       set_trace (delivered mgr status issue_url details (trace st)) st)
    /\ delivered mgr status issue_url details (trace st)
       = match webhook_of mgr with
         | Some url =>
             EvWebhookPost url
               {| content := "ClaudeForge session " ++ status ++ " for " ++ issue_url;
                  embeds := Some [create_session_embed status issue_url details] |}
             :: trace st
         | None => trace st
         end
    /\ (forall e, notify_answer w mgr status issue_url details (trace st) = Raise e ->
                  is_Exception (exn_class e) = false)
    /\ (forall c cs, d_changes details = Some (c :: cs) ->
          In {| name := "Changes Made";
                value := JStr (join nl (firstn 5 (c :: cs)));
                inline := false |}
             (fields (create_session_embed status issue_url details)))
    /\ snd (create_session_email status issue_url details)
       = replace_char LF "<br>" (snd (fst (create_session_email status issue_url details)))
    /\ (forall ev, In ev (delivered mgr status issue_url details (trace st)) ->
                   is_smtp ev -> In ev (trace st)).
Proof.
  intros w mgr status issue_url details st.
  split; [apply notify_session_status_eq|].
  split; [reflexivity|].
  split.
  { unfold notify_answer. intros e.
    destruct (webhook_of mgr); [|discriminate].
    destruct (w_post w _) as [[]|e']; [discriminate|].
    destruct (is_Exception (exn_class e')) eqn:E; [discriminate|].
    now intros [= <-]. }
  split.
  { intros c cs Hc. unfold create_session_embed. rewrite Hc. cbn [fields].
    destruct (d_pr_url details); simpl; auto 10. }
  split; [reflexivity|].
  intros ev Hin Hsmtp. unfold delivered in Hin.
  destruct (webhook_of mgr); [|exact Hin].
  destruct Hin as [<-|Hin]; [contradiction|exact Hin].
Qed.

(** Against C7 as stated: with the email channel enabled and configured,
    or with the chat channel enabled but no webhook URL, a notification
    makes no delivery attempt at all. *)
Lemma enabled_channel_without_delivery :
  notify_session_status (post SessionExamples.calm_world) email_only "success"
    SessionExamples.sample_url five_changes (initial SessionExamples.calm_world)
  = (Ok tt, initial SessionExamples.calm_world)
  /\ trace (initial SessionExamples.calm_world) = []
  /\ notify_session_status (post SessionExamples.calm_world) chat_without_url
       "success" SessionExamples.sample_url five_changes
       (initial SessionExamples.calm_world)
     = (Ok tt, initial SessionExamples.calm_world).
Proof. repeat split. Qed.

End NotificationClaims.

Section SessionClaims.
Import ClaudeSession Notifications Orchestrator OrchestratorFacts SessionExamples.

(** C1.  The runner does enforce a hard limit of the budget plus sixty
    seconds, and the schema default of the session time is 3600 seconds;
    but [run_session] fetches the budget as [self.config.claude.timeout],
    an attribute that [ClaudeConfig] does not declare.  The read raises
    [AttributeError] for every settings object, so no session ever invokes
    the assistant: a session in which fetch, clone and branch succeed ends
    in the handler with that error. *)
Theorem budget_read_raises_before_assistant :
  (forall w repo_path instruction max_time st,
      run_claude_code_session (subprocess_run w) repo_path instruction
        (Config.AInt max_time) st
      = (w_subprocess_run w,
         record (EvSubprocessRun (assistant_call repo_path instruction max_time)) st)
      /\ timeout (assistant_call repo_path instruction max_time) = (max_time + 60)%Z)
  /\ Config.max_session_time Config.default_DevelopmentConfig = 3600%Z
  /\ default_max_time = 3600%Z
  /\ (forall c,
        Config.getattr_ClaudeConfig c "timeout"
        = Raise (mkExn AttributeError
                   "'ClaudeConfig' object has no attribute 'timeout'"))
  /\ (forall w urlparse_path self issue_url instruction branch_name create_pr
             draft_pr,
        Forall not_assistant
          (snd (run_session w urlparse_path Config.getattr_ClaudeConfig self
                  issue_url instruction branch_name create_pr draft_pr)))
  /\ (exists r tr,
        session calm_world Config.getattr_ClaudeConfig true = (Ok r, tr)
        /\ success r = false
        /\ error r = Some "'ClaudeConfig' object has no attribute 'timeout'"
        /\ Forall not_assistant tr).
Proof.
  split; [|split; [|split; [|split; [|split]]]]; try reflexivity.
  - intros. split; [apply run_claude_code_session_int|reflexivity].
  - intros. apply run_session_trace.
    + apply emits_session_body_budget_raises. intros c. eexists. reflexivity.
    + intros [] H; try contradiction; exact I.
  - eexists. eexists. split; [vm_compute; reflexivity|].
    repeat split. repeat constructor.
Qed.

(** C3.  When webhook deliveries raise nothing but [Exception]s: whatever
    exception deriving from [Exception] the body of [run_session] raises,
    at any phase, [run_session] returns a result mapping whose [error] is
    the exception's message and whose [success] is false; and if no
    collaborator raises anything but [Exception]s, [run_session] always
    hands a result mapping back. *)
Theorem run_session_catches_exceptions :
  forall w urlparse_path claude_getattr self issue_url instruction branch_name
         create_pr draft_pr,
    post_ordinary w ->
    (forall e st,
        session_body w urlparse_path claude_getattr self (w_now w 0) issue_url
          instruction branch_name create_pr draft_pr (entered w issue_url instruction)
        = (Raise e, st) ->
        is_Exception (exn_class e) = true ->
        exists r tr,
          run_session w urlparse_path claude_getattr self issue_url instruction
            branch_name create_pr draft_pr = (Ok r, tr)
          /\ error r = Some (exn_str e)
          /\ success r = false)
    /\ (world_ordinary w urlparse_path claude_getattr ->
        exists r tr,
          run_session w urlparse_path claude_getattr self issue_url instruction
            branch_name create_pr draft_pr = (Ok r, tr)).
Proof.
  intros w urlparse_path claude_getattr self issue_url instruction branch_name
    create_pr draft_pr Hp.
  split.
  - intros e st Hb He.
    pose proof (fails_early_session_body _ _ _ _ _ _ _ _ _ _ Hp _ _ _ Hb) as Hr.
    rewrite run_session_unfold. unfold try_except. rewrite Hb, He.
    rewrite on_exception_eq by assumption.
    eexists. eexists. split; [reflexivity|]. simpl. rewrite Hr. split; reflexivity.
  - intros Hw. rewrite run_session_unfold. unfold try_except.
    destruct (session_body _ _ _ _ _ _ _ _ _ _ _) as [[[]|e] st] eqn:Hb; [eauto|].
    rewrite (raises_ordinary_session_body _ _ _ _ _ _ _ _ _ _ Hw _ _ _ Hb).
    rewrite on_exception_eq by assumption. eauto.
Qed.

Lemma calm_post_ordinary run push : post_ordinary (world_with run push).
Proof. intros h e H. discriminate H. Qed.

Lemma world_without_clone_post_ordinary : post_ordinary world_without_clone.
Proof. intros h e H. discriminate H. Qed.

Lemma run_session_catches_exceptions_witness :
  exists r tr,
    session world_without_clone Config.getattr_ClaudeConfig true = (Ok r, tr)
    /\ error r = Some "clone failed"
    /\ success r = false.
Proof.
  eapply (proj1 (run_session_catches_exceptions world_without_clone
                   GitHubClient.generic_url_path Config.getattr_ClaudeConfig
                   (init sample_config) sample_url "fix it" None true false
                   world_without_clone_post_ordinary)
            clone_refused).
  - vm_compute. reflexivity.
  - reflexivity.
Defined.

End SessionClaims.

(** * Further properties of the code *)

Section ConfigurationExtras.
Import Config ConfigFacts.

Definition missing (loc : Loc) (x : option string) : list Loc :=
  match x with
  | Some _ => []
  | None => [loc]
  end.

Lemma as_opt_str_getenv env x : as_opt_str (getenv env x) = Some (env x).
Proof. unfold getenv. destruct (env x); reflexivity. Qed.

Lemma env_only_outcome (env : Env) :
  load_from_file None env =
  match env "ANTHROPIC_API_KEY", env "CLAUDE_MODEL", env "GITHUB_TOKEN" with
  | Some a, Some m, Some g =>
      Loaded
        {| claude := {| api_key := a; model := m; max_tokens := 4000 |};
           github := {| token := g; default_branch := "main" |};
           notifications :=
             {| discord := {| discord_enabled := false;
                              webhook_url := env "DISCORD_WEBHOOK_URL";
                              bot_token := env "DISCORD_BOT_TOKEN";
                              channel_id := env "DISCORD_CHANNEL_ID" |};
                email := {| email_enabled := false;
                            smtp_server := env "SMTP_SERVER";
                            smtp_port := 587;
                            username := env "SMTP_USERNAME";
                            password := env "SMTP_PASSWORD";
                            to_email := env "EMAIL_TO" |} |};
           development := default_DevelopmentConfig;
           logging := default_LoggingConfig |}
  | a, m, g =>
      RaisedValidationError
        (missing ["claude"; "api_key"] a ++ missing ["claude"; "model"] m
         ++ missing ["github"; "token"] g)%list
  end.
Proof.
  cbv -[getenv as_opt_str as_str].
  rewrite !as_opt_str_getenv. unfold getenv.
  destruct (env "ANTHROPIC_API_KEY"), (env "CLAUDE_MODEL"), (env "GITHUB_TOKEN");
    reflexivity.
Qed.

Lemma silent_lookup p : forall ov v,
  silent p ov -> lookup_path ov p = Some v -> v = VNone.
Proof.
  induction p as [|k q IH]; intros ov v Hs Hl; [contradiction|].
  simpl in Hs. destruct ov as [| | | |items]; try contradiction.
  simpl in Hl.
  induction items as [|[key value] rest IHi]; simpl in Hl; [discriminate|].
  inversion Hs as [|? ? Hhd Htl]; subst. simpl in Hhd.
  destruct (String.eqb_spec key k) as [E|E].
  - destruct (Hhd E) as [->|Hsil].
    + destruct q; simpl in Hl; [congruence|discriminate].
    + eapply IH; eauto.
  - now apply IHi.
Qed.

Lemma merge_reflects p : forall ov base m v,
  silent p ov ->
  merge_dict base ov = inr m ->
  lookup_path m p = Some v ->
  lookup_path base p = Some v \/ v = VNone.
Proof.
  induction p as [|k q IHp]; intros ov base m v Hs Hm Hl; [contradiction|].
  simpl in Hs. destruct ov as [| | | |items]; try contradiction.
  rewrite merge_dict_VDict in Hm.
  destruct (merge_items_not_mapping _ _ _ _ Hm) as [(b & ->)| ->]; [|now left].
  enough (H : exists b', m = VDict b'
              /\ forall x', dict_get b' k = Some x' -> lookup_path x' q = Some v ->
                 (exists x, dict_get b k = Some x /\ lookup_path x q = Some v)
                 \/ v = VNone).
  { destruct H as (b' & -> & H). simpl in Hl.
    destruct (dict_get b' k) as [x'|] eqn:Hx'; [|discriminate].
    destruct (H x' eq_refl Hl) as [(x & Hx & Hq)|]; [|now right].
    left. simpl. now rewrite Hx. }
  clear Hl. revert b Hs Hm.
  induction items as [|[key value] rest IH]; intros b Hs Hm.
  - simpl in Hm. injection Hm as <-. exists b. split; [reflexivity|]. eauto.
  - inversion Hs as [|? ? Hhd Htl]; subst. simpl in Hhd.
    rewrite merge_items_cons in Hm.
    assert (Hgo : forall b1, turn merge_dict b key value = inr b1 ->
                  value <> VNone ->
                  merge_items merge_dict (VDict b1) rest = inr m ->
                  exists b', m = VDict b'
                    /\ forall x', dict_get b' k = Some x' ->
                       lookup_path x' q = Some v ->
                       (exists x, dict_get b k = Some x /\ lookup_path x q = Some v)
                       \/ v = VNone).
    { intros b1 Ht Hv Hm1.
      destruct (IH b1 Htl Hm1) as (b' & -> & Hb').
      exists b'. split; [reflexivity|]. intros x' Hx' Hq.
      destruct (Hb' x' Hx' Hq) as [(x1 & Hx1 & Hq1)|]; [|now right].
      destruct (String.eqb_spec key k) as [->|Hne].
      - destruct (Hhd eq_refl) as [E|Hsil]; [contradiction|].
        destruct (silent_leaf _ _ Hsil) as (its & ->).
        unfold turn in Ht.
        destruct (dict_get b k) as [sub|] eqn:Hsub.
        + destruct (merge_dict sub (VDict its)) as [|mg] eqn:Hmg; [discriminate|].
          injection Ht as <-. rewrite dict_get_set_same in Hx1.
          injection Hx1 as <-.
          destruct (IHp _ _ _ _ Hsil Hmg Hq1) as [Hl|]; [|now right].
          left. eauto.
        + injection Ht as <-. rewrite dict_get_set_same in Hx1.
          injection Hx1 as <-. right. eapply silent_lookup; eauto.
      - left. exists x1. split; [|exact Hq1].
        now rewrite <- (turn_other _ _ _ _ _ k Ht Hne). }
    destruct value;
      try (destruct (turn merge_dict b key _) eqn:Ht; [discriminate|];
           eapply Hgo; eauto; discriminate).
    now apply IH.
Qed.

Lemma field_inv {A} (accept : PyVal -> option A) loc d name default x :
  field accept loc d name default = Valid x ->
  (exists v, dict_get d name = Some v /\ accept v = Some x)
  \/ (dict_get d name = None /\ default = Some x).
Proof.
  unfold field. destruct (dict_get d name) as [v|].
  - destruct (accept v) eqn:E; intros [= <-]. left. eauto.
  - destruct default; intros [= <-]. now right.
Qed.

Lemma submodel_inv {A} (validate : Loc -> Dict -> Validated A) loc d name default x :
  submodel validate loc d name default = Valid x ->
  (exists sub, dict_get d name = Some (VDict sub)
               /\ validate (loc ++ [name])%list sub = Valid x)
  \/ (dict_get d name = None /\ default = Some x).
Proof.
  unfold submodel. destruct (dict_get d name) as [[| | | |sub]|]; try discriminate.
  - intros H. left. eauto.
  - destruct default; intros [= <-]. now right.
Qed.

Lemma as_str_inv v s : as_str v = Some s -> v = VStr s.
Proof. destruct v; simpl; congruence. Qed.

Lemma as_opt_str_inv v s : as_opt_str v = Some (Some s) -> v = VStr s.
Proof. destruct v; simpl; congruence. Qed.

Ltac open_submodel H :=
  let sub := fresh "sub" in let E := fresh "Esub" in
  apply submodel_inv in H;
  destruct H as [(sub & E & H)|(E & H)];
  [|try discriminate H; try (injection H as <-)].

Ltac open_field H :=
  let v := fresh "v" in let E := fresh "Efield" in
  apply field_inv in H;
  destruct H as [(v & E & H)|(E & H)];
  [first [apply as_str_inv in H | apply as_opt_str_inv in H | idtac]; subst
  |try discriminate H; try (injection H as <-)].

Ltac open_validate :=
  repeat match goal with
  | H : validate_ClaudeConfig _ _ = Valid _ |- _ =>
      unfold validate_ClaudeConfig in H; vinv_all H
  | H : validate_GitHubConfig _ _ = Valid _ |- _ =>
      unfold validate_GitHubConfig in H; vinv_all H
  | H : validate_NotificationConfig _ _ = Valid _ |- _ =>
      unfold validate_NotificationConfig in H; vinv_all H
  | H : validate_DiscordConfig _ _ = Valid _ |- _ =>
      unfold validate_DiscordConfig in H; vinv_all H
  | H : validate_EmailConfig _ _ = Valid _ |- _ =>
      unfold validate_EmailConfig in H; vinv_all H
  end.

Ltac open_submodel_named n :=
  match goal with
  | H : submodel _ _ _ n _ = Valid _ |- _ => open_submodel H
  end; open_validate.

Ltac open_field_named n :=
  match goal with
  | H : field _ _ _ n _ = Valid _ |- _ => open_field H
  end.

Ltac optional_key section key :=
  match goal with
  | Hr : _ = Some _ |- _ =>
      open_submodel_named "notifications"; [|discriminate Hr];
      open_submodel_named section; [|discriminate Hr];
      simpl in Hr; subst;
      open_field_named key;
      left; simpl;
      repeat match goal with E : dict_get _ _ = Some _ |- _ => rewrite E end;
      reflexivity
  end.

(** What the merged mapping holds for a key the settings object has a text
    for: that text, or, for the model, nothing (the schema default). *)
Lemma validated_text_inv d c k s :
  validate_Config d = Valid c ->
  resolved c k = Some s ->
  lookup_path (VDict d) (key_path k) = Some (VStr s)
  \/ (k = CLAUDE_MODEL /\ lookup_path (VDict d) (key_path k) = None
      /\ s = "claude-3-sonnet-20240229").
Proof.
  intros Hv Hr. unfold validate_Config in Hv. vinv_all Hv.
  destruct k; simpl in Hr.
  - open_submodel_named "claude". open_field_named "api_key".
    simpl in Hr. injection Hr as ->. left. simpl. now rewrite Esub, Efield.
  - open_submodel_named "claude". open_field_named "model";
      simpl in Hr; injection Hr as <-; simpl; rewrite Esub, Efield; auto.
  - open_submodel_named "github". open_field_named "token".
    simpl in Hr. injection Hr as ->. left. simpl. now rewrite Esub, Efield.
  - optional_key "discord" "webhook_url".
  - optional_key "discord" "bot_token".
  - optional_key "discord" "channel_id".
  - optional_key "email" "smtp_server".
  - optional_key "email" "username".
  - optional_key "email" "password".
  - optional_key "email" "to_email".
Qed.

(** X1.  A configuration document that is no mapping (an empty YAML file
    loads as [None]) makes [load_from_file] raise inside [merge_dict], at
    the first override section, whatever the environment holds. *)
Theorem load_from_file_document_not_mapping :
  forall (file : PyVal) (env : Env),
    (forall d, file <> VDict d) ->
    load_from_file (Some file) env = RaisedInMerge (NotAMapping file "claude").
Proof.
  intros file env H. destruct file; try reflexivity.
  exfalso. eapply H. reflexivity.
Qed.

Lemma load_from_file_document_not_mapping_witness :
  load_from_file (Some VNone) ConfigExamples.env_creds_only
  = RaisedInMerge (NotAMapping VNone "claude").
Proof.
  apply (load_from_file_document_not_mapping VNone ConfigExamples.env_creds_only).
  intros d. discriminate.
Defined.

(** X2.  Without a configuration file the load succeeds exactly when
    [ANTHROPIC_API_KEY], [CLAUDE_MODEL] and [GITHUB_TOKEN] are all set.  The
    settings then hold the environment's texts for the ten keys that have a
    variable, both notification channels are disabled whatever the
    environment says, and every other field has its default. *)
Theorem load_from_file_environment_only :
  forall env : Env,
    ((exists c, load_from_file None env = Loaded c)
     <-> (env "ANTHROPIC_API_KEY" <> None /\ env "CLAUDE_MODEL" <> None
          /\ env "GITHUB_TOKEN" <> None))
    /\ (forall c,
          load_from_file None env = Loaded c ->
          (forall k, resolved c k = env (env_var k))
          /\ discord_enabled (discord (notifications c)) = false
          /\ email_enabled (email (notifications c)) = false
          /\ max_tokens (claude c) = 4000%Z
          /\ default_branch (github c) = "main"
          /\ smtp_port (email (notifications c)) = 587%Z
          /\ development c = default_DevelopmentConfig
          /\ logging c = default_LoggingConfig).
Proof.
  intros env. pose proof (env_only_outcome env) as H.
  destruct (env "ANTHROPIC_API_KEY") as [a|] eqn:Ea,
           (env "CLAUDE_MODEL") as [m|] eqn:Em,
           (env "GITHUB_TOKEN") as [g|] eqn:Eg;
    rewrite H; (split; [split|]);
    try (intros (c & Hc); discriminate Hc);
    try (intros (H1 & H2 & H3); congruence);
    try (intros c Hc; discriminate Hc).
  - intros _. repeat split; discriminate.
  - intros _. eexists. reflexivity.
  - intros c [= <-]. repeat split. intros k. destruct k; simpl; congruence.
Qed.

Lemma load_from_file_environment_only_witness :
  exists c,
    load_from_file None
      (ConfigExamples.env_of [ ("ANTHROPIC_API_KEY", "k"); ("CLAUDE_MODEL", "m");
                               ("GITHUB_TOKEN", "t");
                               ("DISCORD_WEBHOOK_URL", "https://chat.example/hook") ])
    = Loaded c
    /\ discord_enabled (discord (notifications c)) = false
    /\ webhook_url (discord (notifications c)) = Some "https://chat.example/hook".
Proof.
  pose proof (load_from_file_environment_only
                (ConfigExamples.env_of
                   [ ("ANTHROPIC_API_KEY", "k"); ("CLAUDE_MODEL", "m");
                     ("GITHUB_TOKEN", "t");
                     ("DISCORD_WEBHOOK_URL", "https://chat.example/hook") ]))
    as (Hiff & Hall).
  destruct (proj2 Hiff) as (c & Hc).
  { repeat split; discriminate. }
  exists c. split; [exact Hc|].
  destruct (Hall c Hc) as (Hk & Hd & _).
  split; [exact Hd|]. exact (Hk DISCORD_WEBHOOK_URL).
Defined.

(** X3.  Every text the loaded settings hold for one of the ten keys with
    an environment variable comes from the environment or, when the
    variable is unset, from the file; the only text the schema itself
    provides is the default model, used when neither source names one. *)
Theorem loaded_text_from_environment_or_file :
  forall (file : PyVal) (env : Env) (c : Config) (k : EnvKey) (s : string),
    load_from_file (Some file) env = Loaded c ->
    resolved c k = Some s ->
    env (env_var k) = Some s
    \/ (env (env_var k) = None /\ lookup_path file (key_path k) = Some (VStr s))
    \/ (k = CLAUDE_MODEL /\ env (env_var k) = None
        /\ lookup_path file (key_path k) = None
        /\ s = "claude-3-sonnet-20240229").
Proof.
  intros file env c k s Hload Hr.
  unfold load_from_file in Hload.
  destruct (merge_dict file (env_overrides env)) as [|merged] eqn:Hm;
    [discriminate|].
  destruct merged as [| | | |d]; try discriminate.
  destruct (validate_Config d) as [c'|] eqn:Hv; [|discriminate].
  injection Hload as ->.
  destruct (env (env_var k)) as [e|] eqn:He.
  - left. f_equal.
    assert (Hl : lookup_path (VDict d) (key_path k) = Some (VStr e)).
    { eapply merge_supplied; eauto using supplies_env. destruct k; discriminate. }
    pose proof (validated_text _ _ _ _ Hv Hl) as Hr'. congruence.
  - right. pose proof (silent_env _ _ He) as Hs.
    destruct (validated_text_inv _ _ _ _ Hv Hr) as [Hl|(-> & Hl & ->)].
    + left. split; [reflexivity|].
      destruct (merge_reflects _ _ _ _ _ Hs Hm Hl) as [Hf|]; [exact Hf|discriminate].
    + right. repeat split.
      destruct (lookup_path file (key_path CLAUDE_MODEL)) as [v|] eqn:Hf;
        [|reflexivity].
      pose proof (merge_preserves _ _ _ _ _ Hs Hm Hf) as Hk. congruence.
Qed.

Lemma loaded_text_from_environment_or_file_witness :
  ConfigExamples.env_api_key (env_var GITHUB_TOKEN) = Some "file-github-token"
  \/ (ConfigExamples.env_api_key (env_var GITHUB_TOKEN) = None
      /\ lookup_path ConfigExamples.file_both (key_path GITHUB_TOKEN)
         = Some (VStr "file-github-token"))
  \/ (GITHUB_TOKEN = CLAUDE_MODEL
      /\ ConfigExamples.env_api_key (env_var GITHUB_TOKEN) = None
      /\ lookup_path ConfigExamples.file_both (key_path GITHUB_TOKEN) = None
      /\ "file-github-token" = "claude-3-sonnet-20240229").
Proof.
  eapply (loaded_text_from_environment_or_file ConfigExamples.file_both
            ConfigExamples.env_api_key _ GITHUB_TOKEN "file-github-token").
  - vm_compute. reflexivity.
  - reflexivity.
Defined.

End ConfigurationExtras.

Section IssueReferenceExtras.
Import GitHubClient.

Lemma split_parts_lack c s : Forall (fun p => lacks c p = true) (split c s).
Proof.
  induction s as [|a s IH]; simpl.
  - repeat constructor.
  - destruct (Ascii.eqb a c) eqn:E.
    + constructor; [reflexivity|exact IH].
    + destruct (split c s) as [|h t].
      * repeat constructor. simpl. now rewrite E.
      * inversion IH; subst. constructor; [|assumption].
        simpl. rewrite E. assumption.
Qed.

Lemma split_head_nonempty c a s :
  exists h t, split c (String a s) = h :: t /\ (Ascii.eqb a c = false -> h <> EmptyString).
Proof.
  simpl. destruct (Ascii.eqb a c).
  - eexists. eexists. split; [reflexivity|discriminate].
  - destruct (split c s); eexists; eexists; (split; [reflexivity|discriminate]).
Qed.

Lemma lstrip_head c s :
  lstrip c s = EmptyString
  \/ exists a t, lstrip c s = String a t /\ Ascii.eqb a c = false.
Proof.
  induction s as [|a s IH]; simpl; [now left|].
  destruct (Ascii.eqb a c) eqn:E; [exact IH|]. right. eauto.
Qed.

Lemma rstrip_head c a t :
  Ascii.eqb a c = false -> exists r, rstrip c (String a t) = String a r.
Proof.
  intros E. simpl. rewrite E. destruct (rstrip c t); eauto.
Qed.

Lemma strip_head c s :
  strip c s = EmptyString
  \/ exists a t, strip c s = String a t /\ Ascii.eqb a c = false.
Proof.
  unfold strip. destruct (lstrip_head c s) as [->|(a & t & -> & E)].
  - now left.
  - right. destruct (rstrip_head c a t E) as (r & ->). eauto.
Qed.

Lemma nth_lacks c (parts : list string) i :
  Forall (fun p => lacks c p = true) parts ->
  lacks c (nth i parts EmptyString) = true.
Proof.
  intros F. revert i. induction F as [|p l Hp F IH]; intros [|i]; simpl; auto.
Qed.

(** X4.  [parse_issue_url] succeeds only on a path whose segments between
    slashes start with an owner, a repository, [issues] and an integer
    literal; the owner it returns is not empty and neither owner nor
    repository holds a slash. *)
Theorem parse_issue_url_success_shape :
  forall (urlparse_path : string -> Result string) (url owner repo : string) (n : Z),
    parse_issue_url urlparse_path url = Ok (owner, repo, n) ->
    owner <> EmptyString
    /\ lacks "/"%char owner = true
    /\ lacks "/"%char repo = true
    /\ exists path t rest,
         urlparse_path url = Ok path
         /\ split "/"%char (strip "/"%char path) = owner :: repo :: "issues" :: t :: rest
         /\ py_int t = Some n.
Proof.
  intros urlparse_path url owner repo n H. unfold parse_issue_url in H.
  destruct (urlparse_path url) as [path|e] eqn:Hp; simpl in H; [|discriminate].
  pose proof (split_parts_lack "/"%char (strip "/"%char path)) as Hl.
  destruct (split "/"%char (strip "/"%char path)) as [|a [|b [|i [|t rest]]]] eqn:Hs;
    try discriminate H.
  simpl in H.
  destruct (String.eqb_spec i "issues") as [->|]; [|discriminate H]. simpl in H.
  destruct (py_int t) as [m|] eqn:Ht; [|discriminate H].
  injection H as <- <- <-.
  inversion Hl as [|? ? Ha Hl1]; subst. inversion Hl1 as [|? ? Hb Hl2]; subst.
  repeat split; auto.
  - intros ->. destruct (strip_head "/"%char path) as [E|(c & s & E & Hc)];
      rewrite E in Hs.
    + discriminate Hs.
    + destruct (split_head_nonempty "/"%char c s) as (h & tl & Hsp & Hne).
      rewrite Hsp in Hs. injection Hs as -> _. now apply Hne.
  - eauto 10.
Qed.

Lemma parse_issue_url_success_shape_witness :
  "ownerA" <> EmptyString
  /\ lacks "/"%char "ownerA" = true
  /\ lacks "/"%char "repoB" = true
  /\ exists path t rest,
       generic_url_path "https://github.com/ownerA/repoB/issues/42" = Ok path
       /\ split "/"%char (strip "/"%char path) = "ownerA" :: "repoB" :: "issues" :: t :: rest
       /\ py_int t = Some 42%Z.
Proof.
  apply (parse_issue_url_success_shape generic_url_path
           "https://github.com/ownerA/repoB/issues/42" "ownerA" "repoB" 42%Z).
  reflexivity.
Defined.

End IssueReferenceExtras.

Section WorkingCopyExtras.
Import ClaudeSession GitHubClientRepo.

(** [old in s] for a non-empty [old] *)
Fixpoint occurs (old s : string) : bool :=
  match s with
  | EmptyString => false
  | String a s' => String.prefix old s || occurs old s'
  end.

Lemma prefix_app s t : String.prefix s (s ++ t) = true.
Proof.
  induction s as [|a s IH]; simpl; [destruct t; reflexivity|].
  destruct (ascii_dec a a); [exact IH|congruence].
Qed.

Lemma replace_from_skip old new t rest :
  replace_from old new (String.length t) (t ++ rest) = replace_from old new 0 rest.
Proof. induction t as [|a t IH]; simpl; [reflexivity|exact IH]. Qed.

Lemma replace_occurrence old new rest :
  old <> EmptyString ->
  replace (old ++ rest) old new = new ++ replace rest old new.
Proof.
  destruct old as [|o old']; [congruence|]. intros _.
  unfold replace.
  change ((String o old' ++ rest)) with (String o (old' ++ rest)).
  cbn [replace_from].
  change (String o (old' ++ rest)) with (String o old' ++ rest).
  rewrite prefix_app. cbn [String.length]. rewrite Nat.sub_1_r. cbn [Nat.pred].
  now rewrite replace_from_skip.
Qed.

Lemma replace_absent old new s : occurs old s = false -> replace s old new = s.
Proof.
  unfold replace. induction s as [|a s IH]; simpl; [reflexivity|].
  intros H. apply orb_false_iff in H. destruct H as [Hp Ho].
  simpl in Hp. destruct old as [|o old']; [discriminate|].
  destruct (ascii_dec o a) as [->|].
  - rewrite Hp. now rewrite IH.
  - now rewrite IH.
Qed.

(** X5.  The URL [clone_repository] clones from.  A URL that does not start
    with [https://github.com/] is used as it is, so the token is never sent
    to another host; for one that does, the token is put in place of the
    leading [https://github.com/] and of every later occurrence of that
    text as well, the rest of the URL staying as it is. *)
Theorem auth_url_token_placement :
  forall (token clone_url : string),
    (startswith clone_url "https://github.com/" = false ->
     auth_url token clone_url = clone_url)
    /\ (forall rest,
          clone_url = "https://github.com/" ++ rest ->
          auth_url token clone_url
          = "https://x-access-token:" ++ token ++ "@github.com/"
            ++ replace rest "https://github.com/"
                 ("https://x-access-token:" ++ token ++ "@github.com/"))
    /\ (forall rest,
          clone_url = "https://github.com/" ++ rest ->
          occurs "https://github.com/" rest = false ->
          auth_url token clone_url
          = "https://x-access-token:" ++ token ++ "@github.com/" ++ rest).
Proof.
  intros token clone_url.
  assert (H2 : forall rest,
            clone_url = "https://github.com/" ++ rest ->
            auth_url token clone_url
            = "https://x-access-token:" ++ token ++ "@github.com/"
              ++ replace rest "https://github.com/"
                   ("https://x-access-token:" ++ token ++ "@github.com/")).
  { intros rest ->. unfold auth_url, startswith. rewrite prefix_app.
    rewrite replace_occurrence by discriminate.
    now rewrite !append_assoc. }
  split; [|split].
  - intros H. unfold auth_url. now rewrite H.
  - exact H2.
  - intros rest E Ho. rewrite (H2 rest E). now rewrite replace_absent.
Qed.

Lemma auth_url_token_placement_witness :
  auth_url "T" "git@github.com:ownerA/repoB.git" = "git@github.com:ownerA/repoB.git"
  /\ auth_url "T" "https://github.com/ownerA/repoB.git"
     = "https://x-access-token:T@github.com/ownerA/repoB.git".
Proof.
  split.
  - apply (proj1 (auth_url_token_placement "T" "git@github.com:ownerA/repoB.git")).
    reflexivity.
  - apply (proj2 (proj2 (auth_url_token_placement "T"
                           "https://github.com/ownerA/repoB.git"))
             "ownerA/repoB.git"); reflexivity.
Defined.

(** X6.  [clone_repository] hands back the clone whenever [clone_from]
    does: a checkout of the default branch that raises an [Exception] is
    swallowed, the state being the one the failed checkout left.  When
    [clone_from] raises, the exception leaves the method and no checkout
    is tried. *)
Theorem clone_repository_survives_checkout :
  forall (S Repo : Type) (clone_from : string -> Path -> M S Repo)
         (git_checkout : Repo -> string -> M S unit)
         (token clone_url : string) (local_path : Path) (branch : string) (st : S),
    (forall repo st1,
        clone_from (auth_url token clone_url) local_path st = (Ok repo, st1) ->
        (forall e st2, git_checkout repo branch st1 = (Raise e, st2) ->
                       is_Exception (exn_class e) = true) ->
        clone_repository S Repo clone_from git_checkout token clone_url local_path
          branch st
        = (Ok repo, snd (git_checkout repo branch st1)))
    /\ (forall e st1,
          clone_from (auth_url token clone_url) local_path st = (Raise e, st1) ->
          clone_repository S Repo clone_from git_checkout token clone_url local_path
            branch st
          = (Raise e, st1)).
Proof.
  intros S Repo clone_from git_checkout token clone_url local_path branch st.
  split.
  - intros repo st1 Hc Hord. unfold clone_repository, bind, try_except, ret.
    rewrite Hc. destruct (git_checkout repo branch st1) as [[[]|e] st2] eqn:E;
      [reflexivity|].
    now rewrite (Hord e st2 eq_refl).
  - intros e st1 Hc. unfold clone_repository, bind. now rewrite Hc.
Qed.

(** A clone that goes through and a checkout that fails, on a log of the
    git commands run. *)
Definition logged_clone (url : string) (local_path : Path) : M (list string) unit :=
  fun log => (Ok tt, ("clone " ++ url) :: log).

Definition failing_checkout (repo : unit) (branch : string) : M (list string) unit :=
  fun log => (Raise (mkExn GitCommandError "pathspec did not match"),
              ("checkout " ++ branch) :: log).

Lemma clone_repository_survives_checkout_witness :
  clone_repository (list string) unit logged_clone failing_checkout "T"
    "https://github.com/ownerA/repoB.git" (PathOf "/tmp/r") "trunk" []
  = (Ok tt, [ "checkout trunk";
              "clone https://x-access-token:T@github.com/ownerA/repoB.git" ]).
Proof.
  apply (proj1 (clone_repository_survives_checkout (list string) unit logged_clone
                  failing_checkout "T" "https://github.com/ownerA/repoB.git"
                  (PathOf "/tmp/r") "trunk" []) tt).
  - reflexivity.
  - intros e st2 [= <- _]. reflexivity.
Defined.

End WorkingCopyExtras.

Section NotificationExtras.
Import ClaudeSession Notifications.

(** X7.  A manager built from settings whose chat channel is disabled
    delivers nothing: [notify_session_status] returns without calling the
    HTTP client and without raising, whatever the email settings are. *)
Theorem notify_session_status_chat_disabled :
  forall (S : Type) (post : string -> WebhookPayload -> M S unit)
         (config : Config.Config) (status issue_url : string) (details : Details)
         (st : S),
    Config.discord_enabled (Config.discord (Config.notifications config)) = false ->
    notify_session_status post (init config) status issue_url details st
    = (Ok tt, st).
Proof.
  intros S post config status issue_url details st H.
  unfold notify_session_status, init. rewrite H. cbn [discord email].
  unfold bind, ret.
  destruct (Config.email_enabled _); [|reflexivity].
  destruct (create_session_email status issue_url details) as [[? ?] ?].
  reflexivity.
Qed.

(** A client that would fail loudly if it were called. *)
Definition unreachable_post (url : string) (payload : WebhookPayload)
  : M (list string) unit :=
  fun log => (Raise (mkExn RuntimeError "called"), url :: log).

Lemma notify_session_status_chat_disabled_witness :
  notify_session_status unreachable_post
    (init {| Config.claude := Config.claude SessionExamples.sample_config;
             Config.github := Config.github SessionExamples.sample_config;
             Config.notifications := Config.default_NotificationConfig;
             Config.development := Config.default_DevelopmentConfig;
             Config.logging := Config.default_LoggingConfig |})
    "success" SessionExamples.sample_url no_details []
  = (Ok tt, []).
Proof.
  apply (notify_session_status_chat_disabled (list string) unreachable_post).
  reflexivity.
Defined.

(** The message [send_email] hands to the SMTP session. *)
Definition email_message (self : EmailNotifier) (to_email subject body : string)
  (html_body : option string) : EmailMessage :=
  {| m_subject := subject; m_from := from_email self; m_to := to_email;
     m_plain := body;
     m_html := match html_body with
               | Some h => if is_empty h then None else Some h
               | None => None
               end |}.

(** X8.  [send_email] opens one SMTP session with the message built from
    its arguments (an empty HTML body is left out) and tells by its result
    how it went: true when the session went through, false when it raised
    an [Exception]; only an exception that does not derive from
    [Exception] leaves the method. *)
Theorem send_email_reports_delivery :
  forall (S : Type) (smtp : EmailNotifier -> EmailMessage -> M S unit)
         (self : EmailNotifier) (to_email subject body : string)
         (html_body : option string) (st : S),
    let attempt := smtp self (email_message self to_email subject body html_body) st in
    send_email smtp self to_email subject body html_body st
    = match attempt with
      | (Ok _, st') => (Ok true, st')
      | (Raise e, st') =>
          if is_Exception (exn_class e) then (Ok false, st') else (Raise e, st')
      end.
Proof.
  intros S smtp self to_email subject body html_body st attempt.
  unfold send_email, try_except, bind, ret. fold (email_message self to_email subject body html_body).
  subst attempt.
  destruct (smtp self _ st) as [[[]|e] st']; reflexivity.
Qed.

Lemma lacks_replace_char c by_ s :
  lacks c by_ = true -> lacks c (replace_char c by_ s) = true.
Proof.
  intros H. induction s as [|a s IH]; simpl; [reflexivity|].
  destruct (Ascii.eqb a c) eqn:E.
  - rewrite lacks_app, H. exact IH.
  - simpl. now rewrite E.
Qed.

Lemma join_snoc xs z :
  join nl (xs ++ [z])%list = ClaudeSessionFacts.line_block xs ++ z.
Proof.
  induction xs as [|x xs IH]; [reflexivity|].
  change ((x :: xs) ++ [z])%list with (x :: (xs ++ [z]))%list.
  cbn [join ClaudeSessionFacts.line_block].
  rewrite IH. destruct xs; cbn [app]; now rewrite append_assoc.
Qed.

Lemma line_block_app xs ys :
  ClaudeSessionFacts.line_block (xs ++ ys)
  = ClaudeSessionFacts.line_block xs ++ ClaudeSessionFacts.line_block ys.
Proof.
  induction xs as [|x xs IH]; [reflexivity|].
  change ((x :: xs) ++ ys)%list with (x :: (xs ++ ys))%list.
  cbn [ClaudeSessionFacts.line_block]. rewrite IH. now rewrite !append_assoc.
Qed.

(** The part of the body between the issue line and the signature. *)
Definition email_sections (details : Details) : list string :=
  ((match d_summary details with
    | Some summary => ["Summary:"; summary; EmptyString]
    | None => []
    end)
   ++ (match d_changes details with
       | Some (c :: cs) => ["Changes Made:"] ++ map bullet (c :: cs) ++ [EmptyString]
       | _ => []
       end)
   ++ (match d_pr_url details with
       | Some pr_url => [("Pull Request: " ++ py_str pr_url)%string; EmptyString]
       | None => []
       end)
   ++ (match d_errors details with
       | Some (e :: es) => ["Errors:"] ++ map bullet (e :: es) ++ [EmptyString]
       | _ => []
       end))%list.

Lemma create_session_email_parts status issue_url details :
  snd (fst (create_session_email status issue_url details))
  = join nl ([ ("ClaudeForge Session Status: " ++ py_upper status)%string;
               EmptyString;
               ("Issue URL: " ++ issue_url)%string;
               EmptyString ] ++ email_sections details
             ++ ["Generated by ClaudeForge"])%list.
Proof.
  unfold create_session_email, email_sections. cbn [fst snd]. f_equal.
  destruct (d_summary details), (d_changes details) as [[|c cs]|],
    (d_pr_url details), (d_errors details) as [[|e es]|];
    cbn [app]; repeat rewrite <- app_assoc; reflexivity.
Qed.

(** X9.  The email rendered for a session: the subject names the status in
    title case and the issue; the plain body opens with the status line in
    upper case and the issue line, lists the sections that the details
    supply (every change and every error, one per line) and closes with
    the signature; the HTML body is the plain one with every line end
    replaced, so it holds no line feed. *)
Theorem create_session_email_layout :
  forall (status issue_url : string) (details : Details),
    fst (fst (create_session_email status issue_url details))
    = "ClaudeForge Session " ++ py_title status ++ " - " ++ issue_url
    /\ snd (fst (create_session_email status issue_url details))
       = "ClaudeForge Session Status: " ++ py_upper status ++ nl ++ nl
         ++ "Issue URL: " ++ issue_url ++ nl ++ nl
         ++ ClaudeSessionFacts.line_block (email_sections details)
         ++ "Generated by ClaudeForge"
    /\ snd (create_session_email status issue_url details)
       = replace_char LF "<br>"
           (snd (fst (create_session_email status issue_url details)))
    /\ lacks LF (snd (create_session_email status issue_url details)) = true.
Proof.
  intros status issue_url details.
  split; [reflexivity|]. split.
  - rewrite create_session_email_parts.
    rewrite app_assoc, join_snoc, line_block_app.
    cbn [ClaudeSessionFacts.line_block]. rewrite !append_assoc. reflexivity.
  - split; [reflexivity|].
    change (snd (create_session_email status issue_url details))
      with (replace_char LF "<br>"
              (snd (fst (create_session_email status issue_url details)))).
    apply lacks_replace_char. reflexivity.
Qed.

(** [details] with its list of changes replaced. *)
Definition with_changes (details : Details) (changes : list string) : Details :=
  {| d_timestamp := d_timestamp details; d_summary := d_summary details;
     d_changes := Some changes;
     d_pr_url := d_pr_url details; d_errors := d_errors details;
     d_repository := d_repository details; d_branch := d_branch details |}.

(** X10.  The embed of a notification always starts with the issue and the
    status field and has at most two more; it is green for [success] only
    and red for [error] only; and it does not depend on the changes after
    the fifth, nor on the errors, the repository or the branch of the
    details. *)
Theorem create_session_embed_bounds :
  forall (status issue_url : string) (details : Details),
    let embed := create_session_embed status issue_url details in
    (exists more,
        fields embed
        = ({| name := "Issue URL"; value := JStr issue_url; inline := false |}
           :: {| name := "Status"; value := JStr status; inline := true |}
           :: more)%list
        /\ length more <= 2)
    /\ (color embed = 65280%Z <-> status = "success")
    /\ (color embed = 16711680%Z <-> status = "error")
    /\ (forall changes,
          d_changes details = Some changes ->
          create_session_embed status issue_url
            (with_changes details (firstn 5 changes)) = embed)
    /\ (forall other,
          d_timestamp other = d_timestamp details ->
          d_summary other = d_summary details ->
          d_changes other = d_changes details ->
          d_pr_url other = d_pr_url details ->
          create_session_embed status issue_url other = embed).
Proof.
  intros status issue_url details embed. subst embed.
  split; [|split; [|split; [|split]]].
  - unfold create_session_embed. cbn [fields].
    destruct (d_changes details) as [[|c cs]|], (d_pr_url details);
      eexists; (split; [reflexivity|simpl; lia]).
  - unfold create_session_embed. cbn [color].
    destruct (String.eqb_spec status "success") as [->|Hs].
    + split; reflexivity.
    + split; [|contradiction].
      destruct (String.eqb status "error"); discriminate.
  - unfold create_session_embed. cbn [color].
    destruct (String.eqb_spec status "success") as [->|Hs].
    + split; discriminate.
    + destruct (String.eqb_spec status "error") as [->|He].
      * split; reflexivity.
      * split; [discriminate|contradiction].
  - intros changes Hc. unfold create_session_embed, with_changes.
    cbn [d_changes d_pr_url d_summary d_timestamp]. rewrite Hc.
    destruct changes as [|c cs]; [reflexivity|].
    replace (firstn 5 (c :: cs)) with (c :: firstn 4 cs) by reflexivity.
    cbv beta iota.
    replace (firstn 5 (c :: firstn 4 cs)) with (c :: firstn 4 (firstn 4 cs))
      by reflexivity.
    now rewrite firstn_firstn.
  - intros other Ht Hs Hc Hp. unfold create_session_embed.
    now rewrite Ht, Hs, Hc, Hp.
Qed.

Lemma create_session_embed_bounds_witness :
  create_session_embed "success" SessionExamples.sample_url
    (with_changes no_details ["a"; "b"; "c"; "d"; "e"])
  = create_session_embed "success" SessionExamples.sample_url
      (with_changes no_details ["a"; "b"; "c"; "d"; "e"; "f"; "g"]).
Proof.
  apply (proj1 (proj2 (proj2 (proj2
           (create_session_embed_bounds "success" SessionExamples.sample_url
              (with_changes no_details ["a"; "b"; "c"; "d"; "e"; "f"; "g"]))))) 
           ["a"; "b"; "c"; "d"; "e"; "f"; "g"]).
  reflexivity.
Defined.

End NotificationExtras.

Section RunAnalysisExtras.
Import ClaudeSession.

(** X11.  [analyze_session_output] classifies by the exit code alone: the
    run counts as a success exactly when the code is zero, which is exactly
    when no error is listed; a failed run lists the error stream, empty or
    not, as its one error and names the code in the summary.  The standard
    streams are passed on as they are and no change is ever listed. *)
Theorem analyze_session_output_classifies :
  forall result : CompletedProcess,
    let analysis := analyze_session_output result in
    (a_success analysis = true <-> returncode result = 0%Z)
    /\ (errors analysis = [] <-> returncode result = 0%Z)
    /\ (returncode result <> 0%Z ->
        errors analysis = [stderr result]
        /\ summary analysis
           = "Claude Code session failed with return code "
             ++ py_str_int (returncode result))
    /\ (returncode result = 0%Z ->
        summary analysis = "Claude Code session completed successfully")
    /\ return_code analysis = returncode result
    /\ a_stdout analysis = stdout result
    /\ a_stderr analysis = stderr result
    /\ changes_made analysis = [].
Proof.
  intros result analysis. subst analysis. unfold analyze_session_output.
  destruct (Z.eqb_spec (returncode result) 0) as [E|E]; cbn.
  - repeat split; auto; try congruence.
  - repeat split; auto; try congruence; try discriminate.
Qed.

Lemma analyze_session_output_classifies_witness :
  errors (analyze_session_output
            {| returncode := 2; stdout := "partial"; stderr := EmptyString |})
  = [EmptyString]
  /\ summary (analyze_session_output
                {| returncode := 2; stdout := "partial"; stderr := EmptyString |})
     = "Claude Code session failed with return code 2".
Proof.
  apply (proj1 (proj2 (proj2
           (analyze_session_output_classifies
              {| returncode := 2; stdout := "partial"; stderr := EmptyString |})))).
  discriminate.
Defined.

End RunAnalysisExtras.

(** ** orchestrator.py: the calls of a session *)

Module SessionCalls.
Import ClaudeSession Notifications Orchestrator OrchestratorFacts.

Section Calls.

Variable w : World.
Variable urlparse_path : string -> Result string.
Variable claude_getattr : Config.ClaudeConfig -> string -> Result Config.AttrValue.
Variable self : ClaudeForgeOrchestrator.
Variable session_start : DateTime.
Variables issue_url instruction : string.
Variable branch_name : option string.
Variables create_pr draft_pr : bool.

(** The branch of the session: the one asked for, or the generated name. *)
Definition session_branch (issue_number : Z) : string :=
  if no_branch_name branch_name then
    "claudeforge-issue-" ++ py_str_int issue_number ++ "-"
    ++ py_str_int (timestamp_int session_start)
  else match branch_name with Some b => b | None => EmptyString end.

(** The directory the repository is cloned into. *)
Definition session_repo_path (repo : string) : Path :=
  Child (PathOf (Config.clone_dir (Config.development (config self))))
    (repo ++ "-" ++ py_str_int (timestamp_int session_start)).

Definition default_branch_of (repo_data : JObj) : JVal :=
  get_default repo_data "default_branch" (JStr "main").

(** The details handed to the five notifications. *)
Definition started_details (issue_number : Z) (issue_data : JObj) (full_name : JVal)
  : Details :=
  {| d_timestamp := Some (isoformat session_start);
     d_summary := Some ("Started working on issue #" ++ py_str_int issue_number
                        ++ ": " ++ py_str (get_default issue_data "title" (JStr "N/A")));
     d_changes := None; d_pr_url := None; d_errors := None;
     d_repository := Some full_name;
     d_branch := Some (session_branch issue_number) |}.

Definition failed_details (t : DateTime) (analysis : Analysis) : Details :=
  {| d_timestamp := Some (isoformat t);
     d_summary := Some "Claude Code session failed";
     d_changes := None; d_pr_url := None;
     d_errors := Some (errors analysis);
     d_repository := None; d_branch := None |}.

Definition success_details (t : DateTime) (issue_number : Z) (pr_url : JVal)
  (analysis : Analysis) : Details :=
  {| d_timestamp := Some (isoformat t);
     d_summary := Some ("Successfully completed work on issue #"
                        ++ py_str_int issue_number);
     d_changes := Some (changes_made analysis);
     d_pr_url := Some pr_url;
     d_errors := None;
     d_repository := None;
     d_branch := Some (session_branch issue_number) |}.

Definition completed_details (t : DateTime) : Details :=
  {| d_timestamp := Some (isoformat t);
     d_summary := Some "Session completed but no changes were made";
     d_changes := None; d_pr_url := None; d_errors := None;
     d_repository := None; d_branch := None |}.

(** How far a session has come, in terms of the answers it was given. *)
Definition parsed (owner repo : string) (issue_number : Z) : Prop :=
  GitHubClient.parse_issue_url urlparse_path issue_url = Ok (owner, repo, issue_number).

Definition fetched (issue_data repo_data : JObj) : Prop :=
  w_get_issue w = Ok issue_data /\ w_get_repository w = Ok repo_data.

Definition cloned (repo_data : JObj) : Prop :=
  w_mkdir w = Ok tt
  /\ (exists clone_url, json_get repo_data "clone_url" = Some clone_url)
  /\ w_clone_repository w = Ok tt.

Definition prompted (issue_data repo_data : JObj) (prompt : string) : Prop :=
  w_create_branch w = Ok tt
  /\ create_instruction_prompt instruction (Some issue_data) (Some repo_data)
     = Ok prompt
  /\ exists full_name, json_get repo_data "full_name" = Some full_name.

(** Everything up to the invocation of the assistant went through. *)
Definition prepared (owner repo : string) (issue_number : Z)
  (issue_data repo_data : JObj) (prompt : string) : Prop :=
  parsed owner repo issue_number /\ fetched issue_data repo_data
  /\ cloned repo_data /\ prompted issue_data repo_data prompt.

Definition budget (max_time : Z) : Prop :=
  claude_getattr (Config.claude (config self)) "timeout" = Ok (Config.AInt max_time).

(** The assistant ran and exited with code zero. *)
Definition succeeded (cp : CompletedProcess) : Prop :=
  w_subprocess_run w = Ok cp /\ returncode cp = 0%Z.

Definition pr_wanted : Prop :=
  create_pr = true
  /\ Config.auto_create_pr (Config.development (config self)) = true.

(** What [pull_request_step] hands back as the URL. *)
Definition pr_outcome (pr_url : JVal) : Prop :=
  (create_pr && Config.auto_create_pr (Config.development (config self)) = false
   /\ pr_url = JNull)
  \/ (pr_wanted
      /\ (exists pr_data, w_create_pull_request w = Ok pr_data
                          /\ json_get pr_data "html_url" = Some pr_url)
      /\ exists answer, w_add_comment_to_issue w = Ok answer).

Definition commit_message (issue_number : Z) : string :=
  "ClaudeForge: " ++ instruction ++ nl ++ nl
  ++ "Resolves #" ++ py_str_int issue_number.

Definition comment_text (pr_url : JVal) : string :=
  robot ++ " ClaudeForge has created a pull request to address this issue: "
  ++ py_str pr_url.

(** The call sites of [run_session]: each call with its arguments and with
    what must have happened for the session to get there. *)
Inductive session_call : Event -> Prop :=
| call_get_issue owner repo n :
    parsed owner repo n ->
    session_call (EvGetIssue owner repo n)
| call_get_repository owner repo n issue_data :
    parsed owner repo n -> w_get_issue w = Ok issue_data ->
    session_call (EvGetRepository owner repo)
| call_mkdir owner repo n issue_data repo_data :
    parsed owner repo n -> fetched issue_data repo_data ->
    session_call (EvMkdir (PathOf (Config.clone_dir (Config.development (config self)))))
| call_clone_repository owner repo n issue_data repo_data clone_url :
    parsed owner repo n -> fetched issue_data repo_data ->
    w_mkdir w = Ok tt -> json_get repo_data "clone_url" = Some clone_url ->
    session_call (EvCloneRepository clone_url (session_repo_path repo)
                    (default_branch_of repo_data))
| call_create_branch owner repo n issue_data repo_data :
    parsed owner repo n -> fetched issue_data repo_data -> cloned repo_data ->
    session_call (EvCreateBranch (session_branch n) (default_branch_of repo_data))
| post_started owner repo n issue_data repo_data prompt full_name url :
    prepared owner repo n issue_data repo_data prompt ->
    json_get repo_data "full_name" = Some full_name ->
    webhook_of (notification_manager self) = Some url ->
    session_call (EvWebhookPost url
                    (webhook_payload "started" issue_url
                       (started_details n issue_data full_name)))
| call_assistant owner repo n issue_data repo_data prompt max_time :
    prepared owner repo n issue_data repo_data prompt ->
    budget max_time ->
    session_call (EvSubprocessRun
                    (assistant_call (session_repo_path repo) prompt max_time))
| post_failed owner repo n issue_data repo_data prompt max_time cp url k :
    prepared owner repo n issue_data repo_data prompt ->
    budget max_time ->
    w_subprocess_run w = Ok cp -> returncode cp <> 0%Z ->
    webhook_of (notification_manager self) = Some url ->
    session_call (EvWebhookPost url
                    (webhook_payload "failed" issue_url
                       (failed_details (w_now w k) (analyze_session_output cp))))
| call_is_dirty owner repo n issue_data repo_data prompt max_time cp :
    prepared owner repo n issue_data repo_data prompt ->
    budget max_time -> succeeded cp ->
    session_call EvIsDirty
| call_untracked_files owner repo n issue_data repo_data prompt max_time cp :
    prepared owner repo n issue_data repo_data prompt ->
    budget max_time -> succeeded cp ->
    w_is_dirty w = Ok false ->
    session_call EvUntrackedFiles
| call_git_add owner repo n issue_data repo_data prompt max_time cp :
    prepared owner repo n issue_data repo_data prompt ->
    budget max_time -> succeeded cp -> tree_has_diff w ->
    session_call (EvGitAdd ".")
| call_commit owner repo n issue_data repo_data prompt max_time cp :
    prepared owner repo n issue_data repo_data prompt ->
    budget max_time -> succeeded cp -> tree_has_diff w ->
    w_git_add w = Ok tt ->
    session_call (EvCommit (commit_message n))
| call_push_changes owner repo n issue_data repo_data prompt max_time cp :
    prepared owner repo n issue_data repo_data prompt ->
    budget max_time -> succeeded cp -> tree_has_diff w ->
    w_git_add w = Ok tt -> w_commit w = Ok tt ->
    session_call (EvPushChanges (session_branch n))
| call_create_pull_request owner repo n issue_data repo_data prompt max_time cp :
    prepared owner repo n issue_data repo_data prompt ->
    budget max_time -> succeeded cp -> tree_has_diff w -> publishes w ->
    pr_wanted ->
    session_call (EvCreatePullRequest owner repo ("ClaudeForge: " ++ instruction)
                    (py_strip (pr_body_text issue_url instruction
                                 (analyze_session_output cp) n))
                    (session_branch n) (default_branch_of repo_data) draft_pr)
| call_add_comment_to_issue owner repo n issue_data repo_data prompt max_time cp
    pr_data pr_url :
    prepared owner repo n issue_data repo_data prompt ->
    budget max_time -> succeeded cp -> tree_has_diff w -> publishes w ->
    pr_wanted ->
    w_create_pull_request w = Ok pr_data ->
    json_get pr_data "html_url" = Some pr_url ->
    session_call (EvAddCommentToIssue owner repo n (comment_text pr_url))
| post_success owner repo n issue_data repo_data prompt max_time cp pr_url url k :
    prepared owner repo n issue_data repo_data prompt ->
    budget max_time -> succeeded cp -> tree_has_diff w -> publishes w ->
    pr_outcome pr_url ->
    webhook_of (notification_manager self) = Some url ->
    session_call (EvWebhookPost url
                    (webhook_payload "success" issue_url
                       (success_details (w_now w k) n pr_url
                          (analyze_session_output cp))))
| post_completed owner repo n issue_data repo_data prompt max_time cp url k :
    prepared owner repo n issue_data repo_data prompt ->
    budget max_time -> succeeded cp ->
    w_is_dirty w = Ok false -> w_untracked_files w = Ok [] ->
    webhook_of (notification_manager self) = Some url ->
    session_call (EvWebhookPost url
                    (webhook_payload "completed" issue_url
                       (completed_details (w_now w k))))
| post_error e url k :
    is_Exception (exn_class e) = true ->
    webhook_of (notification_manager self) = Some url ->
    session_call (EvWebhookPost url
                    (webhook_payload "error" issue_url
                       (error_details (w_now w k) e))).

(** *** Every call of a session comes from one of the call sites *)

Lemma returns_lift {A} (x : Result A) (a : A) :
  returns (lift (S := St) x) a -> x = Ok a.
Proof. intros (st & st' & E). unfold lift in E. congruence. Qed.

Lemma returns_ret {A} (a b : A) : returns (ret (S := St) a) b -> b = a.
Proof. intros (st & st' & E). unfold ret in E. congruence. Qed.

Lemma returns_bind {A B} (c : Run A) (k : A -> Run B) (b : B) :
  returns (bind c k) b -> exists a, returns c a /\ returns (k a) b.
Proof.
  intros (st & st' & E). unfold bind in E.
  destruct (c st) as [[a|e] st1] eqn:Ec; [|discriminate].
  exists a. split; [now exists st, st1|now exists st1, st'].
Qed.

Lemma returns_now (t : DateTime) : returns (now w) t -> exists k, t = w_now w k.
Proof. intros (st & st' & E). unfold now in E. injection E as <- _. eauto. Qed.

Lemma subscript_ok d key v : subscript d key = Ok v -> json_get d key = Some v.
Proof. unfold subscript. destruct (json_get d key); congruence. Qed.

Lemma emits_lift (P : Event -> Prop) {A} (x : Result A) : emits P (lift (S := St) x).
Proof. apply frame_emits, frame_lift. Qed.

Lemma emits_ret (P : Event -> Prop) {A} (a : A) : emits P (ret (S := St) a).
Proof. apply frame_emits, frame_ret. Qed.

Lemma emits_now (P : Event -> Prop) : emits P (now w).
Proof. apply frame_emits, frame_now. Qed.

(** A notification makes at most the one delivery to the configured
    webhook. *)
Lemma emits_notify (P : Event -> Prop) status details :
  (forall url, webhook_of (notification_manager self) = Some url ->
               P (EvWebhookPost url (webhook_payload status issue_url details))) ->
  emits P (notify w self status issue_url details).
Proof.
  intros HP st r st' E. rewrite notify_eq in E. injection E as <- <-.
  unfold delivered. destruct (webhook_of _) as [url|] eqn:W.
  - eexists [_]. split; [reflexivity|]. constructor; auto.
  - exists []. split; [reflexivity|constructor].
Qed.

Lemma emits_try_except_path (P : Event -> Prop) {A} (body : Run A)
  (handler : Exn -> Run A) :
  emits P body ->
  (forall e, is_Exception (exn_class e) = true -> emits P (handler e)) ->
  emits P (try_except body handler).
Proof.
  intros Hb Hh st r st' E. unfold try_except in E.
  destruct (body st) as [[a|e] st1] eqn:Eb.
  - injection E as <- <-. exact (Hb _ _ _ Eb).
  - destruct (is_Exception (exn_class e)) eqn:He.
    + eapply grows_trans; [exact (Hb _ _ _ Eb)|exact (Hh e He _ _ _ E)].
    + injection E as <- <-. exact (Hb _ _ _ Eb).
Qed.

Lemma emits_run_claude_code_session (P : Event -> Prop) repo_path prompt max_time :
  (forall t, max_time = Config.AInt t ->
             P (EvSubprocessRun (assistant_call repo_path prompt t))) ->
  emits P (run_claude_code_session (subprocess_run w) repo_path prompt max_time).
Proof.
  intros HP st r st' E. destruct max_time as [s|t].
  - destruct (run_claude_code_session_str w repo_path prompt s st) as (e & E' & _).
    rewrite E' in E. injection E as _ <-. apply grows_refl.
  - rewrite run_claude_code_session_int in E. injection E as _ <-.
    apply grows_record. now apply HP.
Qed.

Lemma returns_run_claude_code_session_int repo_path prompt max_time cp :
  returns (run_claude_code_session (subprocess_run w) repo_path prompt max_time) cp ->
  w_subprocess_run w = Ok cp /\ exists t, max_time = Config.AInt t.
Proof.
  intros (st & st' & E). destruct max_time as [s|t].
  - destruct (run_claude_code_session_str w repo_path prompt s st) as (e & E' & _).
    congruence.
  - rewrite run_claude_code_session_int in E. split; [congruence|eauto].
Qed.

Lemma emits_prepare :
  emits session_call
    (prepare w urlparse_path self session_start issue_url instruction branch_name).
Proof.
  unfold prepare.
  apply emits_bind_path; [apply emits_lift|].
  intros [[o r] n] Hp. apply returns_lift in Hp. cbv beta iota zeta.
  apply emits_bind_path; [apply emits_call; now apply call_get_issue|].
  intros i Hi. apply returns_call in Hi.
  apply emits_bind_path; [apply emits_call; now apply (call_get_repository o r n i)|].
  intros rd Hrd. apply returns_call in Hrd.
  assert (Hf : fetched i rd) by now split.
  apply emits_bind_path; [apply emits_call; now apply (call_mkdir o r n i rd)|].
  intros [] Hmk. apply returns_call in Hmk.
  apply emits_bind; [apply frame_emits, frame_set_current_repo_path|]. intros _.
  apply emits_bind_path; [apply emits_lift|].
  intros u Hu. apply returns_lift, subscript_ok in Hu.
  apply emits_bind_path;
    [apply emits_call; now apply (call_clone_repository o r n i rd u)|].
  intros [] Hcl. apply returns_call in Hcl.
  assert (Hc : cloned rd) by (unfold cloned; eauto).
  apply emits_bind_path;
    [apply emits_call; now apply (call_create_branch o r n i rd)|].
  intros [] Hbr. apply returns_call in Hbr.
  apply emits_bind_path; [apply emits_lift|].
  intros prompt Hpr. apply returns_lift in Hpr.
  apply emits_bind_path; [apply emits_lift|].
  intros fn Hfn. apply returns_lift, subscript_ok in Hfn.
  apply emits_bind; [|intros _; apply emits_ret].
  apply emits_notify. intros url Hurl.
  apply (post_started o r n i rd prompt fn url); auto.
  unfold prepared, prompted. eauto 10.
Qed.

Lemma returns_prepare p :
  returns (prepare w urlparse_path self session_start issue_url instruction
             branch_name) p ->
  exists o r n i rd prompt,
    prepared o r n i rd prompt
    /\ p = {| p_owner := o; p_repo := r; p_issue_number := n; p_repo_data := rd;
              p_branch_name := session_branch n;
              p_repo_path := session_repo_path r;
              p_full_instruction := prompt |}.
Proof.
  intros H. unfold prepare in H.
  apply returns_bind in H as ([[o r] n] & Hp & H). apply returns_lift in Hp.
  cbv beta iota zeta in H.
  apply returns_bind in H as (i & Hi & H). apply returns_call in Hi.
  apply returns_bind in H as (rd & Hrd & H). apply returns_call in Hrd.
  apply returns_bind in H as ([] & Hmk & H). apply returns_call in Hmk.
  apply returns_bind in H as ([] & _ & H).
  apply returns_bind in H as (u & Hu & H). apply returns_lift, subscript_ok in Hu.
  apply returns_bind in H as ([] & Hcl & H). apply returns_call in Hcl.
  apply returns_bind in H as ([] & Hbr & H). apply returns_call in Hbr.
  apply returns_bind in H as (prompt & Hpr & H). apply returns_lift in Hpr.
  apply returns_bind in H as (fn & Hfn & H). apply returns_lift, subscript_ok in Hfn.
  apply returns_bind in H as ([] & _ & H). apply returns_ret in H.
  exists o, r, n, i, rd, prompt. split; [|exact H].
  unfold prepared, fetched, cloned, prompted. eauto 15.
Qed.

Lemma returns_pull_request_step p analysis pr_url :
  returns (pull_request_step w self issue_url instruction p analysis create_pr
             draft_pr) pr_url ->
  pr_outcome pr_url.
Proof.
  unfold pull_request_step, pr_outcome, pr_wanted.
  destruct (create_pr && _) eqn:Ef.
  - intros H. right. apply andb_true_iff in Ef. split; [exact Ef|].
    cbv zeta in H.
    apply returns_bind in H as (pr_data & Hd & H). apply returns_call in Hd.
    apply returns_bind in H as (u & Hu & H). apply returns_lift, subscript_ok in Hu.
    apply returns_bind in H as (answer & Ha & H). apply returns_call in Ha.
    apply returns_ret in H. subst. eauto.
  - intros H. apply returns_ret in H. now left.
Qed.

Lemma emits_assistant_phase o r n i rd prompt max_time :
  prepared o r n i rd prompt ->
  claude_getattr (Config.claude (config self)) "timeout" = Ok max_time ->
  emits session_call
    (assistant_phase w self session_start issue_url instruction
       {| p_owner := o; p_repo := r; p_issue_number := n; p_repo_data := rd;
          p_branch_name := session_branch n;
          p_repo_path := session_repo_path r;
          p_full_instruction := prompt |}
       max_time create_pr draft_pr).
Proof.
  intros Hprep Hread. unfold assistant_phase. cbn [p_repo_path p_full_instruction].
  apply emits_bind_path.
  { apply emits_run_claude_code_session. intros t ->.
    now apply (call_assistant o r n i rd prompt t). }
  intros cp Hcp. apply returns_run_claude_code_session_int in Hcp.
  destruct Hcp as (Hcp & t & ->).
  assert (Hb : budget t) by exact Hread.
  cbv zeta.
  destruct (negb (a_success (analyze_session_output cp))) eqn:Es.
  { apply negb_true_iff in Es.
    assert (Hne : returncode cp <> 0%Z).
    { intros Hz. now rewrite (a_success_of_zero _ Hz) in Es. }
    unfold after_failure.
    apply emits_bind; [apply emits_update_result|]. intros _.
    apply emits_bind_path; [apply emits_now|]. intros tm Htm.
    apply returns_now in Htm as (k & ->).
    apply emits_notify. intros url Hurl.
    now apply (post_failed o r n i rd prompt t cp url k). }
  apply negb_false_iff, a_success_zero in Es.
  assert (Hs : succeeded cp) by now split.
  unfold after_success.
  apply emits_bind_path.
  { unfold has_changes.
    apply emits_bind_path;
      [apply emits_call; now apply (call_is_dirty o r n i rd prompt t cp)|].
    intros dirty Hd. apply returns_call in Hd.
    destruct dirty; [apply emits_ret|].
    apply emits_bind; [|intros; apply emits_ret].
    apply emits_call. now apply (call_untracked_files o r n i rd prompt t cp). }
  intros changed Hch.
  apply emits_bind;
    [|intros _; apply emits_bind; [apply emits_now|intros; apply emits_update_result]].
  destruct changed.
  - apply returns_has_changes in Hch.
    unfold commit_and_publish. cbn [p_issue_number p_branch_name].
    apply emits_bind_path;
      [apply emits_call; now apply (call_git_add o r n i rd prompt t cp)|].
    intros [] Hadd. apply returns_call in Hadd.
    apply emits_bind_path;
      [apply emits_call; now apply (call_commit o r n i rd prompt t cp)|].
    intros [] Hcommit. apply returns_call in Hcommit.
    apply emits_bind_path;
      [apply emits_call; now apply (call_push_changes o r n i rd prompt t cp)|].
    intros [] Hpush. apply returns_call in Hpush.
    assert (Hpub : publishes w) by (unfold publishes; auto).
    apply emits_bind_path.
    { unfold pull_request_step.
      destruct (create_pr && _) eqn:Ef; [|apply emits_ret].
      apply andb_true_iff in Ef.
      cbv zeta. cbn [p_owner p_repo p_issue_number p_branch_name p_repo_data].
      apply emits_bind_path;
        [apply emits_call;
         now apply (call_create_pull_request o r n i rd prompt t cp)|].
      intros pr_data Hpd. apply returns_call in Hpd.
      apply emits_bind_path; [apply emits_lift|].
      intros u Hu. apply returns_lift, subscript_ok in Hu.
      apply emits_bind; [|intros; apply emits_ret].
      apply emits_call.
      now apply (call_add_comment_to_issue o r n i rd prompt t cp pr_data u). }
    intros pu Hpu. apply returns_pull_request_step in Hpu.
    apply emits_bind; [apply emits_update_result|]. intros _.
    apply emits_bind_path; [apply emits_now|]. intros tm Htm.
    apply returns_now in Htm as (k & ->).
    apply emits_notify. intros url Hurl.
    now apply (post_success o r n i rd prompt t cp pu url k).
  - assert (Hclean : w_is_dirty w = Ok false /\ w_untracked_files w = Ok []).
    { destruct Hch as (st & st' & E).
      unfold has_changes, bind, call, ret in E.
      destruct (w_is_dirty w) as [[|]|]; try discriminate.
      destruct (w_untracked_files w) as [[|f fs]|]; try discriminate. auto. }
    destruct Hclean as (Hd & Hu).
    unfold no_changes.
    apply emits_bind; [apply emits_update_result|]. intros _.
    apply emits_bind_path; [apply emits_now|]. intros tm Htm.
    apply returns_now in Htm as (k & ->).
    apply emits_notify. intros url Hurl.
    now apply (post_completed o r n i rd prompt t cp url k).
Qed.

Lemma emits_session_body :
  emits session_call
    (session_body w urlparse_path claude_getattr self session_start issue_url
       instruction branch_name create_pr draft_pr).
Proof.
  unfold session_body, read_budget.
  apply emits_bind_path; [apply emits_prepare|].
  intros p Hp. destruct (returns_prepare p Hp) as (o & r & n & i & rd & prompt & Hprep & ->).
  apply emits_bind_path; [apply emits_lift|].
  intros max_time Hread. apply returns_lift in Hread.
  now apply (emits_assistant_phase o r n i rd prompt max_time).
Qed.

Lemma emits_on_exception_call e :
  is_Exception (exn_class e) = true ->
  emits session_call (on_exception w self issue_url e).
Proof.
  intros He. unfold on_exception.
  apply emits_bind; [apply emits_update_result|]. intros _.
  apply emits_bind; [apply emits_now|]. intros t_end.
  apply emits_bind; [apply emits_update_result|]. intros _.
  apply emits_bind_path; [apply emits_now|]. intros tm Htm.
  apply returns_now in Htm as (k & ->).
  apply emits_notify. intros url Hurl.
  now apply (post_error e url k).
Qed.

(** Every call of a session is one of the call sites. *)
Lemma run_session_calls :
  session_start = w_now w 0 ->
  Forall session_call
    (snd (run_session w urlparse_path claude_getattr self issue_url instruction
            branch_name create_pr draft_pr)).
Proof.
  intros Hstart. rewrite run_session_unfold. rewrite <- Hstart.
  destruct (try_except _ _ _) as [r st] eqn:E.
  assert (G : grows session_call (entered w issue_url instruction) st).
  { revert E. apply emits_try_except_path;
      [apply emits_session_body|apply emits_on_exception_call]. }
  assert (F : Forall session_call (trace st)).
  { eapply grows_Forall; [exact G|]. constructor. }
  destruct r; exact F.
Qed.

End Calls.

End SessionCalls.

(** ** orchestrator.py: the outcomes of a session *)

Module SessionOutcomes.
Import ClaudeSession ClaudeSessionFacts Notifications Orchestrator OrchestratorFacts
  SessionCalls.

Section Outcomes.

Variable w : World.
Variable urlparse_path : string -> Result string.
Variable claude_getattr : Config.ClaudeConfig -> string -> Result Config.AttrValue.
Variable self : ClaudeForgeOrchestrator.
Variables issue_url instruction : string.
Variable branch_name : option string.
Variables create_pr draft_pr : bool.

Local Abbreviation session_start := (w_now w 0).
Local Abbreviation branch := (session_branch session_start branch_name).
Local Abbreviation repo_path := (session_repo_path self session_start).

(** The calls up to the creation of the branch, the latest first. *)
Definition setup_calls (owner repo : string) (n : Z) (repo_data : JObj)
  : list Event :=
  [ EvCreateBranch (branch n) (default_branch_of repo_data);
    EvCloneRepository (get_default repo_data "clone_url" JNull) (repo_path repo)
      (default_branch_of repo_data);
    EvMkdir (PathOf (Config.clone_dir (Config.development (config self))));
    EvGetRepository owner repo;
    EvGetIssue owner repo n ].

Hypothesis Hpost : post_ordinary w.


End Outcomes.

End SessionOutcomes.

Section SessionCallExtras.
Import ClaudeSession Notifications Orchestrator OrchestratorFacts SessionCalls.

(** What a call of a session is made after. *)
Definition call_guard (w : World) (urlparse_path : string -> Result string)
  (claude_getattr : Config.ClaudeConfig -> string -> Result Config.AttrValue)
  (self : ClaudeForgeOrchestrator) (issue_url instruction : string) (ev : Event)
  : Prop :=
  match ev with
  | EvGetIssue owner repo n =>
      GitHubClient.parse_issue_url urlparse_path issue_url = Ok (owner, repo, n)
  | EvGetRepository _ _ => exists issue_data, w_get_issue w = Ok issue_data
  | EvMkdir _ => exists repo_data, w_get_repository w = Ok repo_data
  | EvCloneRepository clone_url _ _ =>
      w_mkdir w = Ok tt
      /\ exists repo_data, w_get_repository w = Ok repo_data
                           /\ json_get repo_data "clone_url" = Some clone_url
  | EvCreateBranch _ _ => w_clone_repository w = Ok tt
  | EvSubprocessRun c =>
      w_create_branch w = Ok tt
      /\ exists issue_data repo_data prompt max_time,
           w_get_issue w = Ok issue_data /\ w_get_repository w = Ok repo_data
           /\ create_instruction_prompt instruction (Some issue_data) (Some repo_data)
              = Ok prompt
           /\ claude_getattr (Config.claude (config self)) "timeout"
              = Ok (Config.AInt max_time)
           /\ cmd c = ["claude-code"; "--"; prompt]
           /\ timeout c = (max_time + 60)%Z
           /\ env c = [ ("CLAUDE_CODE_NON_INTERACTIVE", "1");
                        ("CLAUDE_CODE_TIMEOUT", py_str_int max_time) ]
  | EvIsDirty => assistant_succeeds w
  | EvUntrackedFiles => assistant_succeeds w /\ w_is_dirty w = Ok false
  | EvGitAdd _ => assistant_succeeds w /\ tree_has_diff w
  | EvCommit _ => assistant_succeeds w /\ tree_has_diff w /\ w_git_add w = Ok tt
  | EvPushChanges _ =>
      assistant_succeeds w /\ tree_has_diff w
      /\ w_git_add w = Ok tt /\ w_commit w = Ok tt
  | EvCreatePullRequest _ _ _ _ _ _ _ =>
      assistant_succeeds w /\ tree_has_diff w /\ publishes w
  | EvAddCommentToIssue _ _ _ comment =>
      assistant_succeeds w /\ tree_has_diff w /\ publishes w
      /\ exists pr_data pr_url,
           w_create_pull_request w = Ok pr_data
           /\ json_get pr_data "html_url" = Some pr_url
           /\ comment
              = robot ++ " ClaudeForge has created a pull request to address this issue: "
                ++ py_str pr_url
  | EvWebhookPost _ _ => True
  | EvSmtpSend _ _ => False
  end.

(** X12.  Every call a session makes outside the process is made only after
    the calls it builds on went through: the repository is fetched after
    the issue, cloned after the clone directory exists, the assistant is
    started after the branch was created and the prompt was built, and with
    that prompt as its one argument; nothing is staged, committed or pushed
    unless the assistant exited with code zero and the working tree shows a
    diff, each of the three only after the one before; the comment on the
    issue is posted only after the pull request was created and carries its
    URL.  No email is ever sent. *)
Theorem run_session_call_order :
  forall (w : World) (urlparse_path : string -> Result string)
         (claude_getattr : Config.ClaudeConfig -> string -> Result Config.AttrValue)
         (self : ClaudeForgeOrchestrator) (issue_url instruction : string)
         (branch_name : option string) (create_pr draft_pr : bool),
    Forall (call_guard w urlparse_path claude_getattr self issue_url instruction)
      (snd (run_session w urlparse_path claude_getattr self issue_url instruction
              branch_name create_pr draft_pr)).
Proof.
  intros w urlparse_path claude_getattr self issue_url instruction branch_name
    create_pr draft_pr.
  eapply Forall_impl;
    [|exact (run_session_calls w urlparse_path claude_getattr self (w_now w 0)
               issue_url instruction branch_name create_pr draft_pr eq_refl)].
  intros ev Hev.
  destruct Hev;
    unfold prepared, parsed, fetched, cloned, prompted, succeeded, budget in *;
    repeat match goal with
    | H : _ /\ _ |- _ => destruct H
    | H : exists _, _ |- _ => destruct H
    end;
    try assert (assistant_succeeds w) by (unfold assistant_succeeds; eauto);
    simpl; eauto 15.
Qed.

(** The repository, issue, branch and directory a call works on. *)
Definition call_target (w : World) (self : ClaudeForgeOrchestrator)
  (instruction : string) (branch_name : option string) (draft_pr : bool)
  (owner repo : string) (n : Z) (ev : Event) : Prop :=
  let branch := session_branch (w_now w 0) branch_name n in
  let repo_path := session_repo_path self (w_now w 0) repo in
  let based_on (base : JVal) :=
    forall repo_data, w_get_repository w = Ok repo_data ->
                      base = get_default repo_data "default_branch" (JStr "main") in
  match ev with
  | EvGetIssue owner' repo' n' => owner' = owner /\ repo' = repo /\ n' = n
  | EvGetRepository owner' repo' => owner' = owner /\ repo' = repo
  | EvMkdir dir =>
      dir = PathOf (Config.clone_dir (Config.development (config self)))
  | EvCloneRepository _ local_path base => local_path = repo_path /\ based_on base
  | EvCreateBranch name base => name = branch /\ based_on base
  | EvSubprocessRun c => cwd c = repo_path
  | EvGitAdd pathspec => pathspec = "."
  | EvCommit message =>
      message = "ClaudeForge: " ++ instruction ++ nl ++ nl
                ++ "Resolves #" ++ py_str_int n
  | EvPushChanges name => name = branch
  | EvCreatePullRequest owner' repo' title _ head base draft =>
      owner' = owner /\ repo' = repo
      /\ title = "ClaudeForge: " ++ instruction
      /\ head = branch /\ based_on base /\ draft = draft_pr
  | EvAddCommentToIssue owner' repo' n' _ => owner' = owner /\ repo' = repo /\ n' = n
  | _ => True
  end.

(** X13.  When the issue URL parses to an owner, a repository and a number,
    every call of the session works on them: the gateway calls address that
    repository and issue; the clone, the assistant and no other directory
    than [clone_dir/<repo>-<start time>] are involved; the branch that is
    created, pushed and offered in the pull request is one and the same,
    the name asked for or else [claudeforge-issue-<number>-<start time>];
    and clone, branch and pull request are based on the default branch the
    repository reports.  When the URL does not parse, the session makes no
    call but the error notification. *)
Theorem run_session_call_targets :
  forall (w : World) (urlparse_path : string -> Result string)
         (claude_getattr : Config.ClaudeConfig -> string -> Result Config.AttrValue)
         (self : ClaudeForgeOrchestrator) (issue_url instruction : string)
         (branch_name : option string) (create_pr draft_pr : bool),
    (forall owner repo n,
        GitHubClient.parse_issue_url urlparse_path issue_url = Ok (owner, repo, n) ->
        Forall (call_target w self instruction branch_name draft_pr owner repo n)
          (snd (run_session w urlparse_path claude_getattr self issue_url instruction
                  branch_name create_pr draft_pr)))
    /\ (forall e,
          GitHubClient.parse_issue_url urlparse_path issue_url = Raise e ->
          Forall is_post
            (snd (run_session w urlparse_path claude_getattr self issue_url
                    instruction branch_name create_pr draft_pr))).
Proof.
  intros w urlparse_path claude_getattr self issue_url instruction branch_name
    create_pr draft_pr.
  pose proof (run_session_calls w urlparse_path claude_getattr self (w_now w 0)
                issue_url instruction branch_name create_pr draft_pr eq_refl) as F.
  split.
  - intros owner repo n Hp. eapply Forall_impl; [|exact F].
    intros ev Hev.
    destruct Hev;
      unfold prepared, parsed, fetched in *;
      repeat match goal with
      | H : _ /\ _ |- _ => destruct H
      end;
      try match goal with
      | H : GitHubClient.parse_issue_url _ _ = Ok _ |- _ =>
          rewrite Hp in H; injection H as <- <- <-
      end;
      simpl; repeat split; auto;
      intros rd' Hrd'; unfold default_branch_of; congruence.
  - intros e Hp. eapply Forall_impl; [|exact F].
    intros ev Hev.
    destruct Hev;
      unfold prepared, parsed in *;
      repeat match goal with
      | H : _ /\ _ |- _ => destruct H
      end;
      try congruence; exact I.
Qed.

Lemma run_session_call_targets_witness :
  Forall (call_target SessionExamples.calm_world
            (init SessionExamples.sample_config) "fix it" None false
            "ownerA" "repoB" 42%Z)
    (snd (SessionExamples.session SessionExamples.calm_world
            Config.getattr_ClaudeConfig true)).
Proof.
  apply (proj1 (run_session_call_targets SessionExamples.calm_world
                  GitHubClient.generic_url_path
                  Config.getattr_ClaudeConfig
                  (init SessionExamples.sample_config)
                  SessionExamples.sample_url "fix it" None true false)).
  reflexivity.
Defined.

Definition session_statuses : list string :=
  ["started"; "success"; "completed"; "failed"; "error"].

(** What a session sends to the chat channel. *)
Definition session_post (self : ClaudeForgeOrchestrator) (issue_url : string)
  (ev : Event) : Prop :=
  match ev with
  | EvWebhookPost url payload =>
      webhook_of (notification_manager self) = Some url
      /\ exists status details,
           In status session_statuses
           /\ payload = webhook_payload status issue_url details
           /\ Forall (fun f => name f <> "Changes Made")
                (fields (create_session_embed status issue_url details))
  | EvSmtpSend _ _ => False
  | _ => True
  end.

Lemma changes_made_nil cp : changes_made (analyze_session_output cp) = [].
Proof. unfold analyze_session_output. destruct (Z.eqb _ _); reflexivity. Qed.

(** X14.  The notifications of a session: every webhook delivery goes to the
    configured webhook URL and announces one of the statuses [started],
    [success], [completed], [failed] and [error] for the issue of the
    session; its embed never has a [Changes Made] field, since the run
    analysis lists no changes; no email is sent; and with the chat channel
    disabled or without webhook URL the session delivers nothing at all. *)
Theorem run_session_notifications :
  forall (w : World) (urlparse_path : string -> Result string)
         (claude_getattr : Config.ClaudeConfig -> string -> Result Config.AttrValue)
         (self : ClaudeForgeOrchestrator) (issue_url instruction : string)
         (branch_name : option string) (create_pr draft_pr : bool),
    Forall (session_post self issue_url)
      (snd (run_session w urlparse_path claude_getattr self issue_url instruction
              branch_name create_pr draft_pr))
    /\ (webhook_of (notification_manager self) = None ->
        Forall (fun ev => ~ is_post ev)
          (snd (run_session w urlparse_path claude_getattr self issue_url
                  instruction branch_name create_pr draft_pr))).
Proof.
  intros w urlparse_path claude_getattr self issue_url instruction branch_name
    create_pr draft_pr.
  pose proof (run_session_calls w urlparse_path claude_getattr self (w_now w 0)
                issue_url instruction branch_name create_pr draft_pr eq_refl) as F.
  split.
  - eapply Forall_impl; [|exact F].
    intros ev Hev.
    destruct Hev; simpl; auto;
      (split; [assumption|]);
      eexists; eexists;
      (split; [|split; [reflexivity|]]);
      try (unfold session_statuses; simpl; auto 10; fail);
      unfold create_session_embed; simpl; rewrite ?changes_made_nil;
      repeat constructor; simpl; discriminate.
  - intros Hnone. eapply Forall_impl; [|exact F].
    intros ev Hev Hpost. destruct Hev; simpl in Hpost; try contradiction; congruence.
Qed.

Lemma run_session_notifications_witness :
  Forall (fun ev => ~ is_post ev)
    (snd (run_session SessionExamples.calm_world GitHubClient.generic_url_path
            Config.getattr_ClaudeConfig
            (init {| Config.claude := Config.claude SessionExamples.sample_config;
                     Config.github := Config.github SessionExamples.sample_config;
                     Config.notifications := Config.default_NotificationConfig;
                     Config.development := Config.default_DevelopmentConfig;
                     Config.logging := Config.default_LoggingConfig |})
            SessionExamples.sample_url "fix it" None true false)).
Proof.
  apply (proj2 (run_session_notifications SessionExamples.calm_world
                  GitHubClient.generic_url_path
                  Config.getattr_ClaudeConfig
                  (init {| Config.claude := Config.claude SessionExamples.sample_config;
                           Config.github := Config.github SessionExamples.sample_config;
                           Config.notifications := Config.default_NotificationConfig;
                           Config.development := Config.default_DevelopmentConfig;
                           Config.logging := Config.default_LoggingConfig |})
                  SessionExamples.sample_url "fix it" None true false)).
  reflexivity.
Defined.

End SessionCallExtras.

Section IssueBodyExtras.
Import ClaudeSession ClaudeSessionFacts Notifications Orchestrator OrchestratorFacts
  SessionCalls SessionOutcomes.

(** X15.  An issue whose [body] is present but is no text (the API reports
    an issue without description with a null body) makes
    [create_instruction_prompt] raise, so no session for it ever starts the
    assistant.  When fetch, clone and branch go through, the session ends
    right after the branch was created, without a start notification: the
    result has [success] false and the [TypeError] message of [join] as
    [error], and the one notification is the [error] one. *)
Theorem issue_body_not_text_stops_session :
  forall (w : World) (urlparse_path : string -> Result string)
         (claude_getattr : Config.ClaudeConfig -> string -> Result Config.AttrValue)
         (self : ClaudeForgeOrchestrator) (issue_url instruction : string)
         (branch_name : option string) (create_pr draft_pr : bool)
         (issue_data : JObj) (body : JVal),
    w_get_issue w = Ok issue_data ->
    json_get issue_data "body" = Some body ->
    (forall s, body <> JStr s) ->
    Forall not_assistant
      (snd (run_session w urlparse_path claude_getattr self issue_url instruction
              branch_name create_pr draft_pr))
    /\ (forall owner repo n repo_data,
          post_ordinary w ->
          GitHubClient.parse_issue_url urlparse_path issue_url = Ok (owner, repo, n) ->
          w_get_repository w = Ok repo_data ->
          cloned w repo_data ->
          w_create_branch w = Ok tt ->
          run_session w urlparse_path claude_getattr self issue_url instruction
            branch_name create_pr draft_pr
          = (Ok {| success := false; Orchestrator.issue_url := issue_url;
                   start_time := isoformat (w_now w 0);
                   r_instruction := instruction;
                   error := Some (body_message body);
                   details := None;
                   r_branch_name := None; pr_url := None;
                   changes_committed := None;
                   session_analysis := None; message := None;
                   end_time := Some (isoformat (w_now w 1));
                   duration_micro := None |},
             delivered (notification_manager self) "error" issue_url
               {| d_timestamp := Some (isoformat (w_now w 2));
                  d_summary := Some ("Session failed with error: "
                                     ++ body_message body);
                  d_changes := None; d_pr_url := None;
                  d_errors := Some [body_message body];
                  d_repository := None; d_branch := None |}
               (setup_calls w self branch_name owner repo n repo_data))).
Proof.
  intros w urlparse_path claude_getattr self issue_url instruction branch_name
    create_pr draft_pr issue_data body Hi Hb Hn.
  split.
  - eapply Forall_impl;
      [|exact (run_session_calls w urlparse_path claude_getattr self (w_now w 0)
                 issue_url instruction branch_name create_pr draft_pr eq_refl)].
    intros ev Hev. destruct Hev; try exact I.
    match goal with
    | H : prepared _ _ _ _ _ _ _ _ _ _ |- _ =>
        destruct H as (_ & (Hi' & _) & _ & (_ & Hprompt & _))
    end.
    rewrite Hi in Hi'. injection Hi' as <-.
    rewrite (prompt_body_raises _ _ _ _ Hb Hn) in Hprompt. discriminate Hprompt.
  - intros owner repo n repo_data Hpost Hp Hrd (Hmk & (u & Hu) & Hcl) Hbr.
    assert (Hbody :
      session_body w urlparse_path claude_getattr self (w_now w 0) issue_url
        instruction branch_name create_pr draft_pr (entered w issue_url instruction)
      = (Raise (mkExn TypeError (body_message body)),
         {| trace := setup_calls w self branch_name owner repo n repo_data;
            clock_reads := 1;
            result := fresh_result issue_url instruction (w_now w 0);
            current_repo_path :=
              Some (session_repo_path self (w_now w 0) repo) |})).
    { unfold session_body, prepare, bind, lift, call, set_current_repo_path,
        modify, ret, subscript, record, entered, initial, tick, set_result.
      rewrite Hp, Hi, Hrd. cbn -[notify create_instruction_prompt].
      rewrite Hmk, Hu. cbn -[notify create_instruction_prompt].
      rewrite Hcl, Hbr, (prompt_body_raises _ _ _ _ Hb Hn).
      cbn -[notify]. unfold setup_calls.
      rewrite (get_default_found _ _ _ JNull Hu). reflexivity. }
    rewrite (run_session_caught w urlparse_path claude_getattr self issue_url
               instruction branch_name create_pr draft_pr _ _ Hpost Hbody eq_refl).
    reflexivity.
Qed.

Lemma undescribed_world_post_ordinary :
  post_ordinary SessionExamples.undescribed_world.
Proof. intros h e H. discriminate H. Qed.

Lemma issue_body_not_text_stops_session_witness :
  exists r tr,
    SessionExamples.session SessionExamples.undescribed_world
      Config.getattr_ClaudeConfig true = (Ok r, tr)
    /\ success r = false
    /\ error r = Some "sequence item 10: expected str instance, NoneType found"
    /\ Forall not_assistant tr.
Proof.
  pose proof (issue_body_not_text_stops_session SessionExamples.undescribed_world
                GitHubClient.generic_url_path Config.getattr_ClaudeConfig
                (init SessionExamples.sample_config) SessionExamples.sample_url
                "fix it" None true false SessionExamples.undescribed_issue JNull
                eq_refl eq_refl
                (fun s H => eq_ind JNull
                   (fun v => match v with JNull => True | _ => False end) I _ H))
    as (Hno & Hres).
  pose proof (Hres "ownerA" "repoB" 42%Z SessionExamples.repo_json
                undescribed_world_post_ordinary eq_refl eq_refl
                (conj eq_refl (conj (ex_intro _ _ eq_refl) eq_refl)) eq_refl) as E.
  eexists. eexists. split; [exact E|].
  split; [reflexivity|]. split; [reflexivity|].
  rewrite E in Hno. exact Hno.
Defined.

End IssueBodyExtras.

(** ** orchestrator.py: the result mapping *)

Module SessionResults.
Import ClaudeSession Notifications Orchestrator OrchestratorFacts SessionCalls.

Section Results.

Variable w : World.
Variable self : ClaudeForgeOrchestrator.
Variable session_start : DateTime.
Variables issue_url instruction : string.
Variables create_pr draft_pr : bool.

Lemma bind_ok {A B} (c : Run A) (k : A -> Run B) st b st' :
  bind c k st = (Ok b, st') ->
  exists a st1, c st = (Ok a, st1) /\ k a st1 = (Ok b, st').
Proof.
  unfold bind. destruct (c st) as [[a|e] st1]; [eauto|discriminate].
Qed.

Lemma framed {A} (c : Run A) st r st' :
  frame any_event c -> c st = (r, st') -> result st' = result st.
Proof. intros H E. now destruct (H _ _ _ E). Qed.

Lemma update_result_ok f st u st' :
  update_result f st = (Ok u, st') -> result st' = f (result st).
Proof. unfold update_result, modify. now intros [= _ <-]. Qed.

Lemma now_ok st t st' :
  now w st = (Ok t, st') -> result st' = result st /\ exists k, t = w_now w k.
Proof. unfold now. intros [= <- <-]. split; [reflexivity|eauto]. Qed.

Lemma notify_ok status details st u st' :
  notify w self status issue_url details st = (Ok u, st') ->
  result st' = result st.
Proof. apply framed. apply frame_notify. intros; exact I. Qed.

(** What the three ways to leave the [try] without an exception do to the
    result mapping [r] they start from. *)
Definition failed_from (r : SessionResult) (analysis : Analysis) : SessionResult :=
  {| success := success r; Orchestrator.issue_url := Orchestrator.issue_url r;
     start_time := start_time r; r_instruction := r_instruction r;
     error := Some "Claude Code session failed";
     details := Some analysis;
     r_branch_name := r_branch_name r; pr_url := pr_url r;
     changes_committed := changes_committed r;
     session_analysis := session_analysis r;
     message := message r; end_time := end_time r;
     duration_micro := duration_micro r |}.

Definition unchanged_from (r : SessionResult) (session_end : DateTime)
  : SessionResult :=
  {| success := true; Orchestrator.issue_url := Orchestrator.issue_url r;
     start_time := start_time r; r_instruction := r_instruction r;
     error := error r; details := details r;
     r_branch_name := r_branch_name r; pr_url := pr_url r;
     changes_committed := Some false;
     session_analysis := session_analysis r;
     message := Some "No changes were made to the repository";
     end_time := Some (isoformat session_end);
     duration_micro := Some (wall_micro session_end - wall_micro session_start)%Z |}.

Definition published_from (r : SessionResult) (branch : string) (url : JVal)
  (analysis : Analysis) (session_end : DateTime) : SessionResult :=
  {| success := true; Orchestrator.issue_url := Orchestrator.issue_url r;
     start_time := start_time r; r_instruction := r_instruction r;
     error := error r; details := details r;
     r_branch_name := Some branch;
     pr_url := Some url;
     changes_committed := Some true;
     session_analysis := Some analysis;
     message := message r;
     end_time := Some (isoformat session_end);
     duration_micro := Some (wall_micro session_end - wall_micro session_start)%Z |}.

Lemma after_failure_ok analysis st u st' :
  after_failure w self issue_url analysis st = (Ok u, st') ->
  result st' = failed_from (result st) analysis.
Proof.
  unfold after_failure. intros H.
  apply bind_ok in H as (? & st1 & H1 & H). apply update_result_ok in H1.
  apply bind_ok in H as (t & st2 & H2 & H). apply now_ok in H2 as (H2 & _).
  apply notify_ok in H. now rewrite H, H2, H1.
Qed.

Lemma no_changes_ok st u st' :
  no_changes w self issue_url st = (Ok u, st') ->
  result st'
  = {| success := true; Orchestrator.issue_url := Orchestrator.issue_url (result st);
       start_time := start_time (result st);
       r_instruction := r_instruction (result st);
       error := error (result st); details := details (result st);
       r_branch_name := r_branch_name (result st); pr_url := pr_url (result st);
       changes_committed := Some false;
       session_analysis := session_analysis (result st);
       message := Some "No changes were made to the repository";
       end_time := end_time (result st);
       duration_micro := duration_micro (result st) |}.
Proof.
  unfold no_changes. intros H.
  apply bind_ok in H as (? & st1 & H1 & H). apply update_result_ok in H1.
  apply bind_ok in H as (t & st2 & H2 & H). apply now_ok in H2 as (H2 & _).
  apply notify_ok in H. now rewrite H, H2, H1.
Qed.

Lemma call_ok {A} ev (answer : Result A) st a st' :
  call ev answer st = (Ok a, st') -> answer = Ok a /\ result st' = result st.
Proof. unfold call. now intros [= -> <-]. Qed.

Lemma commit_and_publish_ok p analysis st u st' :
  commit_and_publish w self issue_url instruction p analysis create_pr draft_pr st
  = (Ok u, st') ->
  exists url,
    publishes w /\ pr_outcome w self create_pr url
    /\ result st'
       = {| success := true;
            Orchestrator.issue_url := Orchestrator.issue_url (result st);
            start_time := start_time (result st);
            r_instruction := r_instruction (result st);
            error := error (result st); details := details (result st);
            r_branch_name := Some (p_branch_name p);
            pr_url := Some url;
            changes_committed := Some true;
            session_analysis := Some analysis;
            message := message (result st);
            end_time := end_time (result st);
            duration_micro := duration_micro (result st) |}.
Proof.
  unfold commit_and_publish. intros H.
  apply bind_ok in H as ([] & st1 & H1 & H). apply call_ok in H1 as (Hadd & H1).
  apply bind_ok in H as ([] & st2 & H2 & H). apply call_ok in H2 as (Hcommit & H2).
  apply bind_ok in H as ([] & st3 & H3 & H). apply call_ok in H3 as (Hpush & H3).
  apply bind_ok in H as (url & st4 & H4 & H).
  assert (Hout : pr_outcome w self create_pr url).
  { apply (returns_pull_request_step w self issue_url instruction create_pr draft_pr
             p analysis). now exists st3, st4. }
  apply framed in H4; [|apply frame_pull_request_step; intros; exact I].
  apply bind_ok in H as (? & st5 & H5 & H). apply update_result_ok in H5.
  apply bind_ok in H as (t & st6 & H6 & H). apply now_ok in H6 as (H6 & _).
  apply notify_ok in H. exists url.
  split; [now repeat split|]. split; [exact Hout|].
  rewrite H, H6, H5, H4, H3, H2, H1. reflexivity.
Qed.

(** The ways [assistant_phase] returns: after a run with a code other than
    zero; after a run with code zero that left no diff; after a run with
    code zero, a diff, and staging, commit, push and the pull-request step
    gone through. *)
Lemma assistant_phase_ok p max_time st u st' :
  assistant_phase w self session_start issue_url instruction p max_time create_pr
    draft_pr st = (Ok u, st') ->
  (exists t, max_time = Config.AInt t)
  /\ ((exists cp, w_subprocess_run w = Ok cp /\ returncode cp <> 0%Z
                  /\ result st' = failed_from (result st) (analyze_session_output cp))
      \/ (exists cp session_end,
            w_subprocess_run w = Ok cp /\ returncode cp = 0%Z
            /\ (result st' = unchanged_from (result st) session_end
                \/ exists url,
                     tree_has_diff w /\ publishes w
                     /\ pr_outcome w self create_pr url
                     /\ result st'
                        = published_from (result st) (p_branch_name p) url
                            (analyze_session_output cp) session_end))).
Proof.
  unfold assistant_phase. intros H.
  apply bind_ok in H as (cp & st1 & H1 & H).
  destruct (returns_run_claude_code_session_int w (p_repo_path p)
              (p_full_instruction p) max_time cp) as (Hcp & Hint);
    [now exists st, st1|].
  split; [exact Hint|].
  apply framed in H1; [|apply frame_run_claude_code_session; intros; exact I].
  cbv zeta in H.
  destruct (negb (a_success (analyze_session_output cp))) eqn:Es.
  - left. exists cp. split; [exact Hcp|]. split.
    + intros Hz. rewrite (a_success_of_zero _ Hz) in Es. discriminate Es.
    + apply after_failure_ok in H. now rewrite H, H1.
  - right. apply negb_false_iff, a_success_zero in Es.
    unfold after_success in H.
    apply bind_ok in H as (changed & st2 & H2 & H).
    assert (Hdiff : changed = true -> tree_has_diff w).
    { intros ->. apply returns_has_changes. now exists st1, st2. }
    apply framed in H2; [|apply frame_has_changes; exact I].
    apply bind_ok in H as (? & st3 & H3 & H).
    apply bind_ok in H as (session_end & st4 & H4 & H).
    apply now_ok in H4 as (H4 & _). apply update_result_ok in H.
    exists cp, session_end. split; [exact Hcp|]. split; [exact Es|].
    destruct changed.
    + right. apply commit_and_publish_ok in H3 as (url & Hpub & Hout & H3).
      exists url. split; [now apply Hdiff|]. split; [exact Hpub|].
      split; [exact Hout|].
      rewrite H, H4, H3, H2, H1. reflexivity.
    + left. apply no_changes_ok in H3.
      rewrite H, H4, H3, H2, H1. reflexivity.
Qed.

End Results.

End SessionResults.

Section SessionResultExtras.
Import ClaudeSession Notifications Orchestrator OrchestratorFacts SessionCalls
  SessionResults.

(** X16.  The result mapping [run_session] hands back has one of four
    shapes (deliveries raising nothing but [Exception]s).  After an
    exception: [success] false, the exception's message as [error], an
    [end_time], and nothing else.  After a run that exited with a code other
    than zero: [success] false, the fixed error text and the run analysis
    as [details], no [end_time].  After a run that left no changes:
    [success] true, [changes_committed] false and the message, with
    [end_time] and duration.  After a publication: [success] true, the
    branch of the session, a pull-request URL (null when none was made),
    [changes_committed] true and the run analysis, with [end_time] and
    duration.  So [error] is present exactly when [success] is false, and
    [changes_committed] exactly when it is true. *)
Theorem run_session_result_shapes :
  forall (w : World) (urlparse_path : string -> Result string)
         (claude_getattr : Config.ClaudeConfig -> string -> Result Config.AttrValue)
         (self : ClaudeForgeOrchestrator) (issue_url instruction : string)
         (branch_name : option string) (create_pr draft_pr : bool)
         (r : SessionResult) (tr : list Event),
    post_ordinary w ->
    run_session w urlparse_path claude_getattr self issue_url instruction
      branch_name create_pr draft_pr = (Ok r, tr) ->
    (exists e session_end,
        is_Exception (exn_class e) = true
        /\ r = {| success := false; Orchestrator.issue_url := issue_url;
                  start_time := isoformat (w_now w 0);
                  r_instruction := instruction;
                  error := Some (exn_str e);
                  details := None; r_branch_name := None; pr_url := None;
                  changes_committed := None; session_analysis := None;
                  message := None;
                  end_time := Some (isoformat session_end);
                  duration_micro := None |})
    \/ (exists cp,
          w_subprocess_run w = Ok cp /\ returncode cp <> 0%Z
          /\ r = {| success := false; Orchestrator.issue_url := issue_url;
                    start_time := isoformat (w_now w 0);
                    r_instruction := instruction;
                    error := Some "Claude Code session failed";
                    details := Some (analyze_session_output cp);
                    r_branch_name := None; pr_url := None;
                    changes_committed := None; session_analysis := None;
                    message := None; end_time := None;
                    duration_micro := None |})
    \/ (exists cp session_end,
          w_subprocess_run w = Ok cp /\ returncode cp = 0%Z
          /\ r = {| success := true; Orchestrator.issue_url := issue_url;
                    start_time := isoformat (w_now w 0);
                    r_instruction := instruction;
                    error := None; details := None;
                    r_branch_name := None; pr_url := None;
                    changes_committed := Some false;
                    session_analysis := None;
                    message := Some "No changes were made to the repository";
                    end_time := Some (isoformat session_end);
                    duration_micro :=
                      Some (wall_micro session_end - wall_micro (w_now w 0))%Z |})
    \/ (exists cp session_end owner repo n url,
          w_subprocess_run w = Ok cp /\ returncode cp = 0%Z
          /\ GitHubClient.parse_issue_url urlparse_path issue_url
             = Ok (owner, repo, n)
          /\ r = {| success := true; Orchestrator.issue_url := issue_url;
                    start_time := isoformat (w_now w 0);
                    r_instruction := instruction;
                    error := None; details := None;
                    r_branch_name :=
                      Some (session_branch (w_now w 0) branch_name n);
                    pr_url := Some url;
                    changes_committed := Some true;
                    session_analysis := Some (analyze_session_output cp);
                    message := None;
                    end_time := Some (isoformat session_end);
                    duration_micro :=
                      Some (wall_micro session_end - wall_micro (w_now w 0))%Z |}).
Proof.
  intros w urlparse_path claude_getattr self issue_url instruction branch_name
    create_pr draft_pr r tr Hpost H.
  rewrite run_session_unfold in H. unfold try_except in H.
  destruct (session_body _ _ _ _ _ _ _ _ _ _ _) as [[[]|e] st] eqn:Hb.
  - injection H as <- _.
    unfold session_body in Hb.
    apply bind_ok in Hb as (p & st1 & Hprep & Hb).
    assert (Hres : result st1 = fresh_result issue_url instruction (w_now w 0)).
    { apply framed in Hprep; [exact Hprep|].
      apply frame_prepare. intros; exact I. }
    destruct (returns_prepare w urlparse_path self (w_now w 0) issue_url instruction
                branch_name p) as (owner & repo & n & i & rd & prompt & Hp & ->).
    { eexists. eexists. exact Hprep. }
    apply bind_ok in Hb as (max_time & st2 & Hread & Hb).
    unfold read_budget, lift in Hread. injection Hread as _ <-.
    apply assistant_phase_ok in Hb as (_ & Hb).
    destruct Hb as [(cp & Hcp & Hne & Hr)
                   |(cp & t & Hcp & Hz & [Hr|(url & _ & _ & _ & Hr)])];
      rewrite Hr, Hres.
    + right. left. exists cp. repeat split; assumption.
    + right. right. left. exists cp, t. repeat split; assumption.
    + right. right. right. exists cp, t, owner, repo, n, url.
      repeat split; try assumption. exact (proj1 Hp).
  - destruct (is_Exception (exn_class e)) eqn:He; [|discriminate H].
    rewrite on_exception_eq in H by assumption. injection H as <- _.
    rewrite (fails_early_session_body w urlparse_path claude_getattr self
               (w_now w 0) issue_url instruction branch_name create_pr draft_pr
               Hpost _ _ _ Hb).
    left. exists e. eexists. split; [exact He|reflexivity].
Qed.

Lemma run_session_result_shapes_witness :
  exists r tr,
    SessionExamples.session SessionExamples.calm_world Config.getattr_ClaudeConfig true
    = (Ok r, tr)
    /\ (success r = false <-> error r <> None)
    /\ (success r = true <-> changes_committed r <> None).
Proof.
  assert (E : exists r tr,
             run_session SessionExamples.calm_world GitHubClient.generic_url_path
               Config.getattr_ClaudeConfig (init SessionExamples.sample_config)
               SessionExamples.sample_url "fix it" None true false = (Ok r, tr))
    by (eexists; eexists; vm_compute; reflexivity).
  destruct E as (r & tr & E).
  exists r, tr. split; [exact E|].
  destruct (run_session_result_shapes SessionExamples.calm_world
              GitHubClient.generic_url_path Config.getattr_ClaudeConfig
              (init SessionExamples.sample_config) SessionExamples.sample_url
              "fix it" None true false r tr (calm_post_ordinary _ _) E)
    as [(e & t & He & ->)|[(cp & Hcp & Hne & ->)|[(cp & t & Hcp & Hz & ->)
       |(cp & t & o & rp & n & u & Hcp & Hz & _ & ->)]]];
    simpl;
    (split; split; intros H;
     first [discriminate H | reflexivity | discriminate
           | exfalso; apply H; reflexivity]).
Defined.

End SessionResultExtras.

Section PromptExtras.
Import ClaudeSession ClaudeSessionFacts.

(** X17.  When the issue description is a text (or no issue is given),
    [create_instruction_prompt] returns the preamble with the instruction
    line, then the issue block, then the repository block, then the fixed
    checklist.  A block is empty exactly when its context is left out or is
    an empty mapping, so leaving out a context removes its block and
    changes nothing else: preamble and checklist depend on neither
    context. *)
Theorem create_instruction_prompt_layout :
  forall (instruction : string) (issue_data repo_data : option JObj),
    body_is_text issue_data ->
    create_instruction_prompt instruction issue_data repo_data
    = Ok (preamble_text instruction ++ issue_text issue_data
          ++ repo_text repo_data ++ checklist_text)
    /\ create_instruction_prompt instruction None repo_data
       = Ok (preamble_text instruction ++ repo_text repo_data ++ checklist_text)
    /\ create_instruction_prompt instruction issue_data None
       = Ok (preamble_text instruction ++ issue_text issue_data ++ checklist_text)
    /\ create_instruction_prompt instruction None None
       = Ok (preamble_text instruction ++ checklist_text)
    /\ (issue_text issue_data = EmptyString <-> truthy issue_data = false)
    /\ (repo_text repo_data = EmptyString <-> truthy repo_data = false).
Proof.
  intros instruction issue_data repo_data Hb.
  split; [now apply prompt_text|].
  split; [exact (prompt_text instruction None repo_data body_is_text_none)|].
  split; [exact (prompt_text instruction issue_data None Hb)|].
  split; [exact (prompt_text instruction None None body_is_text_none)|].
  unfold issue_text, repo_text.
  split.
  - destruct (truthy issue_data); split; intros H;
      first [reflexivity | discriminate H].
  - destruct (truthy repo_data); split; intros H;
      first [reflexivity | discriminate H].
Qed.

Lemma create_instruction_prompt_layout_witness :
  create_instruction_prompt "fix it" (Some SessionExamples.issue_json) None
  = Ok (preamble_text "fix it" ++ issue_text (Some SessionExamples.issue_json)
        ++ checklist_text)
  /\ create_instruction_prompt "fix it" None None
     = Ok (preamble_text "fix it" ++ checklist_text).
Proof.
  destruct (create_instruction_prompt_layout "fix it"
              (Some SessionExamples.issue_json) None)
    as (_ & _ & H3 & H4 & _).
  - intros _. eexists. reflexivity.
  - split; assumption.
Defined.

End PromptExtras.

(** ** orchestrator.py: what a session does once the assistant has run *)

Module SessionFlow.
Import ClaudeSession ClaudeSessionFacts Notifications Orchestrator OrchestratorFacts
  SessionCalls SessionOutcomes SessionResults.

Section Flow.

Variable w : World.
Variable urlparse_path : string -> Result string.
Variable claude_getattr : Config.ClaudeConfig -> string -> Result Config.AttrValue.
Variable self : ClaudeForgeOrchestrator.
Variables issue_url instruction : string.
Variable branch_name : option string.
Variables create_pr draft_pr : bool.








End Flow.

End SessionFlow.

Section PullRequestClaims.
Import ClaudeSession ClaudeSessionFacts Notifications Orchestrator OrchestratorFacts
  SessionCalls SessionFlow SessionExamples.




End PullRequestClaims.

(** ** orchestrator.py: when the assistant does not return *)

Module AssistantRaises.
Import ClaudeSession ClaudeSessionFacts Notifications Orchestrator OrchestratorFacts
  SessionCalls SessionResults.


Section Raises.

Variable w : World.
Variable urlparse_path : string -> Result string.
Variable claude_getattr : Config.ClaudeConfig -> string -> Result Config.AttrValue.
Variable self : ClaudeForgeOrchestrator.
Variables issue_url instruction : string.
Variable branch_name : option string.
Variables create_pr draft_pr : bool.
Variable e : Exn.

Hypothesis Hrun : w_subprocess_run w = Raise e.






End Raises.

End AssistantRaises.

Section TimeoutClaims.
Import ClaudeSession ClaudeSessionFacts Notifications Orchestrator OrchestratorFacts
  SessionCalls AssistantRaises SessionExamples.




End TimeoutClaims.
